(** * Nature.com full-text crawler: model and properties

    Shallow embedding of [src/papers_crawler/crawl_text_async_nature.py]:
    the article extractor [extract_fulltext_nature_as_json], the file writer
    [save_json_to_file] and the crawl loop [crawl_text_nature_async].

    The browser (Playwright) and the HTML parser (BeautifulSoup) are external:
    a fetched page is represented by the results of the queries the code makes
    on it, and the outside world by a record of oracles ([World]).  Python
    integers are modelled as [Z], Python strings as [string]: one byte per
    character for ASCII text, the UTF-8 bytes for text outside ASCII.  [int],
    [len] and the slices [s[:n]] read such text character by character; the
    helpers of the extractor ([lower], [strip]) act on its ASCII characters. *)

From Stdlib Require Import ZArith Ascii String List Bool Lia.
From stdpp Require Import base gmap strings list pretty.

Local Open Scope Z_scope.
Local Open Scope string_scope.

(** ** Python string helpers *)

Module PyStr.

Definition nl : string := String "010"%char EmptyString.

(** ASCII part of [str.lower]. *)
Definition lower_ascii (c : ascii) : ascii :=
  let n := nat_of_ascii c in
  if (65 <=? n)%nat && (n <=? 90)%nat then ascii_of_nat (n + 32) else c.

Fixpoint lower (s : string) : string :=
  match s with
  | EmptyString => EmptyString
  | String c r => String (lower_ascii c) (lower r)
  end.

Fixpoint startswith (p s : string) : bool :=
  match p, s with
  | EmptyString, _ => true
  | String a p', String b s' => if Ascii.eqb a b then startswith p' s' else false
  | String _ _, EmptyString => false
  end.

(** [sub in s] *)
Fixpoint contains (sub s : string) : bool :=
  startswith sub s ||
  match s with
  | EmptyString => false
  | String _ r => contains sub r
  end.

(** [any(skip in s for skip in skips)] *)
Definition any_in (skips : list string) (s : string) : bool :=
  existsb (fun skip => contains skip s) skips.

(** [sep.join(parts)] *)
Fixpoint join (sep : string) (parts : list string) : string :=
  match parts with
  | [] => EmptyString
  | [x] => x
  | x :: rest => x +:+ sep +:+ join sep rest
  end.

(** ASCII characters for which [str.isspace] holds. *)
Definition is_space (c : ascii) : bool :=
  let n := nat_of_ascii c in
  ((9 <=? n)%nat && (n <=? 13)%nat) || ((28 <=? n)%nat && (n <=? 32)%nat).

Fixpoint lstrip (s : string) : string :=
  match s with
  | String c r => if is_space c then lstrip r else s
  | EmptyString => EmptyString
  end.

Fixpoint rstrip (s : string) : string :=
  match s with
  | EmptyString => EmptyString
  | String c r =>
      match rstrip r with
      | EmptyString => if is_space c then EmptyString else String c EmptyString
      | r' => String c r'
      end
  end.

Definition strip (s : string) : string := rstrip (lstrip s).

(** A byte that is an ASCII character. *)
Definition is_ascii (c : ascii) : bool := (N_of_ascii c <? 128)%N.

(** A byte that continues a character of more than one byte. *)
Definition is_continuation (c : ascii) : bool :=
  let b := N_of_ascii c in (128 <=? b)%N && (b <? 192)%N.

(** [len(s)]: the number of characters, one for each byte that does not
    continue a character. *)
Fixpoint len (s : string) : nat :=
  match s with
  | EmptyString => O
  | String c r => if is_continuation c then len r else S (len r)
  end.

(** [s[:n]]: the bytes of the first [n] characters. *)
Fixpoint take_chars (n : nat) (s : string) : string :=
  match s with
  | EmptyString => EmptyString
  | String c r =>
      if is_continuation c then String c (take_chars n r)
      else match n with
           | O => EmptyString
           | S n' => String c (take_chars n' r)
           end
  end.

(** [s.split(sep)[0]] for a non-empty [sep]: the text before the first
    occurrence of [sep], or all of [s] when there is none. *)
Fixpoint split_head (sep s : string) : string :=
  match s with
  | EmptyString => EmptyString
  | String c r => if startswith sep s then EmptyString else String c (split_head sep r)
  end.

(** *** [int] on a string

    [int] reads code points, so the UTF-8 bytes are decoded first; a byte
    sequence that is no UTF-8 (and so stands for no text) decodes to U+FFFD,
    which [int] refuses. *)

Definition replacement : N := 65533%N.

(** A decoded value is a character when it needed its number of bytes, is
    no surrogate and lies in the code space. *)
Definition scalar (low cp : N) : N :=
  if (cp <? low)%N || ((55296 <=? cp)%N && (cp <=? 57343)%N) || (1114111 <? cp)%N
  then replacement else cp.

(** UTF-8 decoding: [acc] holds the bits read of a character that still
    needs [need] continuation bytes and must be at least [low]. *)
Fixpoint decode_from (acc : N) (need : nat) (low : N) (s : string) : list N :=
  match s with
  | EmptyString => match need with O => [] | S _ => [replacement] end
  | String c r =>
      let b := N_of_ascii c in
      match need with
      | O =>
          if (b <? 128)%N then b :: decode_from 0 0 0 r
          else if (b <? 192)%N then replacement :: decode_from 0 0 0 r
          else if (b <? 224)%N then decode_from (b - 192) 1 128 r
          else if (b <? 240)%N then decode_from (b - 224) 2 2048 r
          else if (b <? 248)%N then decode_from (b - 240) 3 65536 r
          else replacement :: decode_from 0 0 0 r
      | S k =>
          if (128 <=? b)%N && (b <? 192)%N then
            let acc' := (acc * 64 + (b - 128))%N in
            match k with
            | O => scalar low acc' :: decode_from 0 0 0 r
            | S _ => decode_from acc' k low r
            end
          else replacement :: decode_from 0 0 0 r
      end
  end.

Definition codepoints (s : string) : list N := decode_from 0 0 0 s.

(** The first code point of each run of ten decimal digits (category Nd) of
    the Unicode Character Database 14.0, the one of CPython 3.11. *)
Definition decimal_starts : list N :=
  [48; 1632; 1776; 1984; 2406; 2534; 2662; 2790; 2918; 3046; 3174; 3302; 3430;
   3558; 3664; 3792; 3872; 4160; 4240; 6112; 6160; 6470; 6608; 6784; 6800; 6992;
   7088; 7232; 7248; 42528; 43216; 43264; 43472; 43504; 43600; 44016; 65296;
   66720; 68912; 69734; 69872; 69942; 70096; 70384; 70736; 70864; 71248; 71360;
   71472; 71904; 72016; 72784; 73040; 73120; 92768; 92864; 93008; 120782;
   120792; 120802; 120812; 120822; 123200; 123632; 125264; 130032]%N.

(** [Py_UNICODE_TODECIMAL] *)
Definition unicode_decimal (cp : N) : option Z :=
  match List.find (fun start => (start <=? cp)%N && (cp <? start + 10)%N) decimal_starts with
  | Some start => Some (Z.of_N (cp - start))
  | None => None
  end.

(** The white space outside ASCII ([Py_UNICODE_ISSPACE] above 127). *)
Definition unicode_spaces : list N :=
  [133; 160; 5760; 8192; 8193; 8194; 8195; 8196; 8197; 8198; 8199; 8200; 8201;
   8202; 8232; 8233; 8239; 8287; 12288]%N.

(** What a code point is to [int].  Below 127 only the white space of C
    ([\t \n \v \f \r] and the blank) is skipped: the separators 28..31, which
    [str.strip] removes, are not.  From 127 on, white space counts as a blank
    and a decimal digit as its value. *)
Inductive int_char : Type :=
  | IBlank
  | IDigit (d : Z)
  | ISign (negative : bool)
  | IUnderscore
  | IOther.

Definition classify (cp : N) : int_char :=
  if (cp <? 127)%N then
    if ((9 <=? cp)%N && (cp <=? 13)%N) || (cp =? 32)%N then IBlank
    else if (48 <=? cp)%N && (cp <=? 57)%N then IDigit (Z.of_N cp - 48)
    else if (cp =? 43)%N then ISign false
    else if (cp =? 45)%N then ISign true
    else if (cp =? 95)%N then IUnderscore
    else IOther
  else if existsb (N.eqb cp) unicode_spaces then IBlank
  else match unicode_decimal cp with
       | Some d => IDigit d
       | None => IOther
       end.

Definition is_blank (c : int_char) : bool :=
  match c with IBlank => true | _ => false end.

Fixpoint skip_blanks (l : list int_char) : list int_char :=
  match l with
  | c :: r => if is_blank c then skip_blanks r else l
  | [] => []
  end.

Definition trim_blanks (l : list int_char) : list int_char :=
  rev (skip_blanks (rev (skip_blanks l))).

(** Digits of an integer literal as [int] accepts them: a digit first, then
    digits, each optionally preceded by a single underscore. *)
Fixpoint int_digits (acc : Z) (l : list int_char) : option Z :=
  match l with
  | [] => Some acc
  | IDigit d :: r => int_digits (10 * acc + d) r
  | IUnderscore :: IDigit d :: r => int_digits (10 * acc + d) r
  | _ => None
  end.

Definition int_unsigned (l : list int_char) : option Z :=
  match l with
  | IDigit d :: r => int_digits d r
  | _ => None
  end.

(** [int(s)] in base 10; [None] stands for [ValueError]. *)
Definition int (s : string) : option Z :=
  match trim_blanks (List.map classify (codepoints s)) with
  | ISign true :: r => Z.opp <$> int_unsigned r
  | ISign false :: r => int_unsigned r
  | l => int_unsigned l
  end.

(** [os.path.join(a, b)] on POSIX. *)
Definition ends_with_slash (a : string) : bool :=
  match String.rev a with
  | String c _ => Ascii.eqb c "/"%char
  | EmptyString => false
  end.

Definition path_join (a b : string) : string :=
  if startswith "/" b then b
  else if String.eqb a EmptyString || ends_with_slash a then a +:+ b
  else a +:+ "/" +:+ b.

End PyStr.

(** ** JSON values and the article page

    [json_data] is a Python [dict] keyed by strings; only membership, update
    and [len] are used on it, so it is a [gmap]. *)

Inductive jval : Type :=
  | JStr (s : string)
  | JBool (b : bool)
  | JInt (n : Z).

Inductive elem_name : Type := P_ | H3 | H4 | H5 | H6 | LI.

Definition is_heading (t : elem_name) : bool :=
  match t with H3 | H4 | H5 | H6 => true | _ => false end.

(** One [<section data-title=...>]: the attribute value and, when the section
    has a [div.c-article-section__content], the name and text of each of its
    [p], [h3]..[h6], [li] descendants in document order. *)
Record main_section : Type := MainSection {
  data_title : string;
  section_div : option (list (elem_name * string))
}.

(** One [div.c-article-section__figure]: the text of its [figcaption] and of
    its description [div], when present. *)
Record figure_section : Type := FigureSection {
  figcaption : option string;
  fig_description : option string
}.

(** The article document after the unwanted elements are removed, as the
    results of the queries [extract_fulltext_nature_as_json] makes on it. *)
Record soup : Type := Soup {
  title_elem : option string;
  authors_list : option (list string);
  date_meta : option (option string);
  doi_meta : option (option string);
  abstract_section : option (option (list string));
  main_sections : list main_section;
  figure_sections : list figure_section;
  references_section : option (list (option string))
}.

Definition nonempty (s : string) : bool := negb (String.eqb s EmptyString).

(** [d[k] = v] guarded by a condition, as in [if c: json_data[k] = v]. *)
Definition set_if (c : bool) (k : string) (v : string)
    (d : gmap string jval) : gmap string jval :=
  if c then <[k := JStr v]> d else d.

Definition author_skips : list string := ["view all"; "show more"; "show less"].

Definition section_skips : list string :=
  ["full size image"; "view figure"; "download"; "cite this";
   "search for articles"; "crossref"; "pubmed"; "google scholar"].

Definition extract_title (sp : soup) (d : gmap string jval) : gmap string jval :=
  match title_elem sp with
  | Some t => <["title" := JStr t]> d
  | None => d
  end.

Definition extract_authors (sp : soup) (d : gmap string jval) : gmap string jval :=
  match authors_list sp with
  | Some items =>
      let authors :=
        List.filter (fun a => nonempty a && negb (PyStr.any_in author_skips (PyStr.lower a)))
                    items in
      match authors with
      | [] => d
      | _ => <["authors" := JStr (PyStr.join ", " authors)]> d
      end
  | None => d
  end.

Definition extract_date (sp : soup) (d : gmap string jval) : gmap string jval :=
  match date_meta sp with
  | Some (Some dt) => set_if (nonempty dt) "publication_date" dt d
  | _ => d
  end.

Definition extract_doi (sp : soup) (d : gmap string jval) : gmap string jval :=
  match doi_meta sp with
  | Some content => <["doi" := JStr (default EmptyString content)]> d
  | None => d
  end.

Definition extract_abstract (sp : soup) (d : gmap string jval) : gmap string jval :=
  match abstract_section sp with
  | Some (Some ps) =>
      let abstract_text := List.filter nonempty ps in
      match abstract_text with
      | [] => d
      | _ => <["Abstract" := JStr (PyStr.join (PyStr.nl +:+ PyStr.nl) abstract_text)]> d
      end
  | _ => d
  end.

Definition section_line (e : elem_name * string) : option string :=
  let '(name, text) := e in
  if PyStr.any_in section_skips (PyStr.lower text) then None
  else if nonempty text then
    Some (if is_heading name then PyStr.nl +:+ "## " +:+ text +:+ PyStr.nl else text)
  else None.

Definition extract_section (s : main_section) (d : gmap string jval)
    : gmap string jval :=
  if negb (nonempty (data_title s)) || String.eqb (data_title s) "Abstract" then d
  else match section_div s with
       | None => d
       | Some elems =>
           match omap section_line elems with
           | [] => d
           | section_text =>
               <[data_title s := JStr (PyStr.join (PyStr.nl +:+ PyStr.nl) section_text)]> d
           end
       end.

Definition extract_sections (sp : soup) (d : gmap string jval) : gmap string jval :=
  fold_left (fun acc s => extract_section s acc) (main_sections sp) d.

Definition figure_entry (idx : nat) (f : figure_section) : option string :=
  let caption_title := default EmptyString (figcaption f) in
  let description_text :=
    match fig_description f with
    | Some t =>
        if PyStr.contains "full size image" (PyStr.lower t)
        then PyStr.strip (PyStr.split_head "Full size image" t)
        else t
    | None => EmptyString
    end in
  if nonempty caption_title || nonempty description_text then
    let full_caption :=
      if nonempty description_text && negb (String.eqb description_text caption_title)
      then caption_title +:+ PyStr.nl +:+ description_text
      else caption_title in
    if nonempty full_caption then Some (pretty idx +:+ ". " +:+ full_caption) else None
  else None.

(** [for idx, x in enumerate(xs, start)], keeping the entries [f] yields. *)
Fixpoint enumerate_omap {A} (f : nat -> A -> option string) (start : nat)
    (xs : list A) : list string :=
  match xs with
  | [] => []
  | x :: rest =>
      match f start x with
      | Some s => s :: enumerate_omap f (S start) rest
      | None => enumerate_omap f (S start) rest
      end
  end.

Definition extract_figures (sp : soup) (d : gmap string jval) : gmap string jval :=
  match enumerate_omap figure_entry 1 (figure_sections sp) with
  | [] => d
  | figures_data => <["Figures" := JStr (PyStr.join (PyStr.nl +:+ PyStr.nl) figures_data)]> d
  end.

Definition reference_entry (idx : nat) (r : option string) : option string :=
  match r with
  | Some ref_text =>
      if nonempty ref_text then Some (pretty idx +:+ ". " +:+ ref_text) else None
  | None => None
  end.

Definition extract_references (sp : soup) (d : gmap string jval) : gmap string jval :=
  match references_section sp with
  | Some ref_items =>
      match enumerate_omap reference_entry 1 ref_items with
      | [] => d
      | references => <["References" := JStr (PyStr.join (PyStr.nl +:+ PyStr.nl) references)]> d
      end
  | None => d
  end.

(** [json_data] as it stands just before the final [len(json_data) > 2]. *)
Definition assemble (fulltext_url now : string) (sp : soup) : gmap string jval :=
  let d0 : gmap string jval :=
    <["extracted_at" := JStr now]> (<["url" := JStr fulltext_url]> ∅) in
  extract_references sp
    (extract_figures sp
      (extract_sections sp
        (extract_abstract sp
          (extract_doi sp
            (extract_date sp
              (extract_authors sp
                (extract_title sp d0))))))).

(** [extract_fulltext_nature_as_json(page, fulltext_url)].  [doc] is what
    navigating to the article and parsing it gives: [None] when anything in
    the function's [try] block raises (navigation timeout, network failure),
    which the [except Exception] turns into the result [None]. *)
Definition extract_fulltext_nature_as_json (doc : option soup)
    (fulltext_url now : string) : option (gmap string jval) :=
  match doc with
  | None => None
  | Some sp =>
      let json_data := assemble fulltext_url now sp in
      if (2 <? size json_data)%nat then Some json_data else None
  end.

(** ** The listing page and the outside world *)

(** The [div.c-meta] of an article card: whether it carries the
    [span data-test="open-access"] label, and the [datetime] attribute of its
    [time] element when there is one. *)
Record c_meta : Type := CMeta {
  oa_label : bool;
  date_elem : option string
}.

(** One [article.c-card] of a listing page.  [article_link] is the [href] of
    its [a.c-card__link] when the card has one (the empty string when the
    attribute is missing); [card_title] the text of its [h3.c-card__title]. *)
Record card : Type := Card {
  meta_section : option c_meta;
  article_link : option string;
  card_title : option string
}.

(** How preparing the browser of a journal ends: [p.firefox.launch] raises;
    the browser is launched and one of [browser.new_context],
    [stealth.apply_stealth_async] and [context.new_page] raises; or the page
    is ready. *)
Inductive launch_result : Type := LaunchFails | PageFails | Ready.

(** What the crawl cannot control.  [listing slug year page_num] is the result
    of loading the listing page of that coordinate ([page.goto],
    [wait_for_timeout], the cookie banner on page 1, [page.content], parsing):
    [None] when the browser raises, otherwise the cards found.
    [article_doc url] is the same for an article page.  [writable path] tells
    whether writing a JSON file at [path] succeeds.  [urljoin href] is
    [urljoin("https://www.nature.com", href)], [None] when it raises
    [ValueError] (as it does on [//[], which is no valid IPv6 host), and [now]
    the value of [datetime.now().isoformat()].  [makedirs_ok path] tells
    whether [os.makedirs(path, exist_ok=True)] returns, [playwright_ok] and
    [playwright_stops] whether entering and leaving the block
    [async with async_playwright()] return, [launch slug] how preparing the
    browser of a journal ends and [close_ok slug] whether its
    [browser.close()] returns.

    The site, the disk and the browser are taken not to change during a run:
    asking the same question twice gives the same answer. *)
Record World : Type := MkWorld {
  listing : string -> Z -> nat -> option (list card);
  article_doc : string -> option soup;
  writable : string -> bool;
  urljoin : string -> option string;
  now : string;
  makedirs_ok : string -> bool;
  playwright_ok : bool;
  playwright_stops : bool;
  launch : string -> launch_result;
  close_ok : string -> bool
}.

(** Outcome of calling a caller-supplied callback: it returns, or it raises
    an [Exception]. *)
Inductive cb_result : Type := CbReturns | CbRaises.

(** The arguments of [crawl_text_nature_async] that the crawl reads
    ([keywords] and [crawl_archives] are unused; [headless] only reaches the
    browser). *)
Record Config : Type := MkConfig {
  year_from : Z;
  year_to : Z;
  out_folder : string;
  limit : option Z;
  journal_slugs : option (list string);
  progress_callback : option (string -> string -> cb_result);
  total_progress_callback :
    option (Z -> Z -> string -> Z -> Z -> string -> cb_result)
}.

(** Observable actions, in the order the crawl performs them. *)
Inductive event : Type :=
  | EvTotalProgress                                  (* total_progress_callback(0, 0, ...) *)
  | EvLaunch (slug : string)                         (* p.firefox.launch returns *)
  | EvClose (slug : string)                          (* browser.close() returns *)
  | EvCloseFails (slug : string)                     (* browser.close() raises *)
  | EvListing (slug : string) (year : Z) (page_num : nat)   (* page.goto(articles_url) *)
  | EvExtract (url : string)                         (* extract_fulltext_nature_as_json *)
  | EvWarnExtract (url : string)                     (* logger.warning: failed to extract *)
  | EvSave (path : string) (ok : bool)                (* save_json_to_file and its result *)
  | EvProgress (filename path : string)              (* progress_callback(filename, path) *)
  | EvErrSave (title : string)                       (* logger.error: failed to save *)
  | EvErrArticle (title : string)                    (* logger.error: error processing article *)
  | EvSleep                                          (* asyncio.sleep(1) *)
  | EvErrJournal (slug : string)                     (* logger.error: failed to crawl journal *)
  | EvCsv                                            (* extraction summary written *)
  | EvZip.                                           (* archive written *)

(** The local variables of [crawl_text_nature_async] that outlive an
    iteration, with the history of actions ([log], newest first).  The counters
    [oa_count] and [page_oa_found] are only printed and are left out. *)
Record RunState : Type := MkState {
  saved_files : list string;
  open_access_articles : list string;
  article_metadata : list (string * string * string);
  found_count : Z;
  log : list event
}.

Definition init_state : RunState := MkState [] [] [] 0 [].

Definition emit (e : event) (st : RunState) : RunState :=
  MkState (saved_files st) (open_access_articles st) (article_metadata st)
          (found_count st) (e :: log st).

(** Actions in chronological order. *)
Definition trace (st : RunState) : list event := rev (log st).

(** [limit and found_count >= limit] *)
Definition limit_reached (limit : option Z) (found_count : Z) : bool :=
  match limit with
  | None => false
  | Some l => negb (l =? 0)%Z && (l <=? found_count)%Z
  end.

(** [save_json_to_file(json_content, file_path)]: [True] when the file is
    written, [False] when writing raises. *)
Definition save_json_to_file (W : World) (json_content : gmap string jval)
    (file_path : string) : bool :=
  if writable W file_path then true else false.

(** The substitution of [safe_title]: each of the characters
    < > : / | ? *, the double quote and the backslash becomes an underscore. *)
Definition unsafe_char (c : ascii) : bool :=
  existsb (Ascii.eqb c)
    ["<"; ">"; ":"; "034"; "/"; "\"; "|"; "?"; "*"]%char.

Fixpoint sanitize (s : string) : string :=
  match s with
  | EmptyString => EmptyString
  | String c r => String (if unsafe_char c then "_"%char else c) (sanitize r)
  end.

(** [range(year_to, year_from - 1, -1)] *)
Definition year_range (year_from year_to : Z) : list Z :=
  List.map (fun i => year_to - Z.of_nat i)
           (seq 0 (Z.to_nat (year_to - year_from + 1))).

(** A card that passed every filter of the article loop. *)
Record stub : Type := Stub {
  article_year : Z;
  article_date : string;
  article_href : string
}.

(** [total_progress_callback(0, 0, ..., 0, 0, ...)], the one call the crawl makes
    to the coarse callback. *)
Definition scan_call (t : Z -> Z -> string -> Z -> Z -> string -> cb_result)
    : cb_result :=
  t 0 0 "Scanning Nature journals for open access articles..." 0 0 "scanning".

(** Control leaving a loop body. *)
Inductive flow : Type := Normal | Raised | OutOfFuel.

Section Crawl.

Variable W : World.
Variable cfg : Config.

Definition at_limit (st : RunState) : bool :=
  limit_reached (limit cfg) (found_count st).

(** The filters at the head of the article loop, in source order: each
    failing test is a [continue]. *)
Definition accept (art : card) : option stub :=
  match meta_section art with
  | None => None
  | Some m =>
      if negb (oa_label m) then None
      else match date_elem m with
           | None => None
           | Some date =>
               match PyStr.int (PyStr.take_chars 4 date) with
               | None => None
               | Some y =>
                   if negb ((year_from cfg <=? y)%Z && (y <=? year_to cfg)%Z) then None
                   else match article_link art with
                        | None => None
                        | Some href =>
                            if nonempty href then Some (Stub y date href) else None
                        end
               end
           end
  end.

Definition title_of (st : RunState) (art : card) : string :=
  match card_title art with
  | Some t => t
  | None => "Article_" +:+ pretty (found_count st + 1)
  end.

Definition json_filename_of (article_title : string) (y : Z) : string :=
  sanitize (PyStr.take_chars 100 article_title) +:+ "_" +:+ pretty y +:+ ".json".

Definition add_metadata (slug : string) (s : stub) (j : gmap string jval)
    : gmap string jval :=
  <["date" := JStr (article_date s)]>
    (<["year" := JInt (article_year s)]>
      (<["open_access" := JBool true]>
        (<["journal" := JStr slug]> j))).

(** The record of a saved article enters the three result lists and the
    counter. *)
Definition record_saved (json_path article_title date : string) (st : RunState)
    : RunState :=
  MkState (saved_files st ++ [json_path])
          (open_access_articles st ++ [article_title])
          (article_metadata st ++ [(json_path, article_title, date)])
          (found_count st + 1)
          (log st).

(** [if progress_callback: progress_callback(json_filename, json_path)]
    inside the article's [try]: a raising callback lands in its
    [except Exception], which logs. *)
Definition notify (json_filename json_path article_title : string)
    (st : RunState) : RunState :=
  match progress_callback cfg with
  | None => st
  | Some cb =>
      let st1 := emit (EvProgress json_filename json_path) st in
      match cb json_filename json_path with
      | CbReturns => st1
      | CbRaises => emit (EvErrArticle article_title) st1
      end
  end.

(** Fetching, extracting and saving one accepted stub whose link resolved to
    [full_url]: the [try] block of the article loop and the delay after it.
    The [continue] taken when extraction returns [None] leaves the iteration
    before the delay. *)
Definition process_stub (slug : string) (art : card) (s : stub) (full_url : string)
    (st : RunState) : RunState :=
  let article_title := title_of st art in
  let st1 := emit (EvExtract full_url) st in
  match extract_fulltext_nature_as_json (article_doc W full_url) full_url (now W) with
  | None => emit (EvWarnExtract full_url) st1
  | Some json_data =>
      let json_data := add_metadata slug s json_data in
      let json_filename := json_filename_of article_title (article_year s) in
      let json_path :=
        PyStr.path_join (PyStr.path_join (out_folder cfg) slug) json_filename in
      let ok := save_json_to_file W json_data json_path in
      let st2 := emit (EvSave json_path ok) st1 in
      let st3 :=
        if ok
        then notify json_filename json_path article_title
               (record_saved json_path article_title (article_date s) st2)
        else emit (EvErrSave article_title) st2 in
      emit EvSleep st3
  end.

(** One iteration of [for art in articles], after its limit check.  The link
    is resolved before the [try] of the article: when [urljoin] raises, the
    exception leaves the iteration, and nothing before the journal's
    [except Exception] catches it. *)
Definition article_step (slug : string) (st : RunState) (art : card)
    : flow * RunState :=
  match accept art with
  | None => (Normal, st)
  | Some s =>
      match urljoin W (article_href s) with
      | None => (Raised, st)
      | Some full_url => (Normal, process_stub slug art s full_url st)
      end
  end.

(** [for art in articles: if limit and found_count >= limit: break; ...] *)
Fixpoint articles_loop (slug : string) (st : RunState) (articles : list card)
    : flow * RunState :=
  match articles with
  | [] => (Normal, st)
  | art :: rest =>
      if at_limit st then (Normal, st)
      else match article_step slug st art with
           | (Normal, st') => articles_loop slug st' rest
           | other => other
           end
  end.

(** The [while True] pagination loop of one year.  A raising page load or
    article iteration leaves the loop with [Raised]: nothing inside the loop
    catches it. *)
Fixpoint pages_loop (fuel : nat) (slug : string) (year : Z) (st : RunState)
    (page_num : nat) : flow * RunState :=
  match fuel with
  | O => (OutOfFuel, st)
  | S fuel' =>
      if at_limit st then (Normal, st)
      else
        let st1 := emit (EvListing slug year page_num) st in
        match listing W slug year page_num with
        | None => (Raised, st1)
        | Some [] => (Normal, st1)
        | Some articles =>
            match articles_loop slug st1 articles with
            | (Normal, st2) =>
                if at_limit st2 then (Normal, st2)
                else pages_loop fuel' slug year st2 (S page_num)
            | other => other
            end
        end
  end.

(** [for year in range(year_to, year_from - 1, -1)] *)
Fixpoint years_loop (fuel : nat) (slug : string) (st : RunState) (years : list Z)
    : flow * RunState :=
  match years with
  | [] => (Normal, st)
  | year :: rest =>
      if at_limit st then (Normal, st)
      else match pages_loop fuel slug year st 1%nat with
           | (Normal, st') => years_loop fuel slug st' rest
           | other => other
           end
  end.

(** The [finally] of a journal: [await browser.close()].  When it raises,
    the exception leaves [crawl_text_nature_async]. *)
Definition close_browser (slug : string) (st : RunState) : flow * RunState :=
  if close_ok W slug then (Normal, emit (EvClose slug) st)
  else (Raised, emit (EvCloseFails slug) st).

(** The body of [for slug in journal_slugs]: the journal folder and the
    browser, the year loop under [try], the journal-level [except Exception]
    and the [finally].  The folder, the browser, its context and its page are
    made before the [try]: when one of these steps raises, the exception
    leaves [crawl_text_nature_async], and a browser that was launched is not
    closed. *)
Definition crawl_journal (fuel : nat) (st : RunState) (slug : string)
    : flow * RunState :=
  if negb (makedirs_ok W (PyStr.path_join (out_folder cfg) slug)) then (Raised, st)
  else
    match launch W slug with
    | LaunchFails => (Raised, st)
    | PageFails => (Raised, emit (EvLaunch slug) st)
    | Ready =>
        let st0 := emit (EvLaunch slug) st in
        match years_loop fuel slug st0 (year_range (year_from cfg) (year_to cfg)) with
        | (Normal, st1) => close_browser slug st1
        | (Raised, st1) => close_browser slug (emit (EvErrJournal slug) st1)
        | (OutOfFuel, st1) => (OutOfFuel, st1)
        end
    end.

Fixpoint journals_loop (fuel : nat) (st : RunState) (slugs : list string)
    : flow * RunState :=
  match slugs with
  | [] => (Normal, st)
  | slug :: rest =>
      match crawl_journal fuel st slug with
      | (Normal, st') => journals_loop fuel st' rest
      | other => other
      end
  end.

(** The block [async with async_playwright() as p] around the journals:
    when starting Playwright raises no journal is crawled, and when stopping
    it raises the results are lost with the exception. *)
Definition with_playwright (fuel : nat) (st : RunState) (slugs : list string)
    : flow * RunState :=
  if negb (playwright_ok W) then (Raised, st)
  else match journals_loop fuel st slugs with
       | (Normal, st') => if playwright_stops W then (Normal, st') else (Raised, st')
       | other => other
       end.

(** The summary and the archive, written only when something was saved;
    their failures are logged, never raised. *)
Definition finish (st : RunState) : RunState :=
  match saved_files st with
  | [] => st
  | _ => emit EvZip (emit EvCsv st)
  end.

(** [crawl_text_nature_async].  [fuel] bounds the number of listing pages
    loaded per (journal, year): the [while True] of the source has no bound of
    its own.  With flow [Normal] the function returns
    [(saved_files, open_access_articles)] of the final state; with [Raised] it
    raises; [OutOfFuel] gives the state reached when the bound ran out.  The
    console tracker [CLIProgressTracker], created when no callback is given,
    only prints; it is defined outside this file and is left out, as are the
    [print] calls and the [Stealth] settings object.  Every exception of the
    model is an [Exception]: cancellation of the task and interrupts, which
    pass every [except Exception], are not modelled. *)
Definition crawl_text_nature_async (fuel : nat) : flow * RunState :=
  if negb (makedirs_ok W (out_folder cfg)) then (Raised, init_state)
  else
    match journal_slugs cfg with
    | None | Some [] => (Normal, finish init_state)
    | Some slugs =>
        let start :=
          match total_progress_callback cfg with
          | None => (Normal, init_state)
          | Some cb =>
              let st := emit EvTotalProgress init_state in
              match scan_call cb with
              | CbReturns => (Normal, st)
              | CbRaises => (Raised, st)
              end
          end in
        match start with
        | (Normal, st) =>
            match with_playwright fuel st slugs with
            | (Normal, st') => (Normal, finish st')
            | other => other
            end
        | other => other
        end
    end.

End Crawl.

(** ** Notions used to state the properties *)

(** What the run hands back and counts: the three result lists and the
    counter, without the history. *)
Definition results (st : RunState)
    : list string * list string * list (string * string * string) * Z :=
  (saved_files st, open_access_articles st, article_metadata st, found_count st).

(** Number of successful saves in a history. *)
Definition persist_count (evs : list event) : nat :=
  length (List.filter (fun e => match e with EvSave _ true => true | _ => false end) evs).

(** Number of times an article page was requested in a history. *)
Definition extract_count (url : string) (evs : list event) : nat :=
  length (List.filter
            (fun e => match e with EvExtract u => String.eqb u url | _ => false end) evs).

(** Requests to the origin: listing pages and article pages. *)
Definition is_fetch (e : event) : bool :=
  match e with EvListing _ _ _ | EvExtract _ => true | _ => false end.

Definition is_listing (e : event) : bool :=
  match e with EvListing _ _ _ => true | _ => false end.

(** Actions outside the page and article loops. *)
Definition quiet (e : event) : bool :=
  match e with
  | EvTotalProgress | EvLaunch _ | EvClose _ | EvCloseFails _ | EvCsv | EvZip => true
  | _ => false
  end.

(** What the per-file callback path adds to the history. *)
Definition is_notice (e : event) : bool :=
  match e with EvProgress _ _ | EvErrArticle _ => true | _ => false end.

(** In a history (newest first), every request to the origin was made while
    fewer than [k] records had been saved. *)
Fixpoint guarded (k : Z) (evs : list event) : Prop :=
  match evs with
  | [] => True
  | e :: earlier =>
      (is_fetch e = true -> Z.of_nat (persist_count earlier) < k) /\ guarded k earlier
  end.

(** The accounting kept by a run under the limit [k]. *)
Definition within_limit (k : Z) (st : RunState) : Prop :=
  found_count st = Z.of_nat (persist_count (log st))
  /\ length (saved_files st) = persist_count (log st)
  /\ found_count st <= k
  /\ guarded k (log st).

(** The first action after a journal is done: the next journal's browser
    launch, or the summary. *)
Definition boundary (e : event) : bool :=
  match e with EvLaunch _ | EvCsv => true | _ => false end.

(** In a history (newest first), every listing page that failed to load is
    directly followed by the journal-level error log and the closing of that
    journal's browser.  After a closing that returned comes a [boundary]
    action or nothing; after one that raised, nothing. *)
Definition handled (W : World) (evs : list event) : Prop :=
  forall l1 l2 s y p,
    evs = (l1 ++ EvListing s y p :: l2)%list -> listing W s y p = None ->
    l1 = [EvCloseFails s; EvErrJournal s]
    \/ exists l0, l1 = (l0 ++ [EvClose s; EvErrJournal s])%list
                  /\ (l0 = [] \/ exists l0' e, l0 = (l0' ++ [e])%list /\ boundary e = true).

(** How an exception leaves the loops of a journal, given what holds
    ([Inside]) before the step that raises: a listing page fails to load, or
    the link of an accepted card does not resolve. *)
Definition breaks (W : World) (cfg : Config) (Inside : RunState -> Prop)
    (Q : string -> Z -> nat -> Prop) (slug : string) (st' : RunState) : Prop :=
  (exists st0 y0 p0,
     Inside st0 /\ at_limit cfg st0 = false /\ Q slug y0 p0
     /\ listing W slug y0 p0 = None /\ st' = emit (EvListing slug y0 p0) st0)
  \/ (Inside st' /\ at_limit cfg st' = false
      /\ exists art, article_step W cfg slug st' art = (Raised, st')).

(** What a listing page is expected to add to the results.
    [eligible_entry W cfg slug count art] is the row of [article_metadata] of
    a card that is eligible when [count] records are saved: it passes the
    filters, its link resolves, its page is extracted and its file written.
    [eligible_entries] collects the rows of the eligible cards of a page, in
    document order. *)
Definition eligible_entry (W : World) (cfg : Config) (slug : string) (count : Z)
    (art : card) : option (string * string * string) :=
  match accept cfg art with
  | None => None
  | Some s =>
      match urljoin W (article_href s) with
      | None => None
      | Some url =>
          match extract_fulltext_nature_as_json (article_doc W url) url (now W) with
          | None => None
          | Some _ =>
              let title :=
                default ("Article_" +:+ pretty (count + 1)) (card_title art) in
              let path :=
                PyStr.path_join (PyStr.path_join (out_folder cfg) slug)
                  (json_filename_of title (article_year s)) in
              if writable W path then Some (path, title, article_date s) else None
          end
      end
  end.

Fixpoint eligible_entries (W : World) (cfg : Config) (slug : string) (count : Z)
    (arts : list card) : list (string * string * string) :=
  match arts with
  | [] => []
  | art :: rest =>
      match eligible_entry W cfg slug count art with
      | Some entry => entry :: eligible_entries W cfg slug (count + 1) rest
      | None => eligible_entries W cfg slug count rest
      end
  end.

(** A history without the actions that only exist for the callbacks. *)
Definition is_callback (e : event) : bool :=
  match e with EvTotalProgress | EvProgress _ _ | EvErrArticle _ => true | _ => false end.

Definition core_log (evs : list event) : list event :=
  List.filter (fun e => negb (is_callback e)) evs.

(** Two runs that differ at most in what the callbacks added. *)
Definition same_crawl (a b : RunState) : Prop :=
  results a = results b /\ core_log (log a) = core_log (log b).

(** The listing page of a coordinate loads and shows at least one card. *)
Definition page_nonempty (W : World) (slug : string) (year : Z) (q : nat) : Prop :=
  exists art arts, listing W slug year q = Some (art :: arts).

Definition emits (evs : list event) (st : RunState) : RunState :=
  MkState (saved_files st) (open_access_articles st) (article_metadata st)
          (found_count st) (evs ++ log st).

Definition with_limit (cfg : Config) (l : option Z) : Config :=
  MkConfig (year_from cfg) (year_to cfg) (out_folder cfg) l (journal_slugs cfg)
           (progress_callback cfg) (total_progress_callback cfg).

Definition with_callbacks (cfg : Config)
    (p : option (string -> string -> cb_result))
    (t : option (Z -> Z -> string -> Z -> Z -> string -> cb_result)) : Config :=
  MkConfig (year_from cfg) (year_to cfg) (out_folder cfg) (limit cfg)
           (journal_slugs cfg) p t.

(** A step that only adds or overwrites entries of a dictionary. *)
Definition grows (f : gmap string jval -> gmap string jval) : Prop :=
  forall d, dom d ⊆ dom (f d).

(** ** Sample inputs *)

Module Sample.

Definition with_title : soup := Soup (Some "T") None None None None [] [] None.
Definition blank : soup := Soup None None None None None [] [] None.

(** A section whose [data-title] is [url] overwrites the bookkeeping entry. *)
Definition only_url_section : soup :=
  Soup None None None None None [MainSection "url" (Some [(P_, "text")])] [] None.

Definition rich : soup :=
  Soup (Some "T") (Some ["A B"; "View all"; "C"]) (Some (Some "2020-01-02"))
       (Some None) (Some (Some ["x"; EmptyString; "y"]))
       [MainSection "Intro" (Some [(H3, "Head"); (P_, "text"); (LI, "Download PDF")])]
       [FigureSection (Some "Fig. 1") (Some "Desc Full size image");
        FigureSection None None;
        FigureSection (Some "F3") None]
       (Some [Some "r1"; None; Some "r3"]).

Definition oa_card (date href title : string) : card :=
  Card (Some (CMeta true (Some date))) (Some href) (Some title).

Definition cardA : card := oa_card "2023-05-17" "/articles/a1" "Paper A".
Definition cardB : card := oa_card "2023-06-01" "/articles/b2" "Paper B".
Definition card22 : card := oa_card "2022-03-09" "/articles/c3" "Paper C".
Definition old_card : card := oa_card "2019-11-30" "/articles/o9" "Old paper".
Definition undated_card : card := oa_card "May 2023" "/articles/u7" "Undated paper".
Definition closed_card : card :=
  Card (Some (CMeta false (Some "2023-05-17"))) (Some "/articles/x0") (Some "Paywalled").

(** Text given by its UTF-8 bytes. *)
Definition of_bytes (bytes : list nat) : string :=
  string_of_list_ascii (List.map ascii_of_nat bytes).

(** The date 2023-05-17 with its year in full-width digits (U+FF10..U+FF19),
    and the same date after the separator U+001F. *)
Definition fullwidth_date : string :=
  of_bytes [239; 188; 146; 239; 188; 144; 239; 188; 146; 239; 188; 147]%nat +:+ "-05-17".
Definition separator_date : string := of_bytes [31]%nat +:+ "2023-05-17".

Definition join_nature (href : string) : string := "https://www.nature.com" +:+ href.

(** [urljoin] on the sample links: an unclosed bracket in the host raises. *)
Definition resolve (href : string) : option string :=
  if PyStr.startswith "//[" href then None else Some (join_nature href).

(** A world where every file can be written and the browser never fails. *)
Definition steady (pages : string -> Z -> nat -> option (list card))
    (docs : string -> option soup) : World :=
  MkWorld pages docs (fun _ => true) resolve "t0"
          (fun _ => true) true true (fun _ => Ready) (fun _ => true).

(** Journal [j], year 2023: the same article is listed on pages 1 and 2. *)
Definition overlap : World :=
  steady (fun _ _ p => if (p <=? 2)%nat then Some [cardA] else Some [])
          (fun _ => Some with_title).

(** The first listing page of 2023 fails to load; 2022 has an article. *)
Definition broken_2023 : World :=
  steady (fun _ y p =>
             if (y =? 2023)%Z then None
             else if (p =? 1)%nat then Some [card22] else Some [])
          (fun _ => Some with_title).

(** One page with three stubs; the page of the second has no content. *)
Definition second_fails : World :=
  steady (fun _ _ p => if (p =? 1)%nat then Some [cardA; cardB; card22] else Some [])
          (fun u => if String.eqb u (join_nature "/articles/b2") then Some blank
                    else Some with_title).

(** Page 1 has only a paywalled card, page 2 an open one, page 3 nothing. *)
Definition sparse : World :=
  steady (fun _ _ p =>
             if (p =? 1)%nat then Some [closed_card]
             else if (p =? 2)%nat then Some [cardA] else Some [])
          (fun _ => Some with_title).

(** Year 2022 shows no card at all; the other years one article on page 1. *)
Definition empty_2022 : World :=
  steady (fun _ y p =>
             if (y =? 2022)%Z then Some []
             else if (p =? 1)%nat then Some [oa_card "2021-01-05" "/articles/d4" "Paper D"]
             else Some [])
          (fun _ => Some with_title).

(** A single listing page carrying [n] open-access cards. *)
Definition crowded (n : nat) : World :=
  steady (fun _ _ p => if (p =? 1)%nat then Some (repeat cardA n) else Some [])
          (fun _ => Some with_title).

(** The site and the disk of [W], with other answers from the folders and
    the browser. *)
Definition failing (W : World) (dirs : string -> bool) (starts : bool)
    (browser : string -> launch_result) (closes : string -> bool) : World :=
  MkWorld (listing W) (article_doc W) (writable W) (urljoin W) (now W)
          dirs starts (playwright_stops W) browser closes.

(** [broken_2023] with browsers that cannot be closed. *)
Definition unclosable : World :=
  failing broken_2023 (fun _ => true) true (fun _ => Ready) (fun _ => false).

(** [overlap] where the page of journal [k] cannot be opened once its
    browser is launched. *)
Definition no_page : World :=
  failing overlap (fun _ => true) true
          (fun slug => if String.eqb slug "k" then PageFails else Ready) (fun _ => true).

(** [overlap] where the folder of journal [k] cannot be created. *)
Definition no_folder : World :=
  failing overlap (fun path => negb (String.eqb path "out/k")) true
          (fun _ => Ready) (fun _ => true).

(** A card whose link has an unclosed bracket in its host. *)
Definition bad_link_card : card := oa_card "2023-04-02" "//[" "Paper X".

(** One page with three open-access cards; the link of the second does not
    resolve.  The other years and pages show nothing. *)
Definition bad_link : World :=
  steady (fun _ y p => if (y =? 2023)%Z && (p =? 1)%nat
                       then Some [cardA; bad_link_card; cardB] else Some [])
         (fun _ => Some with_title).

(** Cards dated with the separator U+001F first, and in full-width digits. *)
Definition separator_card : card := oa_card separator_date "/articles/s5" "Paper S".
Definition fullwidth_card : card := oa_card fullwidth_date "/articles/f6" "Paper F".

Definition cfg (yf yt : Z) (l : option Z) : Config :=
  MkConfig yf yt "out" l (Some ["j"]) None None.

Definition raising_total : Z -> Z -> string -> Z -> Z -> string -> cb_result :=
  fun _ _ _ _ _ _ => CbRaises.

Definition raising_progress : string -> string -> cb_result := fun _ _ => CbRaises.

End Sample.

(** ** Paths on POSIX: [os.path.basename] and [os.path.dirname] *)

Module PyPath.

Fixpoint has_slash (s : string) : bool :=
  match s with
  | EmptyString => false
  | String c r => Ascii.eqb c "/"%char || has_slash r
  end.

(** [p[i:]] for [i = p.rfind('/') + 1]: what follows the last slash. *)
Fixpoint basename (p : string) : string :=
  match p with
  | EmptyString => EmptyString
  | String c r =>
      if has_slash r then basename r
      else if Ascii.eqb c "/"%char then r else p
  end.

(** [p[:i]] for the same [i]: everything up to and including the last slash. *)
Fixpoint head (p : string) : string :=
  match p with
  | EmptyString => EmptyString
  | String c r =>
      if has_slash r then String c (head r)
      else if Ascii.eqb c "/"%char then "/" else EmptyString
  end.

Fixpoint all_slashes (s : string) : bool :=
  match s with
  | EmptyString => true
  | String c r => Ascii.eqb c "/"%char && all_slashes r
  end.

(** [s.rstrip('/')] *)
Fixpoint rstrip_slash (s : string) : string :=
  match s with
  | EmptyString => EmptyString
  | String c r =>
      match rstrip_slash r with
      | EmptyString => if Ascii.eqb c "/"%char then EmptyString else String c EmptyString
      | r' => String c r'
      end
  end.

(** [os.path.dirname(p)]: the head, without its trailing slashes unless it
    consists of slashes only. *)
Definition dirname (p : string) : string :=
  let h := head p in
  if nonempty h && negb (all_slashes h) then rstrip_slash h else h.

End PyPath.

(** ** The extraction summary

    The rows handed to [csv.writer] at the end of a run.  [size_text path]
    stands for the formatted size of the file at [path], which depends on the
    disk. *)

Definition csv_header : list string :=
  ["Number"; "Journal"; "Article Name"; "Publish Date"; "File Path"; "File Size (KB)"].

Definition csv_row (size_text : string -> string) (idx : nat)
    (entry : string * string * string) : list string :=
  let '(file_path, article_name, publish_date) := entry in
  let journal_name := PyPath.basename (PyPath.dirname file_path) in
  [pretty idx; journal_name; article_name; publish_date; file_path; size_text file_path].

(** [for idx, (...) in enumerate(article_metadata, 1): writer.writerow(...)] *)
Definition csv_rows (size_text : string -> string)
    (article_metadata : list (string * string * string)) : list (list string) :=
  csv_header :: imap (fun i entry => csv_row size_text (S i) entry) article_metadata.

(** ** The cookie banner: [handle_cookie_consent] *)

Module Cookie.

Definition quote : string := String "034"%char EmptyString.

Definition cookie_selectors : list string :=
  ["button:has-text(" +:+ quote +:+ "Accept" +:+ quote +:+ ")";
   "button:has-text(" +:+ quote +:+ "Accept all" +:+ quote +:+ ")";
   "button:has-text(" +:+ quote +:+ "I Accept" +:+ quote +:+ ")";
   "button:has-text(" +:+ quote +:+ "Agree" +:+ quote +:+ ")";
   "button[id*=" +:+ quote +:+ "accept" +:+ quote +:+ "]";
   "button[class*=" +:+ quote +:+ "accept" +:+ quote +:+ "]"].

(** What the page answers for one selector: [is_visible] raises; the button
    is not visible; it is visible and the click and the wait after it succeed;
    it is visible and the click or the wait raises. *)
Inductive button : Type := Faulty | Hidden | Clickable | ClickFails.

(** The loop over the selectors: the result, and the selectors probed. *)
Fixpoint try_selectors (page : string -> button) (selectors : list string)
    : bool * list string :=
  match selectors with
  | [] => (false, [])
  | selector :: rest =>
      match page selector with
      | Clickable => (true, [selector])
      | Faulty | Hidden | ClickFails =>
          let '(found, probed) := try_selectors page rest in
          (found, selector :: probed)
      end
  end.

Definition handle_cookie_consent (page : string -> button) : bool * list string :=
  try_selectors page cookie_selectors.

End Cookie.

(** ** The journal catalogue: [discover_journals_nature_async] *)

Module Discover.

(** The character class [[a-z0-9-]]. *)
Definition slug_char (c : ascii) : bool :=
  let n := nat_of_ascii c in
  ((97 <=? n)%nat && (n <=? 122)%nat) || ((48 <=? n)%nat && (n <=? 57)%nat)
  || (n =? 45)%nat.

(** The longest run of slug characters at the start of [s], and the rest. *)
Fixpoint span_slug (s : string) : string * string :=
  match s with
  | EmptyString => (EmptyString, EmptyString)
  | String c r =>
      if slug_char c
      then let '(w, t) := span_slug r in (String c w, t)
      else (EmptyString, s)
  end.

(** [$]: the end of the string, or just before a newline that ends it. *)
Definition at_end (s : string) : bool :=
  String.eqb s EmptyString || String.eqb s PyStr.nl.

(** [([a-z0-9-]+)/?$] matched at the start of [s].  The class excludes the
    slash and the newline, so the greedy run is the only candidate. *)
Definition match_here (s : string) : option string :=
  let '(w, t) := span_slug s in
  if negb (nonempty w) then None
  else match t with
       | String c r =>
           if Ascii.eqb c "/"%char then (if at_end r then Some w else None)
           else if at_end t then Some w else None
       | EmptyString => Some w
       end.

(** [re.search(r"/([a-z0-9-]+)/?$", href)] and its [group(1)]: the match
    that starts at the leftmost possible slash. *)
Fixpoint slug_search (href : string) : option string :=
  match href with
  | EmptyString => None
  | String c r =>
      if Ascii.eqb c "/"%char
      then match match_here r with
           | Some w => Some w
           | None => slug_search r
           end
      else slug_search r
  end.

(** One [a href=...] of the site index: its [href] and its stripped text. *)
Definition link_entry (link : string * string) : option (string * string) :=
  let '(href, name) := link in
  match slug_search href with
  | Some slug => if nonempty name then Some (slug, name) else None
  | None => None
  end.

(** The [results] built from the [journals-A] .. [journals-Z] sections, each
    given by its links in document order. *)
Definition parse_index (sections : list (list (string * string)))
    : list (string * string) :=
  omap link_entry (concat sections).

(** The cache file [journals_nature.json]: absent; present but such that
    opening or decoding it raises; or a JSON list of objects with string
    values, as this function writes it. *)
Inductive cache_state : Type :=
  | NoFile
  | Unreadable
  | Cached (entries : list (gmap string string)).

(** [[(j['slug'], j['name']) for j in cached_data]]: a missing key raises. *)
Definition decode_entry (j : gmap string string) : option (string * string) :=
  match j !! "slug", j !! "name" with
  | Some slug, Some name => Some (slug, name)
  | _, _ => None
  end.

Definition decode_cache (entries : list (gmap string string))
    : option (list (string * string)) :=
  mapM decode_entry entries.

(** [[{"slug": slug, "name": name} for slug, name in results]] *)
Definition encode_cache (results : list (string * string))
    : list (gmap string string) :=
  List.map (fun '(slug, name) => <["name" := name]> (<["slug" := slug]> ∅)) results.

(** What a call leaves behind: the value returned ([None] when the call
    raises), the cache file afterwards, and whether the site was contacted. *)
Record outcome : Type := Outcome {
  returned : option (list (string * string));
  cache_after : cache_state;
  fetched : bool
}.

(** [discover_journals_nature_async(force_refresh)].  [cache] is the cache
    file before the call.  [site_index] is what loading and parsing the site
    index gives: [None] when anything raises, otherwise the links of each
    journal section.  [write_fails] is [None] when the cache is written, and
    [Some c] when writing raises and leaves the file as [c]. *)
Definition discover_journals_nature_async (force_refresh : bool)
    (cache : cache_state) (site_index : option (list (list (string * string))))
    (write_fails : option cache_state) : outcome :=
  let from_cache :=
    if force_refresh then None
    else match cache with
         | Cached entries => decode_cache entries
         | NoFile | Unreadable => None
         end in
  match from_cache with
  | Some cached => Outcome (Some cached) cache false
  | None =>
      match site_index with
      | None => Outcome None cache true
      | Some sections =>
          let results := parse_index sections in
          let cache' :=
            match write_fails with
            | None => Cached (encode_cache results)
            | Some c => c
            end in
          Outcome (Some results) cache' true
      end
  end.

End Discover.

(** ** Notions for the further properties *)

(** What a run may do, given the journals and years it was asked for: page
    loads and browsers only for those journals and years, article requests
    only for accepted cards of a page it loaded, saves only under the folder
    of such a journal. *)
Definition in_scope (W : World) (cfg : Config) (e : event) : Prop :=
  let slugs := default [] (journal_slugs cfg) in
  match e with
  | EvListing slug y p =>
      In slug slugs /\ year_from cfg <= y <= year_to cfg /\ (1 <= p)%nat
  | EvExtract url =>
      exists slug y p arts art s,
        In slug slugs /\ year_from cfg <= y <= year_to cfg
        /\ listing W slug y p = Some arts /\ In art arts
        /\ accept cfg art = Some s /\ urljoin W (article_href s) = Some url
  | EvLaunch slug | EvClose slug | EvCloseFails slug | EvErrJournal slug =>
      In slug slugs
  | EvSave path _ =>
      exists slug title y,
        In slug slugs /\ year_from cfg <= y <= year_to cfg
        /\ path = PyStr.path_join (PyStr.path_join (out_folder cfg) slug)
                    (json_filename_of title y)
  | _ => True
  end.

(** The same for a row of [article_metadata]. *)
Definition entry_in_scope (cfg : Config) (entry : string * string * string) : Prop :=
  let '(path, title, date) := entry in
  exists slug y,
    In slug (default [] (journal_slugs cfg))
    /\ year_from cfg <= y <= year_to cfg
    /\ PyStr.int (PyStr.take_chars 4 date) = Some y
    /\ path = PyStr.path_join (PyStr.path_join (out_folder cfg) slug)
                (json_filename_of title y).

Definition run_in_scope (W : World) (cfg : Config) (st : RunState) : Prop :=
  Forall (in_scope W cfg) (log st) /\ Forall (entry_in_scope cfg) (article_metadata st).

(** The result lists are the columns of [article_metadata]. *)
Definition aligned (st : RunState) : Prop :=
  List.map (fun entry => fst (fst entry)) (article_metadata st) = saved_files st
  /\ List.map (fun entry => snd (fst entry)) (article_metadata st)
     = open_access_articles st.

(** Browsers launched and not yet closed, in a history. *)
Fixpoint open_browsers (evs : list event) : Z :=
  match evs with
  | [] => 0
  | EvLaunch _ :: earlier => open_browsers earlier + 1
  | EvClose _ :: earlier => open_browsers earlier - 1
  | _ :: earlier => open_browsers earlier
  end.

(** At every moment of a history, at most one browser is open. *)
Fixpoint one_browser_at_a_time (evs : list event) : Prop :=
  match evs with
  | [] => True
  | _ :: earlier => 0 <= open_browsers evs <= 1 /\ one_browser_at_a_time earlier
  end.

Definition is_summary (e : event) : bool :=
  match e with EvCsv | EvZip => true | _ => false end.

Fixpoint string_forall (f : ascii -> bool) (s : string) : bool :=
  match s with
  | EmptyString => true
  | String c r => f c && string_forall f r
  end.

(** * Properties *)

(** ** String helpers on sample inputs *)

Example int_year : PyStr.int (PyStr.take_chars 4 "2023-05-17") = Some 2023.
Proof. reflexivity. Qed.

Example int_underscore : PyStr.int (PyStr.take_chars 4 "1_23456") = Some 123.
Proof. reflexivity. Qed.

Example int_signed : PyStr.int " -42 " = Some (-42).
Proof. reflexivity. Qed.

Example int_empty : PyStr.int (PyStr.take_chars 4 EmptyString) = None.
Proof. reflexivity. Qed.

Example int_words : PyStr.int (PyStr.take_chars 4 "May 2023") = None.
Proof. reflexivity. Qed.

(** The separators 28..31 are white space to [str.strip], not to [int]. *)
Example int_separator :
  PyStr.int (PyStr.take_chars 4 Sample.separator_date) = None
  /\ PyStr.strip Sample.separator_date = "2023-05-17".
Proof. split; reflexivity. Qed.

(** The first four characters of a date in full-width digits are twelve
    bytes, and [int] reads them. *)
Example int_fullwidth :
  String.length (PyStr.take_chars 4 Sample.fullwidth_date) = 12%nat
  /\ PyStr.len (PyStr.take_chars 4 Sample.fullwidth_date) = 4%nat
  /\ PyStr.int (PyStr.take_chars 4 Sample.fullwidth_date) = Some 2023.
Proof. repeat split; reflexivity. Qed.

(** A no-break space (U+00A0) is skipped, a superscript two (U+00B2) is no
    digit, doubled and leading underscores are refused. *)
Example int_edge_cases :
  PyStr.int (" 12" +:+ Sample.of_bytes [194; 160]%nat) = Some 12
  /\ PyStr.int (Sample.of_bytes [194; 178]%nat) = None
  /\ PyStr.int "1__2" = None /\ PyStr.int "+_1" = None /\ PyStr.int "- 1" = None
  /\ PyStr.int "0_1" = Some 1.
Proof. repeat split; reflexivity. Qed.

Example split_head_caption :
  PyStr.strip (PyStr.split_head "Full size image" "A cell. Full size image") = "A cell.".
Proof. reflexivity. Qed.

Example path_join_relative :
  PyStr.path_join "papers_nature" "ncomms" = "papers_nature/ncomms".
Proof. reflexivity. Qed.

Example path_join_absolute : PyStr.path_join "papers_nature" "/tmp" = "/tmp".
Proof. reflexivity. Qed.

Example json_filename_sample :
  json_filename_of "What is a cell? A/B test: 1" 2023 = "What is a cell_ A_B test_ 1_2023.json".
Proof. reflexivity. Qed.

Example year_range_sample : year_range 2020 2023 = [2023; 2022; 2021; 2020].
Proof. reflexivity. Qed.

Example year_range_empty : year_range 2024 2023 = [].
Proof. reflexivity. Qed.

(** ** The extractor *)

Example assemble_rich_keys :
  dom (assemble "u" "t0" Sample.rich)
  = ({[ "url"; "extracted_at"; "title"; "authors"; "publication_date"; "doi";
        "Abstract"; "Intro"; "Figures"; "References" ]} : gset string).
Proof. vm_compute. reflexivity. Qed.

Example assemble_rich_authors :
  assemble "u" "t0" Sample.rich !! "authors" = Some (JStr "A B, C").
Proof. vm_compute. reflexivity. Qed.

Example assemble_rich_figures :
  assemble "u" "t0" Sample.rich !! "Figures"
  = Some (JStr ("1. Fig. 1" +:+ PyStr.nl +:+ "Desc" +:+ PyStr.nl +:+ PyStr.nl +:+ "3. F3")).
Proof. vm_compute. reflexivity. Qed.

Example assemble_rich_intro :
  assemble "u" "t0" Sample.rich !! "Intro"
  = Some (JStr (PyStr.nl +:+ "## Head" +:+ PyStr.nl +:+ PyStr.nl +:+ PyStr.nl +:+ "text")).
Proof. vm_compute. reflexivity. Qed.

Example extract_blank :
  extract_fulltext_nature_as_json (Some Sample.blank) "u" "t0" = None.
Proof. vm_compute. reflexivity. Qed.

Example extract_only_url_section :
  extract_fulltext_nature_as_json (Some Sample.only_url_section) "u" "t0" = None.
Proof. vm_compute. reflexivity. Qed.

Example extract_navigation_error :
  extract_fulltext_nature_as_json None "u" "t0" = None.
Proof. reflexivity. Qed.

Lemma bookkeeping_size : size ({[ "url"; "extracted_at" ]} : gset string) = 2%nat.
Proof. vm_compute. reflexivity. Qed.

(** Every step of the extractor only adds or overwrites entries. *)

Section Extractor.

Implicit Types (d : gmap string jval) (sp : soup).

Lemma grows_insert k v : grows (fun d => <[k := v]> d).
Proof. intros d. rewrite dom_insert_L. set_solver. Qed.

Lemma extract_title_grows sp : grows (extract_title sp).
Proof. intros d. unfold extract_title. destruct (title_elem sp); [apply grows_insert | done]. Qed.

Lemma extract_authors_grows sp : grows (extract_authors sp).
Proof.
  intros d. unfold extract_authors. destruct (authors_list sp) as [items|]; [|done].
  destruct (List.filter _ items); [done | apply grows_insert].
Qed.

Lemma extract_date_grows sp : grows (extract_date sp).
Proof.
  intros d. unfold extract_date, set_if.
  destruct (date_meta sp) as [[dt|]|]; try done.
  destruct (nonempty dt); [apply grows_insert | done].
Qed.

Lemma extract_doi_grows sp : grows (extract_doi sp).
Proof. intros d. unfold extract_doi. destruct (doi_meta sp); [apply grows_insert | done]. Qed.

Lemma extract_abstract_grows sp : grows (extract_abstract sp).
Proof.
  intros d. unfold extract_abstract. destruct (abstract_section sp) as [[ps|]|]; try done.
  destruct (List.filter _ ps); [done | apply grows_insert].
Qed.

Lemma extract_section_grows s : grows (extract_section s).
Proof.
  intros d. unfold extract_section.
  destruct (_ || _); [done|]. destruct (section_div s) as [elems|]; [|done].
  destruct (omap _ elems); [done | apply grows_insert].
Qed.

Lemma extract_sections_grows sp : grows (extract_sections sp).
Proof.
  intros d. unfold extract_sections. revert d.
  induction (main_sections sp) as [|s ss IH]; intros d; simpl; [done|].
  etrans; [apply (extract_section_grows s) | apply IH].
Qed.

Lemma extract_figures_grows sp : grows (extract_figures sp).
Proof.
  intros d. unfold extract_figures.
  destruct (enumerate_omap _ _ _); [done | apply grows_insert].
Qed.

Lemma extract_references_grows sp : grows (extract_references sp).
Proof.
  intros d. unfold extract_references. destruct (references_section sp) as [items|]; [|done].
  destruct (enumerate_omap _ _ _); [done | apply grows_insert].
Qed.

Lemma assemble_bookkeeping url now sp :
  {[ "url"; "extracted_at" ]} ⊆ dom (assemble url now sp).
Proof.
  unfold assemble.
  etrans; [| apply extract_references_grows].
  etrans; [| apply extract_figures_grows].
  etrans; [| apply extract_sections_grows].
  etrans; [| apply extract_abstract_grows].
  etrans; [| apply extract_doi_grows].
  etrans; [| apply extract_date_grows].
  etrans; [| apply extract_authors_grows].
  etrans; [| apply extract_title_grows].
  rewrite !dom_insert_L. set_solver.
Qed.

End Extractor.

(** C6. [extract_fulltext_nature_as_json] fails rather than returning an empty
    success: when the assembled mapping has no key besides [url] and
    [extracted_at] the result is [None], and every record it does return
    holds both bookkeeping keys and at least one further key. *)
Theorem extract_needs_content (doc : option soup) (url now : string) :
  (forall sp, doc = Some sp ->
     dom (assemble url now sp) ⊆ ({[ "url"; "extracted_at" ]} : gset string) ->
     extract_fulltext_nature_as_json doc url now = None)
  /\
  (forall j, extract_fulltext_nature_as_json doc url now = Some j ->
     is_Some (j !! "url") /\ is_Some (j !! "extracted_at") /\
     exists k, k <> "url" /\ k <> "extracted_at" /\ is_Some (j !! k)).
Proof.
  split.
  - intros sp -> Hsub. unfold extract_fulltext_nature_as_json.
    apply subseteq_size in Hsub. rewrite bookkeeping_size, size_dom in Hsub.
    destruct (Nat.ltb_spec 2 (size (assemble url now sp))); [lia | done].
  - intros j Hj. unfold extract_fulltext_nature_as_json in Hj.
    destruct doc as [sp|]; [|done].
    destruct (Nat.ltb_spec 2 (size (assemble url now sp))) as [Hlt|]; [|done].
    injection Hj as <-.
    pose proof (assemble_bookkeeping url now sp) as Hbk.
    split; [apply elem_of_dom; set_solver|].
    split; [apply elem_of_dom; set_solver|].
    destruct (decide (dom (assemble url now sp) ∖ {[ "url"; "extracted_at" ]} = ∅))
      as [Hemp|Hne].
    + assert (Hsub : dom (assemble url now sp) ⊆ ({[ "url"; "extracted_at" ]} : gset string)).
      { intros k Hk. destruct (decide (k ∈ ({[ "url"; "extracted_at" ]} : gset string)));
          [done | set_solver]. }
      apply subseteq_size in Hsub. rewrite bookkeeping_size, size_dom in Hsub. lia.
    + apply set_choose_L in Hne as [k Hk].
      apply elem_of_difference in Hk as [Hin Hout].
      exists k. split; [intros ->; apply Hout; set_solver|].
      split; [intros ->; apply Hout; set_solver|].
      by apply elem_of_dom.
Qed.

Lemma extract_needs_content_sample :
  extract_fulltext_nature_as_json (Some Sample.only_url_section) "u" "t0" = None
  /\ exists k, k <> "url" /\ k <> "extracted_at"
       /\ is_Some (assemble "u" "t0" Sample.with_title !! k).
Proof.
  split.
  - apply (proj1 (extract_needs_content (Some Sample.only_url_section) "u" "t0")
             Sample.only_url_section eq_refl).
    replace (dom (assemble "u" "t0" Sample.only_url_section))
      with ({[ "url"; "extracted_at" ]} : gset string) by (vm_compute; reflexivity).
    reflexivity.
  - apply (proj2 (extract_needs_content (Some Sample.with_title) "u" "t0")
             (assemble "u" "t0" Sample.with_title)).
    vm_compute. reflexivity.
Defined.

(** ** Basic facts about the crawl loop *)

Section CrawlFacts.

Variable W : World.
Variable cfg : Config.

Implicit Types (st : RunState) (e : event) (evs : list event).

Lemma emit_emits e st : emit e st = emits [e] st.
Proof. reflexivity. Qed.

Lemma emits_app evs1 evs2 st : emits (evs1 ++ evs2) st = emits evs1 (emits evs2 st).
Proof. unfold emits. simpl. by rewrite app_assoc. Qed.

Lemma emits_nil st : emits [] st = st.
Proof. by destruct st. Qed.

Lemma persist_count_app evs1 evs2 :
  persist_count (evs1 ++ evs2) = (persist_count evs1 + persist_count evs2)%nat.
Proof. unfold persist_count. by rewrite List.filter_app, length_app. Qed.

Lemma persist_count_rev evs : persist_count (rev evs) = persist_count evs.
Proof.
  induction evs as [|e evs IH]; [done|]. simpl rev.
  rewrite persist_count_app, IH. change (e :: evs) with ([e] ++ evs)%list.
  rewrite persist_count_app. lia.
Qed.

(** The per-file callback adds at most two notices and changes no result. *)
Lemma notify_shape fn path t st :
  exists evs, notify cfg fn path t st = emits evs st
              /\ Forall (fun e => is_notice e = true) evs.
Proof.
  unfold notify. destruct (progress_callback cfg) as [cb|].
  - destruct (cb fn path).
    + exists [EvProgress fn path]. split; [done | by repeat constructor].
    + exists [EvErrArticle t; EvProgress fn path]. split; [done | by repeat constructor].
  - exists []. split; [by rewrite emits_nil | constructor].
Qed.

Lemma notice_not_fetch evs :
  Forall (fun e => is_notice e = true) evs ->
  Forall (fun e => is_fetch e = false) evs /\ persist_count evs = 0%nat.
Proof.
  induction 1 as [|e evs He _ [IH1 IH2]]; [by split|].
  destruct e; try discriminate He; split; by try constructor.
Qed.

(** An iteration that raises has done nothing; none runs out of fuel. *)
Lemma article_step_flow slug st art :
  fst (article_step W cfg slug st art) = Normal
  \/ article_step W cfg slug st art = (Raised, st).
Proof.
  unfold article_step. destruct (accept cfg art) as [s|]; [|by left].
  destruct (urljoin W (article_href s)); [by left | by right].
Qed.

Lemma article_step_raised slug st art st' :
  article_step W cfg slug st art = (Raised, st') -> st' = st.
Proof.
  intros H. destruct (article_step_flow slug st art) as [Hn | Hr].
  - rewrite H in Hn. discriminate Hn.
  - congruence.
Qed.

(** One iteration of the article loop either does nothing, or requests the
    article page once and then adds events that are not requests; the results
    change only by one [record_saved], together with one successful save. *)
Lemma article_step_shape slug st art :
  snd (article_step W cfg slug st art) = st
  \/ exists url evs,
       Forall (fun e => is_fetch e = false) evs
       /\ ((persist_count evs = 0%nat
            /\ snd (article_step W cfg slug st art) = emits (evs ++ [EvExtract url]) st)
           \/ (persist_count evs = 1%nat
               /\ exists p t d, snd (article_step W cfg slug st art)
                    = emits (evs ++ [EvExtract url]) (record_saved p t d st))).
Proof.
  unfold article_step. destruct (accept cfg art) as [s|]; [|by left].
  destruct (urljoin W (article_href s)) as [url|]; [|by left].
  right. unfold process_stub. exists url. cbn [snd].
  destruct (extract_fulltext_nature_as_json _ _ _) as [j|].
  - unfold save_json_to_file. destruct (writable W _).
    + edestruct (notify_shape (json_filename_of (title_of st art) (article_year s))) as [evs [-> Hev]].
      apply notice_not_fetch in Hev as [Hf Hc].
      exists (EvSleep :: evs ++ [EvSave
        (PyStr.path_join (PyStr.path_join (out_folder cfg) slug)
           (json_filename_of (title_of st art) (article_year s))) true]).
      split.
      { constructor; [done|]. apply Forall_app. split; [done | by repeat constructor]. }
      right. split.
      { change (EvSleep :: ?l) with ([EvSleep] ++ l)%list.
        rewrite !persist_count_app, Hc. reflexivity. }
      eexists _, _, _. unfold emit, emits, record_saved. simpl.
      by rewrite <- !app_assoc.
    + exists [EvSleep; EvErrSave (title_of st art);
              EvSave (PyStr.path_join (PyStr.path_join (out_folder cfg) slug)
                        (json_filename_of (title_of st art) (article_year s))) false].
      split; [by repeat constructor|]. left. by split.
  - exists [EvWarnExtract url].
    split; [by repeat constructor|]. left. by split.
Qed.

(** The history only grows during an iteration, and never by a page load
    or an action from outside the article loop. *)
Lemma article_step_log slug st art :
  exists evs, log (snd (article_step W cfg slug st art)) = (evs ++ log st)%list
              /\ Forall (fun e => is_listing e = false /\ quiet e = false) evs.
Proof.
  unfold article_step. destruct (accept cfg art) as [s|].
  2:{ exists []. split; [done | constructor]. }
  destruct (urljoin W (article_href s)) as [url|].
  2:{ exists []. split; [done | constructor]. }
  unfold process_stub. cbn [snd].
  destruct (extract_fulltext_nature_as_json _ _ _) as [j|].
  2:{ eexists [_; _]. split; [reflexivity | by repeat constructor]. }
  unfold save_json_to_file. destruct (writable W _).
  2:{ eexists [_; _; _; _]. split; [reflexivity | by repeat constructor]. }
  edestruct notify_shape as [evs [-> Hev]].
  eexists (EvSleep :: evs ++ [_; _]). split; [simpl; by rewrite <- app_assoc|].
  constructor; [done|]. apply Forall_app. split; [|by repeat constructor].
  eapply Forall_impl; [exact Hev|]. intros e He. by destruct e.
Qed.

Lemma saved_files_finish st : saved_files (finish st) = saved_files st.
Proof. unfold finish. by destruct st as [[|f fs] o m c l]. Qed.

Lemma articles_loop_at_limit slug st arts :
  at_limit cfg st = true -> articles_loop W cfg slug st arts = (Normal, st).
Proof. intros H. destruct arts; simpl; [done | by rewrite H]. Qed.

(** Processing a page is processing a first part of it, then the rest unless
    the first part raised. *)
Lemma articles_loop_app slug arts1 arts2 st :
  articles_loop W cfg slug st (arts1 ++ arts2)
  = match articles_loop W cfg slug st arts1 with
    | (Normal, st') => articles_loop W cfg slug st' arts2
    | other => other
    end.
Proof.
  revert st. induction arts1 as [|a arts1 IH]; intros st; simpl; [done|].
  destruct (at_limit cfg st) eqn:E; [by rewrite articles_loop_at_limit|].
  destruct (article_step W cfg slug st a) as [[] st1]; [apply IH | done | done].
Qed.

(** The article loop never runs out of fuel. *)
Lemma articles_loop_flow slug arts st :
  fst (articles_loop W cfg slug st arts) <> OutOfFuel.
Proof.
  revert st. induction arts as [|a arts IH]; intros st; simpl; [done|].
  destruct (at_limit cfg st); [done|].
  destruct (article_step_flow slug st a) as [Hn | ->]; [|done].
  destruct (article_step W cfg slug st a) as [f st1]. simpl in Hn. subst f. apply IH.
Qed.

End CrawlFacts.

(** ** Invariants of a run

    A run alternates between two phases: between journals, and inside the
    year and page loops of one journal.  A pair of properties ([Between],
    [Inside]) that each kind of action carries over is kept by the whole run,
    and a run that raises ends in [Stopped].  [Q slug year p] records what is
    known when page [p] of a (journal, year) is about to be loaded. *)

Section Invariant.

Variable W : World.
Variable cfg : Config.
Variables Inside Between Stopped : RunState -> Prop.
Variable Q : string -> Z -> nat -> Prop.

Hypothesis Q_first : forall slug y, Q slug y 1%nat.
Hypothesis Q_next : forall slug y p art arts,
  Q slug y p -> listing W slug y p = Some (art :: arts) -> Q slug y (S p).
Hypothesis B_total : Between init_state -> Between (emit EvTotalProgress init_state).
Hypothesis B_launch : forall slug st, Between st -> Inside (emit (EvLaunch slug) st).
Hypothesis B_finish : forall st, Between st -> Between (emit EvZip (emit EvCsv st)).
Hypothesis I_article : forall slug st art,
  Inside st -> at_limit cfg st = false -> Inside (snd (article_step W cfg slug st art)).
Hypothesis I_listing : forall slug y p arts st,
  Inside st -> at_limit cfg st = false -> Q slug y p ->
  listing W slug y p = Some arts -> Inside (emit (EvListing slug y p) st).
Hypothesis I_close : forall slug st, Inside st -> Between (emit (EvClose slug) st).
Hypothesis I_abort : forall slug y p st,
  Inside st -> at_limit cfg st = false -> Q slug y p -> listing W slug y p = None ->
  Between (emit (EvClose slug) (emit (EvErrJournal slug) (emit (EvListing slug y p) st))).
Hypothesis I_raise : forall slug st art,
  Inside st -> at_limit cfg st = false ->
  article_step W cfg slug st art = (Raised, st) ->
  Between (emit (EvClose slug) (emit (EvErrJournal slug) st)).
Hypothesis S_idle : forall st, Between st -> Stopped st.
Hypothesis S_page : forall slug st, Between st -> Stopped (emit (EvLaunch slug) st).
Hypothesis S_close : forall slug st, Inside st -> Stopped (emit (EvCloseFails slug) st).
Hypothesis S_abort : forall slug y p st,
  Inside st -> at_limit cfg st = false -> Q slug y p -> listing W slug y p = None ->
  Stopped (emit (EvCloseFails slug)
             (emit (EvErrJournal slug) (emit (EvListing slug y p) st))).
Hypothesis S_raise : forall slug st art,
  Inside st -> at_limit cfg st = false ->
  article_step W cfg slug st art = (Raised, st) ->
  Stopped (emit (EvCloseFails slug) (emit (EvErrJournal slug) st)).

Lemma articles_loop_inv slug arts st :
  Inside st ->
  match articles_loop W cfg slug st arts with
  | (Raised, st') => breaks W cfg Inside Q slug st'
  | (_, st') => Inside st'
  end.
Proof.
  revert st. induction arts as [|a arts IH]; intros st HI; simpl; [done|].
  destruct (at_limit cfg st) eqn:E; [done|].
  pose proof (I_article slug st a HI E) as H1.
  destruct (article_step_flow W cfg slug st a) as [Hn | Hr].
  - destruct (article_step W cfg slug st a) as [f st1]. simpl in Hn, H1. subst f.
    by apply IH.
  - rewrite Hr. right. split; [done|]. split; [done|]. by exists a.
Qed.

Lemma pages_loop_inv fuel slug y st p :
  Inside st -> Q slug y p ->
  match pages_loop W cfg fuel slug y st p with
  | (Raised, st') => breaks W cfg Inside Q slug st'
  | (_, st') => Inside st'
  end.
Proof.
  revert st p. induction fuel as [|fuel IH]; intros st p HI HQ; simpl; [done|].
  destruct (at_limit cfg st) eqn:E; [done|].
  destruct (listing W slug y p) as [[|a arts]|] eqn:L.
  - by eapply I_listing.
  - assert (Inside (emit (EvListing slug y p) st)) as H1 by (by eapply I_listing).
    pose proof (articles_loop_inv slug (a :: arts) _ H1) as H2.
    destruct (articles_loop W cfg slug _ (a :: arts)) as [[] st2]; [|done|done].
    destruct (at_limit cfg st2); [done|]. apply IH; [done | by eapply Q_next].
  - left. by exists st, y, p.
Qed.

Lemma years_loop_inv fuel slug years st :
  Inside st ->
  match years_loop W cfg fuel slug st years with
  | (Raised, st') => breaks W cfg Inside Q slug st'
  | (_, st') => Inside st'
  end.
Proof.
  revert st. induction years as [|y years IH]; intros st HI; simpl; [done|].
  destruct (at_limit cfg st) eqn:E; [done|].
  pose proof (pages_loop_inv fuel slug y st 1 HI (Q_first slug y)) as Hp.
  destruct (pages_loop W cfg fuel slug y st 1) as [[] st']; [by apply IH | done | done].
Qed.

Lemma crawl_journal_inv fuel st slug :
  Between st ->
  match crawl_journal W cfg fuel st slug with
  | (Normal, st') => Between st'
  | (OutOfFuel, st') => Inside st'
  | (Raised, st') => Stopped st'
  end.
Proof.
  intros HB. unfold crawl_journal.
  destruct (makedirs_ok W _); cbn [negb]; [|by apply S_idle].
  destruct (launch W slug); [by apply S_idle | by apply S_page |].
  pose proof (years_loop_inv fuel slug (year_range (year_from cfg) (year_to cfg))
                (emit (EvLaunch slug) st) (B_launch slug st HB)) as Hy.
  unfold close_browser.
  destruct (years_loop _ _ _ _ _ _) as [[] st']; simpl; try done.
  - destruct (close_ok W slug); [by apply I_close | by apply S_close].
  - destruct Hy as [(st0 & y0 & p0 & H0 & Hl & HQ & Hnone & ->) | (H0 & Hl & art & Hr)];
      destruct (close_ok W slug).
    + by apply I_abort.
    + by apply S_abort.
    + by eapply I_raise.
    + by eapply S_raise.
Qed.

Lemma journals_loop_inv fuel slugs st :
  Between st ->
  match journals_loop W cfg fuel st slugs with
  | (Normal, st') => Between st'
  | (OutOfFuel, st') => Inside st'
  | (Raised, st') => Stopped st'
  end.
Proof.
  revert st. induction slugs as [|slug slugs IH]; intros st HB; simpl; [done|].
  pose proof (crawl_journal_inv fuel st slug HB) as Hj.
  destruct (crawl_journal W cfg fuel st slug) as [[] st']; try done.
  by apply IH.
Qed.

Lemma with_playwright_inv fuel slugs st :
  Between st ->
  match with_playwright W cfg fuel st slugs with
  | (Normal, st') => Between st'
  | (OutOfFuel, st') => Inside st'
  | (Raised, st') => Stopped st'
  end.
Proof.
  intros HB. unfold with_playwright.
  destruct (playwright_ok W); cbn [negb]; [|by apply S_idle].
  pose proof (journals_loop_inv fuel slugs st HB) as Hj.
  destruct (journals_loop W cfg fuel st slugs) as [[] st']; try done.
  destruct (playwright_stops W); [done | by apply S_idle].
Qed.

Lemma finish_inv st : Between st -> Between (finish st).
Proof.
  intros HB. unfold finish. destruct (saved_files st); [done|]. by apply B_finish.
Qed.

(** A run that returns ends between journals, one cut short by the fuel
    inside a journal, one that raises in [Stopped]. *)
Lemma crawl_inv fuel :
  Between init_state ->
  match crawl_text_nature_async W cfg fuel with
  | (Normal, st') => Between st'
  | (OutOfFuel, st') => Inside st'
  | (Raised, st') => Stopped st'
  end.
Proof.
  intros HB. unfold crawl_text_nature_async.
  destruct (makedirs_ok W (out_folder cfg)); cbn [negb]; [|by apply S_idle].
  destruct (journal_slugs cfg) as [[|slug slugs]|]; try by apply finish_inv.
  assert (Hloop : forall st, Between st ->
            match (match with_playwright W cfg fuel st (slug :: slugs) with
                   | (Normal, st') => (Normal, finish st')
                   | other => other
                   end) with
            | (Normal, st') => Between st'
            | (OutOfFuel, st') => Inside st'
            | (Raised, st') => Stopped st'
            end).
  { intros st Hst. pose proof (with_playwright_inv fuel (slug :: slugs) st Hst) as Hj.
    destruct (with_playwright W cfg fuel st (slug :: slugs)) as [[] st']; try done.
    by apply finish_inv. }
  destruct (total_progress_callback cfg) as [cb|]; [|by apply Hloop].
  destruct (scan_call cb); [by apply Hloop, B_total | by apply S_idle, B_total].
Qed.

End Invariant.

(** A property kept by every action holds at the end of every run. *)
Lemma crawl_inv_plain (W : World) (cfg : Config) (I : RunState -> Prop)
    (Q : string -> Z -> nat -> Prop) :
  (forall slug y, Q slug y 1%nat) ->
  (forall slug y p art arts,
     Q slug y p -> listing W slug y p = Some (art :: arts) -> Q slug y (S p)) ->
  (forall e st, quiet e = true -> I st -> I (emit e st)) ->
  (forall slug st art,
     I st -> at_limit cfg st = false -> I (snd (article_step W cfg slug st art))) ->
  (forall slug y p st,
     I st -> at_limit cfg st = false -> Q slug y p -> I (emit (EvListing slug y p) st)) ->
  (forall slug st, I st -> I (emit (EvErrJournal slug) st)) ->
  forall fuel, I init_state -> I (snd (crawl_text_nature_async W cfg fuel)).
Proof.
  intros Q1 Qn Hq Ha Hl He fuel H0.
  pose proof (crawl_inv W cfg I I I Q Q1 Qn) as H.
  specialize (H (Hq EvTotalProgress init_state eq_refl)
                (fun slug st => Hq (EvLaunch slug) st eq_refl)
                (fun st Hst => Hq EvZip _ eq_refl (Hq EvCsv st eq_refl Hst))
                Ha
                (fun slug y p arts st Hst Hlim HQ _ => Hl slug y p st Hst Hlim HQ)
                (fun slug st => Hq (EvClose slug) st eq_refl)
                (fun slug y p st Hst Hlim HQ _ =>
                   Hq (EvClose slug) _ eq_refl (He slug _ (Hl slug y p st Hst Hlim HQ)))
                (fun slug st art Hst _ _ => Hq (EvClose slug) _ eq_refl (He slug st Hst))
                (fun st Hst => Hst)
                (fun slug st => Hq (EvLaunch slug) st eq_refl)
                (fun slug st => Hq (EvCloseFails slug) st eq_refl)
                (fun slug y p st Hst Hlim HQ _ =>
                   Hq (EvCloseFails slug) _ eq_refl (He slug _ (Hl slug y p st Hst Hlim HQ)))
                (fun slug st art Hst _ _ =>
                   Hq (EvCloseFails slug) _ eq_refl (He slug st Hst))
                fuel H0).
  by destruct (crawl_text_nature_async W cfg fuel) as [[] st'].
Qed.

(** With the folders and browsers in order and a coarse callback that
    returns, nothing that happens to the pages makes the run raise. *)
Lemma crawl_journal_returns (W : World) (cfg : Config) (fuel : nat)
    (st : RunState) (slug : string) :
  makedirs_ok W (PyStr.path_join (out_folder cfg) slug) = true ->
  launch W slug = Ready -> close_ok W slug = true ->
  fst (crawl_journal W cfg fuel st slug) <> Raised.
Proof.
  intros Hm Hl Hc. unfold crawl_journal, close_browser. rewrite Hm, Hl, Hc. cbn [negb].
  by destruct (years_loop _ _ _ _ _ _) as [[] st'].
Qed.

Lemma journals_loop_returns (W : World) (cfg : Config) (fuel : nat)
    (slugs : list string) (st : RunState) :
  (forall slug, In slug slugs ->
     makedirs_ok W (PyStr.path_join (out_folder cfg) slug) = true
     /\ launch W slug = Ready /\ close_ok W slug = true) ->
  fst (journals_loop W cfg fuel st slugs) <> Raised.
Proof.
  revert st. induction slugs as [|slug slugs IH]; intros st Hok; simpl; [done|].
  destruct (Hok slug (or_introl eq_refl)) as (Hm & Hl & Hc).
  pose proof (crawl_journal_returns W cfg fuel st slug Hm Hl Hc) as Hj.
  destruct (crawl_journal W cfg fuel st slug) as [[] st']; try done.
  apply IH. intros s Hs. apply Hok. by right.
Qed.

Lemma crawl_returns (W : World) (cfg : Config) (fuel : nat) :
  (forall cb, total_progress_callback cfg = Some cb -> scan_call cb = CbReturns) ->
  makedirs_ok W (out_folder cfg) = true ->
  playwright_ok W = true -> playwright_stops W = true ->
  (forall slug, In slug (default [] (journal_slugs cfg)) ->
     makedirs_ok W (PyStr.path_join (out_folder cfg) slug) = true
     /\ launch W slug = Ready /\ close_ok W slug = true) ->
  fst (crawl_text_nature_async W cfg fuel) <> Raised.
Proof.
  intros Hcb Hm Hp Hs Hok. unfold crawl_text_nature_async, with_playwright.
  rewrite Hm, Hp, Hs. cbn [negb].
  destruct (journal_slugs cfg) as [[|slug slugs]|]; try done.
  assert (Hloop : forall st,
            fst (match (match journals_loop W cfg fuel st (slug :: slugs) with
                        | (Normal, st') => (Normal, st')
                        | other => other
                        end) with
                 | (Normal, st') => (Normal, finish st')
                 | other => other
                 end) <> Raised).
  { intros st. pose proof (journals_loop_returns W cfg fuel (slug :: slugs) st Hok) as Hj.
    by destruct (journals_loop W cfg fuel st (slug :: slugs)) as [[] st']. }
  destruct (total_progress_callback cfg) as [cb|]; [|by apply Hloop].
  rewrite (Hcb cb eq_refl). apply Hloop.
Qed.

(** ** The limit *)

Section Limit.

Variable W : World.
Variable cfg : Config.
Variable k : Z.
Hypothesis limit_k : limit cfg = Some k.
Hypothesis k_pos : 1 <= k.

Lemma below_limit st : at_limit cfg st = false -> found_count st < k.
Proof.
  unfold at_limit, limit_reached. rewrite limit_k.
  destruct (Z.eqb_spec k 0); [lia|]. simpl. destruct (Z.leb_spec k (found_count st)); [done | lia].
Qed.

Lemma guarded_app_quiet evs earlier :
  Forall (fun e => is_fetch e = false) evs -> guarded k earlier -> guarded k (evs ++ earlier).
Proof.
  induction 1 as [|e evs He _ IH]; intros Hg; simpl; [done|].
  split; [by rewrite He | by apply IH].
Qed.

Lemma guarded_split evs l1 e l2 :
  guarded k evs -> evs = (l1 ++ e :: l2)%list -> is_fetch e = true ->
  Z.of_nat (persist_count l2) < k.
Proof.
  revert evs. induction l1 as [|a l1 IH]; intros evs Hg -> He; simpl in Hg.
  - by apply Hg.
  - eapply IH; [apply Hg | done | done].
Qed.

Lemma within_limit_fetch e st :
  within_limit k st -> at_limit cfg st = false -> is_fetch e = true ->
  within_limit k (emit e st).
Proof.
  intros (Hc & Hl & Hk & Hg) Hlim He. apply below_limit in Hlim.
  assert (persist_count (e :: log st) = persist_count (log st)) as Hpc
    by (by destruct e).
  unfold within_limit. simpl. rewrite Hpc.
  repeat split; try done. intros _. lia.
Qed.

Lemma within_limit_quiet evs st :
  within_limit k st -> Forall (fun e => is_fetch e = false) evs ->
  persist_count evs = 0%nat -> within_limit k (emits evs st).
Proof.
  intros (Hc & Hl & Hk & Hg) Hev Hz.
  unfold within_limit. simpl. rewrite persist_count_app, Hz.
  repeat split; try done. by apply guarded_app_quiet.
Qed.

Lemma within_limit_emit e st :
  within_limit k st -> is_fetch e = false -> persist_count [e] = 0%nat ->
  within_limit k (emit e st).
Proof.
  intros H He Hz. rewrite emit_emits. apply within_limit_quiet; [done | by constructor | done].
Qed.

Lemma within_limit_saved url evs p t d st :
  within_limit k st -> at_limit cfg st = false ->
  Forall (fun e => is_fetch e = false) evs -> persist_count evs = 1%nat ->
  within_limit k (emits (evs ++ [EvExtract url]) (record_saved p t d st)).
Proof.
  intros (Hc & Hl & Hk & Hg) Hlim Hev Hone. apply below_limit in Hlim.
  unfold within_limit. simpl.
  rewrite !persist_count_app, Hone, length_app. simpl.
  change (persist_count [EvExtract url]) with 0%nat.
  repeat split; try lia.
  rewrite <- app_assoc. apply guarded_app_quiet; [done|]. simpl. split; [lia | done].
Qed.

Lemma within_limit_article slug st art :
  within_limit k st -> at_limit cfg st = false ->
  within_limit k (snd (article_step W cfg slug st art)).
Proof.
  intros Hw Hlim.
  destruct (article_step_shape W cfg slug st art)
    as [-> | (url & evs & Hev & [[Hz ->] | [Hone (p & t & d & ->)]])]; [done | |].
  - rewrite emits_app. apply within_limit_quiet; [|done|done].
    by apply (within_limit_fetch (EvExtract url)).
  - by apply within_limit_saved.
Qed.

Lemma within_limit_run fuel :
  within_limit k (snd (crawl_text_nature_async W cfg fuel)).
Proof.
  apply (crawl_inv_plain W cfg (within_limit k) (fun _ _ _ => True)); try done.
  - intros e st He Hw. apply within_limit_emit; [done | by destruct e | by destruct e].
  - apply within_limit_article.
  - intros slug y p st Hw Hlim _. by apply within_limit_fetch.
  - intros slug st Hw. by apply within_limit_emit.
  - unfold within_limit. simpl. repeat split; try done. lia.
Qed.

End Limit.

Example limit_zero_sample :
  results (snd (crawl_text_nature_async Sample.overlap (Sample.cfg 2023 2023 (Some 0)) 5))
  = (["out/j/Paper A_2023.json"; "out/j/Paper A_2023.json"],
     ["Paper A"; "Paper A"],
     [("out/j/Paper A_2023.json", "Paper A", "2023-05-17");
      ("out/j/Paper A_2023.json", "Paper A", "2023-05-17")],
     2).
Proof. vm_compute. reflexivity. Qed.

Example limit_one_sample :
  trace (snd (crawl_text_nature_async Sample.second_fails
                (MkConfig 2022 2023 "out" (Some 1) (Some ["j"; "k"]) None None) 5))
  = [EvLaunch "j"; EvListing "j" 2023 1;
     EvExtract "https://www.nature.com/articles/a1";
     EvSave "out/j/Paper A_2023.json" true; EvSleep;
     EvClose "j"; EvLaunch "k"; EvClose "k"; EvCsv; EvZip].
Proof. vm_compute. reflexivity. Qed.

(** C2, as stated, fails for the limit 0: two records are saved. *)
Lemma limit_zero_is_exceeded :
  limit (Sample.cfg 2023 2023 (Some 0)) = Some 0
  /\ ~ (Z.of_nat (length (saved_files
          (snd (crawl_text_nature_async Sample.overlap
                  (Sample.cfg 2023 2023 (Some 0)) 5)))) <= 0).
Proof. split; [reflexivity|]. vm_compute. intros H. apply H. reflexivity. Qed.

(** C2 (amended). For every limit [k] of at least 1, a run never has more than
    [k] saved records, and every request to the origin, for a listing page of
    any journal and year or for an article, is made while fewer than [k]
    records have been saved: once the count reaches [k] no further coordinate
    is visited, in this year, in later years and in later journals. *)
Theorem limit_bounds_run (W : World) (cfg : Config) (fuel : nat) (k : Z) :
  limit cfg = Some k -> 1 <= k ->
  Z.of_nat (length (saved_files (snd (crawl_text_nature_async W cfg fuel)))) <= k
  /\ forall pre e post,
       trace (snd (crawl_text_nature_async W cfg fuel)) = (pre ++ e :: post)%list ->
       is_fetch e = true ->
       Z.of_nat (persist_count pre) < k.
Proof.
  intros Hk Hpos.
  destruct (within_limit_run W cfg k Hk Hpos fuel) as (Hc & Hl & Hle & Hg).
  split; [lia|].
  intros pre e post Htr He. unfold trace in Htr.
  apply (f_equal (@rev event)) in Htr. rewrite rev_involutive, rev_app_distr in Htr.
  simpl in Htr. rewrite <- app_assoc in Htr. simpl in Htr.
  rewrite <- (persist_count_rev pre).
  by eapply guarded_split.
Qed.

Lemma limit_bounds_run_sample :
  Z.of_nat (length (saved_files
    (snd (crawl_text_nature_async Sample.overlap (Sample.cfg 2023 2023 (Some 1)) 5)))) <= 1
  /\ forall pre e post,
       trace (snd (crawl_text_nature_async Sample.overlap (Sample.cfg 2023 2023 (Some 1)) 5))
       = (pre ++ e :: post)%list ->
       is_fetch e = true ->
       Z.of_nat (persist_count pre) < 1.
Proof.
  apply (limit_bounds_run Sample.overlap (Sample.cfg 2023 2023 (Some 1)) 5 1);
    [reflexivity | lia].
Defined.

(** ** A listing page that fails to load *)

Section ListingFailure.

Variable W : World.
Variable cfg : Config.

Implicit Types (e : event) (evs : list event) (st : RunState).

Lemma handled_nil : handled W [].
Proof. intros [|a l1] l2 s y p Heq; discriminate Heq. Qed.

(** A new action keeps a history handled unless it is itself a failed page
    load, it comes right after a closed browser without being a boundary, or
    it comes after a browser that could not be closed. *)
Lemma handled_cons e evs :
  handled W evs ->
  (forall s y p, e = EvListing s y p -> listing W s y p <> None) ->
  (boundary e = true \/ forall s l, evs <> EvClose s :: l) ->
  (forall s l, evs <> EvCloseFails s :: l) ->
  handled W (e :: evs).
Proof.
  intros Hh He Hb Hcf [|a l1] l2 s y p Heq Hnone; simpl in Heq.
  - injection Heq as -> _. by destruct (He s y p eq_refl).
  - injection Heq as <- ->.
    destruct (Hh l1 l2 s y p eq_refl Hnone) as [-> | (l0 & -> & Hl0)].
    { by destruct (Hcf s (EvErrJournal s :: EvListing s y p :: l2)). }
    right. exists (e :: l0). split; [done|]. right.
    destruct Hl0 as [-> | (l0' & b & -> & Hbd)].
    + destruct Hb as [Hb | Hb]; [by exists [], e|].
      by destruct (Hb s (EvErrJournal s :: EvListing s y p :: l2)).
    + by exists (e :: l0'), b.
Qed.

(** The journal's handler after a failed page load, with a closing that
    returns ([closing = EvClose s]) or raises ([closing = EvCloseFails s]). *)
Lemma handled_abort closing s y p evs :
  closing = EvClose s \/ closing = EvCloseFails s ->
  handled W evs -> (forall s' l, evs <> EvClose s' :: l) ->
  (forall s' l, evs <> EvCloseFails s' :: l) ->
  handled W (closing :: EvErrJournal s :: EvListing s y p :: evs).
Proof.
  intros Hc Hh Hhead Hcf l1 l2 s1 y1 p1 Heq Hnone.
  destruct l1 as [|a [|b [|c l1]]]; simpl in Heq.
  - destruct Hc as [-> | ->]; discriminate Heq.
  - discriminate Heq.
  - injection Heq as <- <- <- <- <- _.
    destruct Hc as [-> | ->]; [right | by left]. exists []. by split; [|left].
  - injection Heq as <- <- <- ->.
    destruct (Hh l1 l2 s1 y1 p1 eq_refl Hnone) as [-> | (l0 & -> & Hl0)].
    { by destruct (Hcf s1 (EvErrJournal s1 :: EvListing s1 y1 p1 :: l2)). }
    right. exists (closing :: EvErrJournal s :: EvListing s y p :: l0). split; [done|]. right.
    destruct Hl0 as [-> | (l0' & d & -> & Hbd)].
    + by destruct (Hhead s1 (EvErrJournal s1 :: EvListing s1 y1 p1 :: l2)).
    + by exists (closing :: EvErrJournal s :: EvListing s y p :: l0'), d.
Qed.

(** The journal's handler after a link that does not resolve. *)
Lemma handled_raise closing s evs :
  closing = EvClose s \/ closing = EvCloseFails s ->
  handled W evs -> (forall s' l, evs <> EvClose s' :: l) ->
  (forall s' l, evs <> EvCloseFails s' :: l) ->
  handled W (closing :: EvErrJournal s :: evs).
Proof.
  intros Hc Hh Hhead Hcf.
  apply handled_cons; [ | by destruct Hc as [-> | ->] | by right | done].
  apply handled_cons; [done | done | by right | done].
Qed.

(** Inside a journal the history is handled and its newest action is not a
    closing; actions that are neither page loads nor closings keep this. *)
Lemma inside_emits evs st :
  Forall (fun e => is_listing e = false /\ quiet e = false) evs ->
  handled W (log st) /\ (forall s l, log st <> EvClose s :: l)
  /\ (forall s l, log st <> EvCloseFails s :: l) ->
  handled W (log (emits evs st)) /\ (forall s l, log (emits evs st) <> EvClose s :: l)
  /\ (forall s l, log (emits evs st) <> EvCloseFails s :: l).
Proof.
  induction 1 as [|e evs [Hl Hq] _ IH]; intros Hst; simpl.
  - by destruct st.
  - destruct (IH Hst) as (Hh & Hhead & Hcf). simpl in Hh, Hhead, Hcf. repeat split.
    + apply handled_cons; [done | | by right | done]. intros s y p ->. discriminate Hl.
    + intros s l Heq. injection Heq as -> _. discriminate Hq.
    + intros s l Heq. injection Heq as -> _. discriminate Hq.
Qed.

Lemma inside_article slug st art :
  handled W (log st) /\ (forall s l, log st <> EvClose s :: l)
  /\ (forall s l, log st <> EvCloseFails s :: l) ->
  handled W (log (snd (article_step W cfg slug st art)))
  /\ (forall s l, log (snd (article_step W cfg slug st art)) <> EvClose s :: l)
  /\ (forall s l, log (snd (article_step W cfg slug st art)) <> EvCloseFails s :: l).
Proof.
  intros Hst. destruct (article_step_log W cfg slug st art) as (evs & Hlog & Hev).
  rewrite Hlog. by apply (inside_emits evs st).
Qed.

Lemma handled_run fuel :
  handled W (log (snd (crawl_text_nature_async W cfg fuel))).
Proof.
  pose proof (crawl_inv W cfg
    (fun st => handled W (log st) /\ (forall s l, log st <> EvClose s :: l)
               /\ (forall s l, log st <> EvCloseFails s :: l))
    (fun st => handled W (log st) /\ (forall s l, log st <> EvCloseFails s :: l))
    (fun st => handled W (log st))
    (fun _ _ _ => True)) as H.
  lapply H; [clear H; intros H | done].
  lapply H; [clear H; intros H | done].
  lapply H; [clear H; intros H |].
  2:{ intros _. split; [|done].
      apply handled_cons; [apply handled_nil | done | by right | done]. }
  lapply H; [clear H; intros H |].
  2:{ intros slug st [Hh Hcf]. repeat split; [|done|done].
      apply handled_cons; [done | done | by left | done]. }
  lapply H; [clear H; intros H |].
  2:{ intros st [Hh Hcf]. split; [|done]. apply handled_cons; [ | done | by right | done].
      apply handled_cons; [done | done | by left | done]. }
  lapply H; [clear H; intros H |].
  2:{ intros slug st art Hst _. by apply inside_article. }
  lapply H; [clear H; intros H |].
  2:{ intros slug y p arts st (Hh & Hhead & Hcf) _ _ Hsome. repeat split; [|done|done].
      apply handled_cons; [done | | by right | done].
      intros s y' p' Heq. injection Heq as <- <- <-. by rewrite Hsome. }
  lapply H; [clear H; intros H |].
  2:{ intros slug st (Hh & Hhead & Hcf). split; [|done].
      apply handled_cons; [done | done | by right | done]. }
  lapply H; [clear H; intros H |].
  2:{ intros slug y p st (Hh & Hhead & Hcf) _ _ _. split; [|done].
      apply handled_abort; [by left | done | done | done]. }
  lapply H; [clear H; intros H |].
  2:{ intros slug st art (Hh & Hhead & Hcf) _ _. split; [|done].
      apply handled_raise; [by left | done | done | done]. }
  lapply H; [clear H; intros H |].
  2:{ by intros st [Hh _]. }
  lapply H; [clear H; intros H |].
  2:{ intros slug st [Hh Hcf]. simpl.
      apply handled_cons; [done | done | by left | done]. }
  lapply H; [clear H; intros H |].
  2:{ intros slug st (Hh & Hhead & Hcf). simpl.
      apply handled_cons; [done | done | by right | done]. }
  lapply H; [clear H; intros H |].
  2:{ intros slug y p st (Hh & Hhead & Hcf) _ _ _. simpl.
      apply handled_abort; [by right | done | done | done]. }
  lapply H; [clear H; intros H |].
  2:{ intros slug st art (Hh & Hhead & Hcf) _ _. simpl.
      apply handled_raise; [by right | done | done | done]. }
  lapply (H fuel); [clear H; intros H | by split; [apply handled_nil|]].
  destruct (crawl_text_nature_async W cfg fuel) as [[] st']; simpl; try done;
    by destruct H.
Qed.

End ListingFailure.

Example broken_listing_sample :
  trace (snd (crawl_text_nature_async Sample.broken_2023
                (MkConfig 2022 2023 "out" None (Some ["j"; "k"]) None None) 5))
  = [EvLaunch "j"; EvListing "j" 2023 1; EvErrJournal "j"; EvClose "j";
     EvLaunch "k"; EvListing "k" 2023 1; EvErrJournal "k"; EvClose "k"].
Proof. vm_compute. reflexivity. Qed.

(** When the browser cannot be closed after the failed page load, the run
    raises there. *)
Example unclosable_sample :
  crawl_text_nature_async Sample.unclosable
    (MkConfig 2022 2023 "out" None (Some ["j"; "k"]) None None) 5
  = (Raised,
     emits [EvCloseFails "j"; EvErrJournal "j"; EvListing "j" 2023 1; EvLaunch "j"]
       init_state).
Proof. vm_compute. reflexivity. Qed.

(** C3, as stated, fails: after the first listing page of 2023 fails to load,
    neither its second page nor the year 2022 of that journal is visited,
    although 2022 lists an open-access article. *)
Lemma listing_error_drops_journal :
  listing Sample.broken_2023 "j" 2023 1 = None
  /\ listing Sample.broken_2023 "j" 2022 1 = Some [Sample.card22]
  /\ trace (snd (crawl_text_nature_async Sample.broken_2023 (Sample.cfg 2022 2023 None) 5))
     = [EvLaunch "j"; EvListing "j" 2023 1; EvErrJournal "j"; EvClose "j"]
  /\ ~ In (EvListing "j" 2023 2)
          (trace (snd (crawl_text_nature_async Sample.broken_2023
                         (Sample.cfg 2022 2023 None) 5)))
  /\ ~ In (EvListing "j" 2022 1)
          (trace (snd (crawl_text_nature_async Sample.broken_2023
                         (Sample.cfg 2022 2023 None) 5)))
  /\ saved_files (snd (crawl_text_nature_async Sample.broken_2023
                         (Sample.cfg 2022 2023 None) 5)) = [].
Proof.
  assert (Htr : trace (snd (crawl_text_nature_async Sample.broken_2023
                              (Sample.cfg 2022 2023 None) 5))
                = [EvLaunch "j"; EvListing "j" 2023 1; EvErrJournal "j"; EvClose "j"])
    by (vm_compute; reflexivity).
  rewrite Htr. repeat split; try reflexivity.
  - simpl. intros [H|[H|[H|[H|[]]]]]; discriminate H.
  - simpl. intros [H|[H|[H|[H|[]]]]]; discriminate H.
Qed.

(** C3 (amended). A listing page that fails to load is not handled at its
    coordinate: the error reaches the journal's handler, so the failed load is
    directly followed by the journal-level error log and the closing of that
    journal's browser; the rest of the journal is abandoned.  When the closing
    returns, the next action, if any, belongs to the next journal or to the
    summary; when the closing raises, the run ends there.  The failed load
    itself never makes the run raise: a run whose output folder, journal
    folders, Playwright and browsers can be set up and closed, and whose
    coarse callback returns, does not raise, whatever page loads fail. *)
Theorem listing_error_ends_journal (W : World) (cfg : Config) (fuel : nat) :
  ((forall cb, total_progress_callback cfg = Some cb -> scan_call cb = CbReturns) ->
   makedirs_ok W (out_folder cfg) = true ->
   playwright_ok W = true -> playwright_stops W = true ->
   (forall slug, In slug (default [] (journal_slugs cfg)) ->
      makedirs_ok W (PyStr.path_join (out_folder cfg) slug) = true
      /\ launch W slug = Ready /\ close_ok W slug = true) ->
   fst (crawl_text_nature_async W cfg fuel) <> Raised)
  /\ forall pre post slug y p,
       trace (snd (crawl_text_nature_async W cfg fuel))
       = (pre ++ EvListing slug y p :: post)%list ->
       listing W slug y p = None ->
       post = [EvErrJournal slug; EvCloseFails slug]
       \/ exists post', post = EvErrJournal slug :: EvClose slug :: post'
                        /\ (post' = [] \/ exists e r, post' = e :: r /\ boundary e = true).
Proof.
  split; [apply crawl_returns|].
  intros pre post slug y p Htr Hnone. unfold trace in Htr.
  apply (f_equal (@rev event)) in Htr. rewrite rev_involutive, rev_app_distr in Htr.
  simpl in Htr. rewrite <- app_assoc in Htr. simpl in Htr.
  destruct (handled_run W cfg fuel _ _ _ _ _ Htr Hnone) as [Hcf | (l0 & Hl0 & Hb)].
  - left. apply (f_equal (@rev event)) in Hcf. by rewrite rev_involutive in Hcf.
  - right. apply (f_equal (@rev event)) in Hl0. rewrite rev_involutive, rev_app_distr in Hl0.
    simpl in Hl0. exists (rev l0). split; [done|].
    destruct Hb as [-> | (l0' & e & -> & Hbd)]; [by left | right].
    exists e, (rev l0'). by rewrite rev_app_distr.
Qed.

Lemma listing_error_ends_journal_sample :
  fst (crawl_text_nature_async Sample.broken_2023 (Sample.cfg 2022 2023 None) 5) <> Raised
  /\ ([EvErrJournal "j"; EvClose "j"] = [EvErrJournal "j"; EvCloseFails "j"]
      \/ exists post', [EvErrJournal "j"; EvClose "j"]
                       = EvErrJournal "j" :: EvClose "j" :: post'
                       /\ (post' = [] \/ exists e r, post' = e :: r /\ boundary e = true)).
Proof.
  destruct (listing_error_ends_journal Sample.broken_2023 (Sample.cfg 2022 2023 None) 5)
    as [Hrun Hadj].
  split.
  - apply Hrun;
      [intros cb Hcb; discriminate Hcb | reflexivity | reflexivity | reflexivity |].
    intros slug _. repeat split.
  - apply (Hadj [EvLaunch "j"] [EvErrJournal "j"; EvClose "j"] "j" 2023 1%nat);
      vm_compute; reflexivity.
Defined.

(** ** Pagination *)

Section Pagination.

Variable W : World.
Variable cfg : Config.

(** Every page loaded for a (journal, year) comes after pages that all
    showed cards. *)
Lemma loaded_pages_follow_nonempty fuel slug y p :
  In (EvListing slug y p) (log (snd (crawl_text_nature_async W cfg fuel))) ->
  forall q, (1 <= q < p)%nat -> page_nonempty W slug y q.
Proof.
  revert slug y p.
  apply (crawl_inv_plain W cfg
    (fun st => forall slug y p, In (EvListing slug y p) (log st) ->
               forall q, (1 <= q < p)%nat -> page_nonempty W slug y q)
    (fun slug y p => forall q, (1 <= q < p)%nat -> page_nonempty W slug y q)).
  - intros slug y q Hq. lia.
  - intros slug y p art arts HQ Hl q Hq.
    destruct (decide (q = p)) as [->|]; [by exists art, arts | apply HQ; lia].
  - intros e st He HI slug y p [->|Hin]; [done | by apply HI].
  - intros slug st art HI _ s y p Hin.
    destruct (article_step_log W cfg slug st art) as (evs & Hlog & Hev).
    rewrite Hlog in Hin. apply in_app_or in Hin as [Hin|Hin]; [|by apply HI].
    rewrite Forall_forall in Hev. apply list_elem_of_In, Hev in Hin. by destruct Hin.
  - intros slug y p st HI _ HQ s y' p' [Heq|Hin]; [|by apply HI].
    by injection Heq as <- <- <-.
  - intros slug st HI s y p [Heq|Hin]; [done | by apply HI].
  - intros slug y p [].
Qed.

(** A page on which no card passes the filters changes nothing. *)
Lemma articles_loop_all_rejected slug arts st :
  Forall (fun a => accept cfg a = None) arts ->
  articles_loop W cfg slug st arts = (Normal, st).
Proof.
  intros H. revert st. induction H as [|a arts Ha _ IH]; intros st; simpl; [done|].
  destruct (at_limit cfg st); [done|]. unfold article_step. rewrite Ha. apply IH.
Qed.

(** What has happened stays in the history through the page loop. *)
Lemma pages_loop_keeps e fuel slug y st p :
  In e (log st) -> In e (log (snd (pages_loop W cfg fuel slug y st p))).
Proof.
  intros Hin.
  pose proof (pages_loop_inv W cfg (fun st' => In e (log st')) (fun _ _ _ => True)) as H.
  lapply H; [clear H; intros H | done].
  lapply H; [clear H; intros H |].
  2:{ intros s st' art Hst _.
      destruct (article_step_log W cfg s st' art) as (evs & -> & _).
      apply in_or_app. by right. }
  lapply H; [clear H; intros H |].
  2:{ intros s y' p' arts st' Hst _ _ _. by right. }
  specialize (H fuel slug y st p Hin Logic.I).
  destruct (pages_loop W cfg fuel slug y st p) as [[] st']; simpl; try done.
  destruct H as [(st0 & y0 & p0 & H0 & _ & _ & _ & ->) | [H0 _]]; [by right | done].
Qed.

Lemma articles_loop_keeps e slug arts st :
  In e (log st) -> In e (log (snd (articles_loop W cfg slug st arts))).
Proof.
  intros Hin.
  pose proof (articles_loop_inv W cfg (fun st' => In e (log st')) (fun _ _ _ => True)) as H.
  lapply H; [clear H; intros H |].
  2:{ intros s st' art Hst _.
      destruct (article_step_log W cfg s st' art) as (evs & -> & _).
      apply in_or_app. by right. }
  specialize (H slug arts st Hin).
  destruct (articles_loop W cfg slug st arts) as [[] st']; simpl; try done.
  destruct H as [(st0 & y0 & p0 & H0 & _ & _ & _ & ->) | [H0 _]]; [by right | done].
Qed.

(** A turn of the page loop taken below the limit loads its page. *)
Lemma pages_loop_loads fuel slug y st p :
  at_limit cfg st = false ->
  In (EvListing slug y p) (log (snd (pages_loop W cfg (S fuel) slug y st p))).
Proof.
  intros Hlim. cbn [pages_loop]. rewrite Hlim.
  destruct (listing W slug y p) as [[|a arts]|]; [by left | | by left].
  pose proof (articles_loop_keeps (EvListing slug y p) slug (a :: arts)
                (emit (EvListing slug y p) st) (or_introl eq_refl)) as H.
  destruct (articles_loop W cfg slug _ (a :: arts)) as [[] st2]; try done.
  destruct (at_limit cfg st2); [done | by apply pages_loop_keeps].
Qed.

End Pagination.

Example sparse_sample :
  trace (snd (crawl_text_nature_async Sample.sparse (Sample.cfg 2023 2023 None) 5))
  = [EvLaunch "j"; EvListing "j" 2023 1; EvListing "j" 2023 2;
     EvExtract "https://www.nature.com/articles/a1";
     EvSave "out/j/Paper A_2023.json" true; EvSleep;
     EvListing "j" 2023 3; EvClose "j"; EvCsv; EvZip].
Proof. vm_compute. reflexivity. Qed.

Example empty_year_sample :
  trace (snd (crawl_text_nature_async Sample.empty_2022 (Sample.cfg 2021 2022 None) 5))
  = [EvLaunch "j"; EvListing "j" 2022 1; EvListing "j" 2021 1;
     EvExtract "https://www.nature.com/articles/d4";
     EvSave "out/j/Paper D_2021.json" true; EvSleep;
     EvListing "j" 2021 2; EvClose "j"; EvCsv; EvZip].
Proof. vm_compute. reflexivity. Qed.

(** C5. When the listing page [P] of a (journal, year) shows no card, no page
    beyond [P] is loaded for that (journal, year); a page that shows cards of
    which none passes the filters (none is open access, say) changes nothing
    and is followed by the load of the next page. *)
Theorem pagination_stops_on_empty_page (W : World) (cfg : Config) :
  (forall fuel slug y P p,
     (1 <= P)%nat -> listing W slug y P = Some [] -> (P < p)%nat ->
     ~ In (EvListing slug y p) (trace (snd (crawl_text_nature_async W cfg fuel))))
  /\
  (forall fuel slug y st P art arts,
     listing W slug y P = Some (art :: arts) ->
     Forall (fun a => accept cfg a = None) (art :: arts) ->
     at_limit cfg st = false ->
     pages_loop W cfg (S (S fuel)) slug y st P
     = pages_loop W cfg (S fuel) slug y (emit (EvListing slug y P) st) (S P)
     /\ In (EvListing slug y (S P))
           (log (snd (pages_loop W cfg (S (S fuel)) slug y st P)))).
Proof.
  split.
  - intros fuel slug y P p HP Hempty Hlt Hin. unfold trace in Hin.
    apply in_rev in Hin.
    destruct (loaded_pages_follow_nonempty W cfg fuel slug y p Hin P) as (a & l & Hl);
      [lia|]. rewrite Hempty in Hl. discriminate Hl.
  - intros fuel slug y st P art arts Hl Hrej Hlim.
    assert (Hstep : forall n, pages_loop W cfg (S n) slug y st P
                     = pages_loop W cfg n slug y (emit (EvListing slug y P) st) (S P)).
    { intros n. cbn [pages_loop]. rewrite Hlim, Hl.
      rewrite (articles_loop_all_rejected W cfg slug (art :: arts) _ Hrej).
      change (at_limit cfg (emit (EvListing slug y P) st)) with (at_limit cfg st).
      by rewrite Hlim. }
    split; [apply Hstep|]. rewrite Hstep. by apply pages_loop_loads.
Qed.

Lemma pagination_stops_on_empty_page_sample :
  ~ In (EvListing "j" 2023 4%nat)
       (trace (snd (crawl_text_nature_async Sample.sparse (Sample.cfg 2023 2023 None) 5)))
  /\ In (EvListing "j" 2023 2%nat)
        (log (snd (pages_loop Sample.sparse (Sample.cfg 2023 2023 None) 2 "j" 2023
                     init_state 1))).
Proof.
  destruct (pagination_stops_on_empty_page Sample.sparse (Sample.cfg 2023 2023 None))
    as [Hstop Hgo].
  split.
  - apply (Hstop 5%nat "j" 2023 3%nat 4%nat); [lia | reflexivity | lia].
  - apply (Hgo 0%nat "j" 2023 init_state 1%nat Sample.closed_card []);
      [reflexivity | repeat constructor | reflexivity].
Defined.

(** ** The filters of the article loop *)

Example accept_sample :
  accept (Sample.cfg 2020 2024 None) Sample.cardA
  = Some (Stub 2023 "2023-05-17" "/articles/a1").
Proof. reflexivity. Qed.

Example accept_paywalled : accept (Sample.cfg 2020 2024 None) Sample.closed_card = None.
Proof. reflexivity. Qed.

(** The year is read as Python does: a date after the separator U+001F does
    not parse (only [str.strip] would skip it), a date in full-width digits
    does. *)
Example accept_separator :
  accept (Sample.cfg 2020 2024 None) Sample.separator_card = None.
Proof. reflexivity. Qed.

Example accept_fullwidth :
  accept (Sample.cfg 2020 2024 None) Sample.fullwidth_card
  = Some (Stub 2023 Sample.fullwidth_date "/articles/f6").
Proof. reflexivity. Qed.

(** C8. A card whose date does not start with four characters that [int]
    reads as a year, or whose year lies outside [year_from, year_to], is
    rejected by the filters; its iteration leaves the run state as it was (no
    request, no save, no count) and the loop goes on with the cards after
    it. *)
Theorem out_of_range_stub_is_rejected (W : World) (cfg : Config) (slug : string)
    (st : RunState) (art : card) (m : c_meta) (date : string) :
  meta_section art = Some m ->
  date_elem m = Some date ->
  (PyStr.int (PyStr.take_chars 4 date) = None
   \/ exists y, PyStr.int (PyStr.take_chars 4 date) = Some y
                /\ ~ (year_from cfg <= y <= year_to cfg)) ->
  accept cfg art = None
  /\ article_step W cfg slug st art = (Normal, st)
  /\ forall rest, articles_loop W cfg slug st (art :: rest)
                  = articles_loop W cfg slug st rest.
Proof.
  intros Hm Hd Hyear.
  assert (Hacc : accept cfg art = None).
  { unfold accept. rewrite Hm. destruct (oa_label m); [|done]. cbn [negb]. rewrite Hd.
    destruct Hyear as [-> | (y & -> & Hout)]; [done|].
    destruct (Z.leb_spec (year_from cfg) y), (Z.leb_spec y (year_to cfg));
      cbn [andb negb]; try done. lia. }
  assert (Hstep : article_step W cfg slug st art = (Normal, st))
    by (unfold article_step; by rewrite Hacc).
  repeat split; try done.
  intros rest. simpl. rewrite Hstep.
  destruct (at_limit cfg st) eqn:E; [by rewrite articles_loop_at_limit | done].
Qed.

Lemma out_of_range_stub_is_rejected_sample :
  (accept (Sample.cfg 2020 2024 None) Sample.old_card = None
   /\ article_step Sample.overlap (Sample.cfg 2020 2024 None) "j" init_state Sample.old_card
      = (Normal, init_state)
   /\ forall rest,
        articles_loop Sample.overlap (Sample.cfg 2020 2024 None) "j" init_state
          (Sample.old_card :: rest)
        = articles_loop Sample.overlap (Sample.cfg 2020 2024 None) "j" init_state rest)
  /\ accept (Sample.cfg 2020 2024 None) Sample.undated_card = None
  /\ accept (Sample.cfg 2020 2024 None) Sample.separator_card = None.
Proof.
  split; [|split].
  - apply (out_of_range_stub_is_rejected Sample.overlap (Sample.cfg 2020 2024 None) "j"
             init_state Sample.old_card (CMeta true (Some "2019-11-30")) "2019-11-30");
      [reflexivity | reflexivity |].
    right. exists 2019. split; [reflexivity|]. simpl. lia.
  - apply (out_of_range_stub_is_rejected Sample.overlap (Sample.cfg 2020 2024 None) "j"
             init_state Sample.undated_card (CMeta true (Some "May 2023")) "May 2023");
      [reflexivity | reflexivity |].
    left. reflexivity.
  - apply (out_of_range_stub_is_rejected Sample.overlap (Sample.cfg 2020 2024 None) "j"
             init_state Sample.separator_card
             (CMeta true (Some Sample.separator_date)) Sample.separator_date);
      [reflexivity | reflexivity |].
    left. reflexivity.
Defined.

(** ** The delay between articles *)

(** The delay follows every stub whose extraction returned a record, saved or
    not, callback raising or not. *)
Lemma delay_after_extracted (W : World) (cfg : Config) (slug : string) (art : card)
    (s : stub) (url : string) (st : RunState) (j : gmap string jval) :
  extract_fulltext_nature_as_json (article_doc W url) url (now W) = Some j ->
  exists earlier, log (process_stub W cfg slug art s url st) = EvSleep :: earlier.
Proof. intros Hext. unfold process_stub. rewrite Hext. by eexists. Qed.

(** It does not follow a stub whose extraction returned [None]. *)
Lemma no_delay_when_extraction_fails (W : World) (cfg : Config) (slug : string)
    (art : card) (s : stub) (url : string) (st : RunState) :
  extract_fulltext_nature_as_json (article_doc W url) url (now W) = None ->
  log (process_stub W cfg slug art s url st)
  = EvWarnExtract url :: EvExtract url :: log st.
Proof. intros Hext. unfold process_stub. by rewrite Hext. Qed.

(** C9. The delay is missing after an extraction that returns [None]: on a
    page with three accepted stubs of which the second has no content, the
    request for the third follows the warning for the second at once, while a
    delay follows each of the two saved articles. *)
Theorem no_delay_after_failed_extraction :
  trace (snd (crawl_text_nature_async Sample.second_fails (Sample.cfg 2022 2023 None) 5))
  = [EvLaunch "j";
     EvListing "j" 2023 1;
     EvExtract "https://www.nature.com/articles/a1";
     EvSave "out/j/Paper A_2023.json" true;
     EvSleep;
     EvExtract "https://www.nature.com/articles/b2";
     EvWarnExtract "https://www.nature.com/articles/b2";
     EvExtract "https://www.nature.com/articles/c3";
     EvSave "out/j/Paper C_2022.json" true;
     EvSleep;
     EvListing "j" 2023 2;
     EvListing "j" 2022 1;
     EvExtract "https://www.nature.com/articles/a1";
     EvSave "out/j/Paper A_2023.json" true;
     EvSleep;
     EvExtract "https://www.nature.com/articles/b2";
     EvWarnExtract "https://www.nature.com/articles/b2";
     EvExtract "https://www.nature.com/articles/c3";
     EvSave "out/j/Paper C_2022.json" true;
     EvSleep;
     EvListing "j" 2022 2;
     EvClose "j"; EvCsv; EvZip].
Proof. vm_compute. reflexivity. Qed.

(** ** Two runs side by side

    Two configurations whose limit checks and article iterations keep a
    relation [R] between the run states keep it through every loop, and leave
    the loops the same way. *)

Section Simulation.

Variable W : World.
Variables cfg1 cfg2 : Config.
Variable R : RunState -> RunState -> Prop.

Hypothesis same_year_from : year_from cfg1 = year_from cfg2.
Hypothesis same_year_to : year_to cfg1 = year_to cfg2.
Hypothesis same_out_folder : out_folder cfg1 = out_folder cfg2.
Hypothesis R_limit : forall a b, R a b -> at_limit cfg1 a = at_limit cfg2 b.
Hypothesis R_emit : forall e a b, R a b -> R (emit e a) (emit e b).
Hypothesis R_article : forall slug art a b,
  R a b ->
  fst (article_step W cfg1 slug a art) = fst (article_step W cfg2 slug b art)
  /\ R (snd (article_step W cfg1 slug a art)) (snd (article_step W cfg2 slug b art)).

Lemma articles_loop_sim slug arts a b :
  R a b ->
  fst (articles_loop W cfg1 slug a arts) = fst (articles_loop W cfg2 slug b arts)
  /\ R (snd (articles_loop W cfg1 slug a arts)) (snd (articles_loop W cfg2 slug b arts)).
Proof.
  revert a b. induction arts as [|art arts IH]; intros a b HR; simpl; [done|].
  rewrite <- (R_limit a b HR). destruct (at_limit cfg1 a); [done|].
  destruct (R_article slug art a b HR) as [Hf Hs].
  destruct (article_step W cfg1 slug a art) as [f1 a'],
           (article_step W cfg2 slug b art) as [f2 b']; simpl in Hf, Hs.
  subst f2. destruct f1; [by apply IH | done | done].
Qed.

Lemma pages_loop_sim fuel slug y p a b :
  R a b ->
  fst (pages_loop W cfg1 fuel slug y a p) = fst (pages_loop W cfg2 fuel slug y b p)
  /\ R (snd (pages_loop W cfg1 fuel slug y a p)) (snd (pages_loop W cfg2 fuel slug y b p)).
Proof.
  revert p a b. induction fuel as [|fuel IH]; intros p a b HR; cbn [pages_loop]; [done|].
  rewrite <- (R_limit a b HR). destruct (at_limit cfg1 a); [done|].
  pose proof (R_emit (EvListing slug y p) a b HR) as HR1.
  destruct (listing W slug y p) as [[|art arts]|]; [done | | done].
  destruct (articles_loop_sim slug (art :: arts) _ _ HR1) as [Hf Hs].
  destruct (articles_loop W cfg1 slug _ (art :: arts)) as [f1 a'],
           (articles_loop W cfg2 slug _ (art :: arts)) as [f2 b']; simpl in Hf, Hs.
  subst f2. destruct f1; [|done|done].
  rewrite <- (R_limit _ _ Hs). destruct (at_limit cfg1 a'); [done | by apply IH].
Qed.

Lemma years_loop_sim fuel slug years a b :
  R a b ->
  fst (years_loop W cfg1 fuel slug a years) = fst (years_loop W cfg2 fuel slug b years)
  /\ R (snd (years_loop W cfg1 fuel slug a years)) (snd (years_loop W cfg2 fuel slug b years)).
Proof.
  revert a b. induction years as [|y years IH]; intros a b HR; cbn [years_loop]; [done|].
  rewrite <- (R_limit a b HR). destruct (at_limit cfg1 a); [done|].
  destruct (pages_loop_sim fuel slug y 1 a b HR) as [Hf Hs].
  destruct (pages_loop W cfg1 fuel slug y a 1) as [f1 a'],
           (pages_loop W cfg2 fuel slug y b 1) as [f2 b']; simpl in Hf, Hs.
  subst f2. destruct f1; [by apply IH | done | done].
Qed.

Lemma crawl_journal_sim fuel slug a b :
  R a b ->
  fst (crawl_journal W cfg1 fuel a slug) = fst (crawl_journal W cfg2 fuel b slug)
  /\ R (snd (crawl_journal W cfg1 fuel a slug)) (snd (crawl_journal W cfg2 fuel b slug)).
Proof.
  intros HR. unfold crawl_journal, close_browser.
  rewrite <- same_year_from, <- same_year_to, <- same_out_folder.
  destruct (makedirs_ok W _); cbn [negb]; [|done].
  destruct (launch W slug); [done | by split; [|apply R_emit] |].
  destruct (years_loop_sim fuel slug (year_range (year_from cfg1) (year_to cfg1))
              _ _ (R_emit (EvLaunch slug) a b HR)) as [Hf Hs].
  destruct (years_loop W cfg1 _ _ _ _) as [f1 a'],
           (years_loop W cfg2 _ _ _ _) as [f2 b']; simpl in Hf, Hs.
  subst f2. destruct f1, (close_ok W slug); simpl; split; try done;
    by repeat apply R_emit.
Qed.

Lemma journals_loop_sim fuel slugs a b :
  R a b ->
  fst (journals_loop W cfg1 fuel a slugs) = fst (journals_loop W cfg2 fuel b slugs)
  /\ R (snd (journals_loop W cfg1 fuel a slugs)) (snd (journals_loop W cfg2 fuel b slugs)).
Proof.
  revert a b. induction slugs as [|slug slugs IH]; intros a b HR; cbn [journals_loop];
    [done|].
  destruct (crawl_journal_sim fuel slug a b HR) as [Hf Hs].
  destruct (crawl_journal W cfg1 fuel a slug) as [f1 a'],
           (crawl_journal W cfg2 fuel b slug) as [f2 b']; simpl in Hf, Hs.
  subst f2. destruct f1; [by apply IH | done | done].
Qed.

Lemma with_playwright_sim fuel slugs a b :
  R a b ->
  fst (with_playwright W cfg1 fuel a slugs) = fst (with_playwright W cfg2 fuel b slugs)
  /\ R (snd (with_playwright W cfg1 fuel a slugs))
       (snd (with_playwright W cfg2 fuel b slugs)).
Proof.
  intros HR. unfold with_playwright. destruct (playwright_ok W); cbn [negb]; [|done].
  destruct (journals_loop_sim fuel slugs a b HR) as [Hf Hs].
  destruct (journals_loop W cfg1 fuel a slugs) as [f1 a'],
           (journals_loop W cfg2 fuel b slugs) as [f2 b']; simpl in Hf, Hs.
  subst f2. by destruct f1, (playwright_stops W).
Qed.

End Simulation.

(** ** Results do not depend on the history *)

Section Results.

Variable W : World.

Lemma core_log_app evs1 evs2 :
  core_log (evs1 ++ evs2) = (core_log evs1 ++ core_log evs2)%list.
Proof. apply List.filter_app. Qed.

Lemma core_log_notices evs :
  Forall (fun e => is_notice e = true) evs -> core_log evs = [].
Proof.
  induction 1 as [|e evs He _ IH]; [done|]. simpl. rewrite IH. by destruct e.
Qed.

Lemma title_of_results a b art :
  results a = results b -> title_of a art = title_of b art.
Proof.
  intros H. unfold title_of. destruct (card_title art); [done|].
  unfold results in H. by injection H as _ _ _ ->.
Qed.

(** One iteration under two configurations that differ in their callbacks:
    same results, same history up to what the callbacks added. *)
Lemma article_step_same_crawl cfg p1 t1 p2 t2 slug art a b :
  same_crawl a b ->
  fst (article_step W (with_callbacks cfg p1 t1) slug a art)
  = fst (article_step W (with_callbacks cfg p2 t2) slug b art)
  /\ same_crawl (snd (article_step W (with_callbacks cfg p1 t1) slug a art))
                (snd (article_step W (with_callbacks cfg p2 t2) slug b art)).
Proof.
  intros [Hres Hlog]. unfold article_step.
  change (accept (with_callbacks cfg p2 t2) art) with (accept (with_callbacks cfg p1 t1) art).
  destruct (accept (with_callbacks cfg p1 t1) art) as [s|]; [|by repeat split].
  destruct (urljoin W (article_href s)) as [url|]; [|by repeat split].
  split; [done|]. cbn [snd].
  unfold process_stub. rewrite (title_of_results a b art Hres).
  destruct (extract_fulltext_nature_as_json _ _ _) as [j|].
  2:{ split; [exact Hres | simpl; by rewrite Hlog]. }
  change (out_folder (with_callbacks cfg p2 t2)) with (out_folder (with_callbacks cfg p1 t1)).
  destruct (save_json_to_file W _ _).
  2:{ split; [exact Hres | simpl; by rewrite Hlog]. }
  edestruct (notify_shape (with_callbacks cfg p1 t1)) as [evs1 [-> Hev1]].
  edestruct (notify_shape (with_callbacks cfg p2 t2)) as [evs2 [-> Hev2]].
  unfold results in Hres. injection Hres as Hs Ho Hm Hc.
  split.
  - unfold results. simpl. by rewrite Hs, Ho, Hm, Hc.
  - simpl. rewrite !core_log_app, (core_log_notices _ Hev1), (core_log_notices _ Hev2).
    simpl. by rewrite Hlog.
Qed.

Lemma same_crawl_emit e a b : same_crawl a b -> same_crawl (emit e a) (emit e b).
Proof. intros [Hres Hlog]. split; [exact Hres | simpl; by rewrite Hlog]. Qed.

Lemma same_crawl_limit cfg p1 t1 p2 t2 a b :
  same_crawl a b ->
  at_limit (with_callbacks cfg p1 t1) a = at_limit (with_callbacks cfg p2 t2) b.
Proof.
  intros [Hres _]. unfold results in Hres. injection Hres as _ _ _ Hc.
  unfold at_limit. by rewrite Hc.
Qed.

Lemma same_crawl_finish a b : same_crawl a b -> same_crawl (finish a) (finish b).
Proof.
  intros H. unfold finish. destruct H as [Hres Hlog].
  assert (saved_files a = saved_files b) as Hs
    by (unfold results in Hres; by injection Hres as -> _ _ _).
  rewrite <- Hs. destruct (saved_files a); [by split|].
  by apply same_crawl_emit, same_crawl_emit.
Qed.

(** The results of a page, and the way the loop is left, depend on the
    results so far, not on the history. *)
Lemma articles_loop_results cfg slug arts a b :
  results a = results b ->
  fst (articles_loop W cfg slug a arts) = fst (articles_loop W cfg slug b arts)
  /\ results (snd (articles_loop W cfg slug a arts))
     = results (snd (articles_loop W cfg slug b arts)).
Proof.
  intros Hres.
  pose proof (articles_loop_sim W cfg cfg (fun x y => results x = results y)) as H.
  apply H; [| | done].
  - intros x y Hxy. unfold results in Hxy. injection Hxy as _ _ _ Hc.
    unfold at_limit. by rewrite Hc.
  - intros s art x y Hxy. unfold article_step.
    destruct (accept cfg art) as [st|]; [|done].
    destruct (urljoin W (article_href st)) as [url|]; [|done].
    split; [done|]. cbn [snd].
    unfold process_stub. rewrite (title_of_results x y art Hxy).
    destruct (extract_fulltext_nature_as_json _ _ _) as [j|]; [|exact Hxy].
    destruct (save_json_to_file W _ _); [|exact Hxy].
    edestruct (notify_shape cfg) as [evs1 [-> _]].
    edestruct (notify_shape cfg) as [evs2 [-> _]].
    unfold results in *. injection Hxy as Hs Ho Hm Hc. simpl.
    by rewrite Hs, Ho, Hm, Hc.
Qed.

End Results.

(** ** A stub that fails *)

Section Isolation.

Variable W : World.
Variable cfg : Config.

(** An iteration that returns records the row of its card when the card is
    eligible, and nothing otherwise. *)
Lemma article_step_entry slug st art st1 :
  article_step W cfg slug st art = (Normal, st1) ->
  results st1
  = match eligible_entry W cfg slug (found_count st) art with
    | Some (path, title, date) => results (record_saved path title date st)
    | None => results st
    end.
Proof.
  unfold article_step, eligible_entry.
  destruct (accept cfg art) as [s|]; [|by intros [= <-]].
  destruct (urljoin W (article_href s)) as [url|]; [|done].
  intros [= <-]. unfold process_stub.
  destruct (extract_fulltext_nature_as_json _ _ _) as [j|]; [|done].
  assert (title_of st art
          = default ("Article_" +:+ pretty (found_count st + 1)) (card_title art)) as ->
    by (unfold title_of; by destruct (card_title art)).
  unfold save_json_to_file. destruct (writable W _); [|done].
  edestruct (notify_shape cfg) as [evs [-> _]]. reflexivity.
Qed.

(** A page processed to its end below the limit has recorded exactly the
    rows of its eligible cards, in document order. *)
Lemma articles_loop_entries slug arts st st' :
  articles_loop W cfg slug st arts = (Normal, st') ->
  at_limit cfg st' = false ->
  results st'
  = ((saved_files st
      ++ List.map (fun entry => fst (fst entry))
           (eligible_entries W cfg slug (found_count st) arts))%list,
     (open_access_articles st
      ++ List.map (fun entry => snd (fst entry))
           (eligible_entries W cfg slug (found_count st) arts))%list,
     (article_metadata st ++ eligible_entries W cfg slug (found_count st) arts)%list,
     found_count st
     + Z.of_nat (length (eligible_entries W cfg slug (found_count st) arts))).
Proof.
  revert st. induction arts as [|a arts IH]; intros st Hloop Hlim; simpl in Hloop.
  - injection Hloop as <-. unfold results. simpl. rewrite !app_nil_r. f_equal. lia.
  - destruct (at_limit cfg st) eqn:E.
    { injection Hloop as <-. congruence. }
    destruct (article_step W cfg slug st a) as [[] st1] eqn:Hstep; try discriminate Hloop.
    pose proof (article_step_entry slug st a st1 Hstep) as Hres.
    rewrite (IH st1 Hloop Hlim). simpl.
    destruct (eligible_entry W cfg slug (found_count st) a) as [[[path title] date]|];
      unfold results in Hres; injection Hres as -> -> -> ->; simpl.
    + rewrite <- !app_assoc. simpl. f_equal. lia.
    + reflexivity.
Qed.

(** On such a page every accepted card whose link resolves was requested. *)
Lemma articles_loop_requests slug arts st st' a sa ua :
  articles_loop W cfg slug st arts = (Normal, st') ->
  at_limit cfg st' = false ->
  In a arts -> accept cfg a = Some sa -> urljoin W (article_href sa) = Some ua ->
  In (EvExtract ua) (log st').
Proof.
  revert st. induction arts as [|b arts IH]; intros st Hloop Hlim Hin Hacc Hurl; [done|].
  simpl in Hloop. destruct (at_limit cfg st) eqn:E.
  { injection Hloop as <-. congruence. }
  destruct (article_step W cfg slug st b) as [[] st1] eqn:Hstep; try discriminate Hloop.
  destruct Hin as [-> | Hin]; [|by eapply IH].
  pose proof (articles_loop_keeps W cfg (EvExtract ua) slug arts st1) as Hkeep.
  rewrite Hloop in Hkeep. apply Hkeep.
  unfold article_step in Hstep. rewrite Hacc, Hurl in Hstep. injection Hstep as <-.
  unfold process_stub.
  destruct (extract_fulltext_nature_as_json _ _ _) as [j|]; [|by right; left].
  destruct (save_json_to_file W _ _); [|by do 3 right; left].
  edestruct (notify_shape cfg) as [evs [-> _]]. simpl.
  right. apply in_or_app. right. right. by left.
Qed.

(** The history only grows during the article loop. *)
Lemma articles_loop_log slug arts st :
  exists evs, log (snd (articles_loop W cfg slug st arts)) = (evs ++ log st)%list.
Proof.
  revert st. induction arts as [|a arts IH]; intros st; simpl; [by exists []|].
  destruct (at_limit cfg st); [by exists []|].
  destruct (article_step_log W cfg slug st a) as (evs1 & Hlog1 & _).
  destruct (article_step W cfg slug st a) as [[] st1]; simpl in Hlog1;
    [|by exists evs1|by exists evs1].
  destruct (IH st1) as [evs2 Hlog2]. exists (evs2 ++ evs1)%list.
  by rewrite Hlog2, Hlog1, app_assoc.
Qed.

(** A card that is not eligible adds no row. *)
Lemma eligible_entries_skip slug art pre post count :
  (forall c, eligible_entry W cfg slug c art = None) ->
  eligible_entries W cfg slug count (pre ++ art :: post)
  = eligible_entries W cfg slug count (pre ++ post).
Proof.
  intros Hnone. revert count. induction pre as [|a pre IH]; intros count; simpl.
  - by rewrite Hnone.
  - destruct (eligible_entry W cfg slug count a); by rewrite IH.
Qed.

End Isolation.

Example second_fails_sample :
  eligible_entries Sample.second_fails (Sample.cfg 2022 2023 None) "j" 0
    [Sample.cardA; Sample.cardB; Sample.card22]
  = [("out/j/Paper A_2023.json", "Paper A", "2023-05-17");
     ("out/j/Paper C_2022.json", "Paper C", "2022-03-09")].
Proof. vm_compute. reflexivity. Qed.

(** C4. When the extraction of an accepted stub returns [None] (its page
    failed to load, had no content, or anything raised while reading it), the
    stub is requested once, skipped with a warning and not counted, and the
    other stubs of the page are processed as usual: on a page that is
    processed to its end below the limit, every other accepted stub was
    requested, and the records saved and counted are exactly those of the
    eligible stubs before and after the failing one, in document order. *)
Theorem failed_stub_is_isolated (W : World) (cfg : Config) (slug : string)
    (st st' : RunState) (pre post : list card) (art : card) (s : stub) (url : string) :
  accept cfg art = Some s ->
  urljoin W (article_href s) = Some url ->
  extract_fulltext_nature_as_json (article_doc W url) url (now W) = None ->
  articles_loop W cfg slug st (pre ++ art :: post) = (Normal, st') ->
  at_limit cfg st' = false ->
  (exists before after,
     log st' = (after ++ EvWarnExtract url :: EvExtract url :: before ++ log st)%list)
  /\ article_metadata st'
     = (article_metadata st
        ++ eligible_entries W cfg slug (found_count st) (pre ++ post))%list
  /\ saved_files st'
     = (saved_files st
        ++ List.map (fun entry => fst (fst entry))
             (eligible_entries W cfg slug (found_count st) (pre ++ post)))%list
  /\ found_count st'
     = found_count st
       + Z.of_nat (length (eligible_entries W cfg slug (found_count st) (pre ++ post)))
  /\ forall a sa ua,
       In a (pre ++ post) -> accept cfg a = Some sa ->
       urljoin W (article_href sa) = Some ua -> In (EvExtract ua) (log st').
Proof.
  intros Hacc Hurl Hfail Hloop Hlim.
  assert (Hnone : forall c, eligible_entry W cfg slug c art = None).
  { intros c. unfold eligible_entry. by rewrite Hacc, Hurl, Hfail. }
  pose proof (articles_loop_entries W cfg slug _ st st' Hloop Hlim) as Hres.
  rewrite (eligible_entries_skip W cfg slug art pre post _ Hnone) in Hres.
  unfold results in Hres. injection Hres as Hs _ Hm Hc.
  split; [|split; [exact Hm | split; [exact Hs | split; [exact Hc |]]]].
  - rewrite articles_loop_app in Hloop.
    destruct (articles_loop_log W cfg slug pre st) as [before Hbefore].
    destruct (articles_loop W cfg slug st pre) as [[] st1]; try discriminate Hloop.
    simpl in Hbefore. cbn [articles_loop] in Hloop.
    destruct (at_limit cfg st1) eqn:E.
    { injection Hloop as <-. congruence. }
    unfold article_step in Hloop. rewrite Hacc, Hurl in Hloop.
    unfold process_stub in Hloop. rewrite Hfail in Hloop.
    destruct (articles_loop_log W cfg slug post
                (emit (EvWarnExtract url) (emit (EvExtract url) st1))) as [after Hafter].
    rewrite Hloop in Hafter. simpl in Hafter. exists before, after.
    by rewrite Hafter, Hbefore.
  - intros a sa ua Hin Ha Hu.
    eapply (articles_loop_requests W cfg slug (pre ++ art :: post) st st' a); try done.
    apply in_app_or in Hin as [Hin | Hin]; apply in_or_app; [by left | by right; right].
Qed.

Lemma failed_stub_is_isolated_sample :
  (exists before after,
     log (snd (articles_loop Sample.second_fails (Sample.cfg 2022 2023 None) "j" init_state
                 ([Sample.cardA] ++ Sample.cardB :: [Sample.card22])))
     = (after ++ EvWarnExtract "https://www.nature.com/articles/b2"
          :: EvExtract "https://www.nature.com/articles/b2" :: before ++ [])%list)
  /\ article_metadata
       (snd (articles_loop Sample.second_fails (Sample.cfg 2022 2023 None) "j" init_state
               ([Sample.cardA] ++ Sample.cardB :: [Sample.card22])))
     = [("out/j/Paper A_2023.json", "Paper A", "2023-05-17");
        ("out/j/Paper C_2022.json", "Paper C", "2022-03-09")]
  /\ saved_files
       (snd (articles_loop Sample.second_fails (Sample.cfg 2022 2023 None) "j" init_state
               ([Sample.cardA] ++ Sample.cardB :: [Sample.card22])))
     = ["out/j/Paper A_2023.json"; "out/j/Paper C_2022.json"]
  /\ found_count
       (snd (articles_loop Sample.second_fails (Sample.cfg 2022 2023 None) "j" init_state
               ([Sample.cardA] ++ Sample.cardB :: [Sample.card22])))
     = 2
  /\ In (EvExtract "https://www.nature.com/articles/c3")
        (log (snd (articles_loop Sample.second_fails (Sample.cfg 2022 2023 None) "j"
                     init_state ([Sample.cardA] ++ Sample.cardB :: [Sample.card22])))).
Proof.
  destruct (failed_stub_is_isolated Sample.second_fails (Sample.cfg 2022 2023 None) "j"
              init_state
              (snd (articles_loop Sample.second_fails (Sample.cfg 2022 2023 None) "j"
                      init_state ([Sample.cardA] ++ Sample.cardB :: [Sample.card22])))
              [Sample.cardA] [Sample.card22] Sample.cardB
              (Stub 2023 "2023-06-01" "/articles/b2")
              "https://www.nature.com/articles/b2")
    as (Hlog & Hm & Hs & Hc & Hreq);
    [vm_compute; reflexivity | vm_compute; reflexivity | vm_compute; reflexivity
    | vm_compute; reflexivity | vm_compute; reflexivity |].
  split; [exact Hlog|]. split; [exact Hm|]. split; [exact Hs|]. split; [exact Hc|].
  apply (Hreq Sample.card22 (Stub 2022 "2022-03-09" "/articles/c3")
           "https://www.nature.com/articles/c3");
    [right; left; reflexivity | reflexivity | reflexivity].
Defined.

(** ** The callbacks *)

Example raising_progress_sample :
  trace (snd (crawl_text_nature_async Sample.sparse
                (with_callbacks (Sample.cfg 2023 2023 None)
                   (Some Sample.raising_progress) None) 5))
  = [EvLaunch "j"; EvListing "j" 2023 1; EvListing "j" 2023 2;
     EvExtract "https://www.nature.com/articles/a1";
     EvSave "out/j/Paper A_2023.json" true;
     EvProgress "Paper A_2023.json" "out/j/Paper A_2023.json";
     EvErrArticle "Paper A"; EvSleep;
     EvListing "j" 2023 3; EvClose "j"; EvCsv; EvZip].
Proof. vm_compute. reflexivity. Qed.

(** C7, as stated, fails for the coarse callback: when it raises, the run
    raises before the first journal and saves nothing, while the same run
    without callbacks saves two records. *)
Lemma raising_total_callback_fails_the_crawl :
  crawl_text_nature_async Sample.overlap
    (with_callbacks (Sample.cfg 2023 2023 None) None (Some Sample.raising_total)) 5
  = (Raised, emit EvTotalProgress init_state)
  /\ saved_files (snd (crawl_text_nature_async Sample.overlap
        (with_callbacks (Sample.cfg 2023 2023 None) None (Some Sample.raising_total)) 5))
     = []
  /\ saved_files (snd (crawl_text_nature_async Sample.overlap
        (with_callbacks (Sample.cfg 2023 2023 None) None None) 5))
     = ["out/j/Paper A_2023.json"; "out/j/Paper A_2023.json"].
Proof. repeat split; vm_compute; reflexivity. Qed.

(** C7 (amended). The per-file callback cannot fail the crawl, and as long as
    the one call to the coarse callback returns, a run with callbacks and the
    run without them end the same way, with the same results and the same
    requests, saves and delays in the same order: they differ only by the
    entries the callbacks themselves add to the history. *)
Theorem callbacks_do_not_change_the_crawl (W : World) (cfg : Config) (fuel : nat)
    (p : option (string -> string -> cb_result))
    (t : option (Z -> Z -> string -> Z -> Z -> string -> cb_result)) :
  (forall cb, t = Some cb -> scan_call cb = CbReturns) ->
  fst (crawl_text_nature_async W (with_callbacks cfg p t) fuel)
  = fst (crawl_text_nature_async W (with_callbacks cfg None None) fuel)
  /\ same_crawl (snd (crawl_text_nature_async W (with_callbacks cfg p t) fuel))
                (snd (crawl_text_nature_async W (with_callbacks cfg None None) fuel)).
Proof.
  intros Ht. unfold crawl_text_nature_async.
  change (out_folder (with_callbacks cfg p t)) with (out_folder cfg).
  change (out_folder (with_callbacks cfg None None)) with (out_folder cfg).
  destruct (makedirs_ok W (out_folder cfg)); cbn [negb]; [|by repeat split].
  change (journal_slugs (with_callbacks cfg p t)) with (journal_slugs cfg).
  change (journal_slugs (with_callbacks cfg None None)) with (journal_slugs cfg).
  destruct (journal_slugs cfg) as [[|slug slugs]|]; try by repeat split.
  assert (Hloop : forall a b, same_crawl a b ->
    fst (match with_playwright W (with_callbacks cfg p t) fuel a (slug :: slugs) with
         | (Normal, st') => (Normal, finish st') | other => other end)
    = fst (match with_playwright W (with_callbacks cfg None None) fuel b (slug :: slugs) with
           | (Normal, st') => (Normal, finish st') | other => other end)
    /\ same_crawl
         (snd (match with_playwright W (with_callbacks cfg p t) fuel a (slug :: slugs) with
               | (Normal, st') => (Normal, finish st') | other => other end))
         (snd (match with_playwright W (with_callbacks cfg None None) fuel b
                       (slug :: slugs) with
               | (Normal, st') => (Normal, finish st') | other => other end))).
  { intros a b Hab.
    destruct (with_playwright_sim W (with_callbacks cfg p t) (with_callbacks cfg None None)
                same_crawl eq_refl eq_refl eq_refl
                (same_crawl_limit cfg p t None None)
                same_crawl_emit
                (fun s art x y => article_step_same_crawl W cfg p t None None s art x y)
                fuel (slug :: slugs) a b Hab) as [Hf Hs].
    destruct (with_playwright W (with_callbacks cfg p t) fuel a (slug :: slugs)) as [f1 a'],
             (with_playwright W (with_callbacks cfg None None) fuel b (slug :: slugs))
               as [f2 b']; simpl in Hf, Hs.
    subst f2. destruct f1; simpl; split; try done. by apply same_crawl_finish. }
  change (total_progress_callback (with_callbacks cfg p t)) with t.
  change (total_progress_callback (with_callbacks cfg None None))
    with (@None (Z -> Z -> string -> Z -> Z -> string -> cb_result)).
  destruct t as [cb|]; [|by apply Hloop].
  rewrite (Ht cb eq_refl). apply Hloop. by split.
Qed.

Lemma callbacks_do_not_change_the_crawl_sample :
  fst (crawl_text_nature_async Sample.overlap
         (with_callbacks (Sample.cfg 2023 2023 None) (Some Sample.raising_progress) None) 5)
  = fst (crawl_text_nature_async Sample.overlap
           (with_callbacks (Sample.cfg 2023 2023 None) None None) 5)
  /\ same_crawl
       (snd (crawl_text_nature_async Sample.overlap
               (with_callbacks (Sample.cfg 2023 2023 None)
                  (Some Sample.raising_progress) None) 5))
       (snd (crawl_text_nature_async Sample.overlap
               (with_callbacks (Sample.cfg 2023 2023 None) None None) 5)).
Proof.
  apply (callbacks_do_not_change_the_crawl Sample.overlap (Sample.cfg 2023 2023 None) 5
           (Some Sample.raising_progress) None).
  intros cb Hcb. discriminate Hcb.
Defined.

(** ** The limit 0 *)

Section Crowded.

Variable n : nat.

Lemma crowded_step st :
  exists st1,
    article_step (Sample.crowded n) (Sample.cfg 2023 2023 (Some 0)) "j" st Sample.cardA
    = (Normal, st1)
    /\ length (saved_files st1) = S (length (saved_files st)).
Proof.
  unfold article_step.
  change (accept (Sample.cfg 2023 2023 (Some 0)) Sample.cardA)
    with (Some (Stub 2023 "2023-05-17" "/articles/a1")).
  change (urljoin (Sample.crowded n) (article_href (Stub 2023 "2023-05-17" "/articles/a1")))
    with (Some "https://www.nature.com/articles/a1").
  eexists. split; [reflexivity|].
  unfold process_stub.
  destruct (extract_fulltext_nature_as_json _ _ _) as [j|] eqn:E;
    [|vm_compute in E; discriminate E].
  unfold save_json_to_file.
  change (writable (Sample.crowded n) ?p) with true. cbn iota.
  unfold notify. change (progress_callback (Sample.cfg 2023 2023 (Some 0)))
    with (@None (string -> string -> cb_result)).
  cbn [saved_files emit record_saved]. rewrite length_app. simpl. lia.
Qed.

Lemma crowded_page m st :
  exists st',
    articles_loop (Sample.crowded n) (Sample.cfg 2023 2023 (Some 0)) "j" st
      (repeat Sample.cardA m)
    = (Normal, st')
    /\ length (saved_files st') = (length (saved_files st) + m)%nat.
Proof.
  revert st. induction m as [|m IH]; intros st; cbn [repeat articles_loop].
  { exists st. split; [done | lia]. }
  change (at_limit (Sample.cfg 2023 2023 (Some 0)) st) with false. cbn iota.
  destruct (crowded_step st) as (st1 & -> & H1).
  destruct (IH st1) as (st' & -> & H'). exists st'. split; [done | lia].
Qed.

Lemma crowded_run :
  exists st,
    crawl_text_nature_async (Sample.crowded n) (Sample.cfg 2023 2023 (Some 0)) 2
    = (Normal, st)
    /\ length (saved_files st) = n.
Proof.
  unfold crawl_text_nature_async.
  change (makedirs_ok (Sample.crowded n) ?p) with true.
  change (journal_slugs (Sample.cfg 2023 2023 (Some 0))) with (Some ["j"]).
  change (total_progress_callback (Sample.cfg 2023 2023 (Some 0)))
    with (@None (Z -> Z -> string -> Z -> Z -> string -> cb_result)).
  unfold with_playwright.
  change (playwright_ok (Sample.crowded n)) with true.
  change (playwright_stops (Sample.crowded n)) with true. cbn [negb].
  cbn [journals_loop]. unfold crawl_journal, close_browser.
  change (makedirs_ok (Sample.crowded n) ?p) with true.
  change (launch (Sample.crowded n) "j") with Ready.
  change (close_ok (Sample.crowded n) "j") with true. cbn [negb].
  change (year_range _ _) with [2023].
  cbn [years_loop pages_loop].
  change (at_limit (Sample.cfg 2023 2023 (Some 0)) ?s) with false. cbn iota.
  change (listing (Sample.crowded n) "j" 2023 1) with (Some (repeat Sample.cardA n)).
  change (listing (Sample.crowded n) "j" 2023 2) with (@Some (list card) []).
  destruct n as [|m] eqn:En.
  - cbn [repeat]. eexists. split; [reflexivity | reflexivity].
  - rewrite <- En.
    destruct (crowded_page n (emit (EvListing "j" 2023 1) (emit (EvLaunch "j") init_state)))
      as (st2 & Hloop & Hlen).
    rewrite En in Hloop |- *. cbn [repeat] in Hloop |- *. rewrite Hloop.
    cbn iota. eexists. split; [reflexivity|].
    rewrite saved_files_finish. cbn [saved_files emit init_state length] in Hlen |- *.
    lia.
Qed.

End Crowded.

Example limit_checks_skip_zero :
  limit_reached (Some 0) 5 = false /\ limit_reached (Some 3) 5 = true
  /\ limit_reached (Some (-3)) 0 = true /\ limit_reached None 5 = false.
Proof. repeat split. Qed.

(** C10. The limit 0 is no limit: every limit check is false for it, as for
    [None]; a run with limit 0 is the run with no limit; and such a run can
    save any number of records. *)
Theorem limit_zero_disables_the_limit :
  (forall found, limit_reached (Some 0) found = false
                 /\ limit_reached None found = false)
  /\ (forall W cfg fuel,
        crawl_text_nature_async W (with_limit cfg (Some 0)) fuel
        = crawl_text_nature_async W (with_limit cfg None) fuel)
  /\ (forall n, exists W cfg fuel st,
        limit cfg = Some 0
        /\ crawl_text_nature_async W cfg fuel = (Normal, st)
        /\ length (saved_files st) = n).
Proof.
  split; [by split|]. split.
  - (* Both limit checks compute to [false], so the two runs unfold to the
       same term. *)
    intros W cfg fuel. reflexivity.
  - intros n. destruct (crowded_run n) as (st & Hrun & Hlen).
    by exists (Sample.crowded n), (Sample.cfg 2023 2023 (Some 0)), 2%nat, st.
Qed.

(** ** Repeated articles *)

Section Counting.

Variable W : World.
Variable cfg : Config.

(** The counter is the number of saved records, and the three result lists
    grow together. *)
Lemma counted_run fuel :
  found_count (snd (crawl_text_nature_async W cfg fuel))
  = Z.of_nat (length (saved_files (snd (crawl_text_nature_async W cfg fuel))))
  /\ length (article_metadata (snd (crawl_text_nature_async W cfg fuel)))
     = length (saved_files (snd (crawl_text_nature_async W cfg fuel)))
  /\ length (open_access_articles (snd (crawl_text_nature_async W cfg fuel)))
     = length (saved_files (snd (crawl_text_nature_async W cfg fuel))).
Proof.
  apply (crawl_inv_plain W cfg
    (fun st => found_count st = Z.of_nat (length (saved_files st))
               /\ length (article_metadata st) = length (saved_files st)
               /\ length (open_access_articles st) = length (saved_files st))
    (fun _ _ _ => True)); try done.
  intros slug st art (Hc & Hm & Ho) _.
  destruct (article_step_shape W cfg slug st art)
    as [-> | (url & evs & _ & [[_ ->] | [_ (p & t & d & ->)]])]; [done | done |].
  cbn [found_count saved_files article_metadata open_access_articles emits record_saved].
  rewrite !length_app. simpl. lia.
Qed.

Lemma extract_count_app url evs1 evs2 :
  extract_count url (evs1 ++ evs2)
  = (extract_count url evs1 + extract_count url evs2)%nat.
Proof. unfold extract_count. by rewrite List.filter_app, length_app. Qed.

Lemma extract_count_notices url evs :
  Forall (fun e => is_notice e = true) evs -> extract_count url evs = 0%nat.
Proof.
  induction 1 as [|e evs He _ IH]; [done|].
  change (e :: evs) with ([e] ++ evs)%list. rewrite extract_count_app, IH.
  by destruct e.
Qed.

(** An accepted card whose link resolves is requested exactly once by its
    iteration, whatever the state holds. *)
Lemma process_stub_requests slug art s url st :
  extract_count url (log (process_stub W cfg slug art s url st))
  = S (extract_count url (log st)).
Proof.
  assert (Hone : extract_count url [EvExtract url] = 1%nat).
  { unfold extract_count. simpl. by rewrite String.eqb_refl. }
  unfold process_stub.
  destruct (extract_fulltext_nature_as_json _ _ _) as [j|].
  2:{ cbn [log emit]. change (?a :: ?b :: ?l) with ([a] ++ [b] ++ l)%list.
      rewrite !extract_count_app, Hone. reflexivity. }
  destruct (save_json_to_file W _ _).
  2:{ cbn [log emit].
      change (?a :: ?b :: ?c :: ?d :: ?l) with ([a; b; c] ++ [d] ++ l)%list.
      rewrite !extract_count_app, Hone. reflexivity. }
  edestruct (notify_shape cfg) as [evs [-> Hev]].
  cbn [log emit emits record_saved].
  change (EvSleep :: ?l) with ([EvSleep] ++ l)%list.
  change (?a :: ?b :: log st) with ([a] ++ [b] ++ log st)%list.
  rewrite !extract_count_app, Hone, (extract_count_notices url evs Hev). reflexivity.
Qed.

End Counting.

(** C1, as stated, fails: an article listed on two pages is requested, saved
    and counted twice. *)
Lemma repeated_stub_is_saved_twice :
  listing Sample.overlap "j" 2023 1 = Some [Sample.cardA]
  /\ listing Sample.overlap "j" 2023 2 = Some [Sample.cardA]
  /\ article_metadata
       (snd (crawl_text_nature_async Sample.overlap (Sample.cfg 2023 2023 None) 5))
     = [("out/j/Paper A_2023.json", "Paper A", "2023-05-17");
        ("out/j/Paper A_2023.json", "Paper A", "2023-05-17")]
  /\ found_count
       (snd (crawl_text_nature_async Sample.overlap (Sample.cfg 2023 2023 None) 5)) = 2
  /\ extract_count "https://www.nature.com/articles/a1"
       (trace (snd (crawl_text_nature_async Sample.overlap (Sample.cfg 2023 2023 None) 5)))
     = 2%nat
  /\ ~ NoDup (saved_files
               (snd (crawl_text_nature_async Sample.overlap (Sample.cfg 2023 2023 None) 5))).
Proof.
  repeat split; try (vm_compute; reflexivity).
  assert (Hs : saved_files
                 (snd (crawl_text_nature_async Sample.overlap (Sample.cfg 2023 2023 None) 5))
               = ["out/j/Paper A_2023.json"; "out/j/Paper A_2023.json"])
    by (vm_compute; reflexivity).
  rewrite Hs. intros Hnd. apply NoDup_cons in Hnd as [Hnin _].
  apply Hnin. by left.
Qed.

(** C1 (amended). The crawl keeps no set of articles already saved.  Each
    accepted card met below the limit whose link resolves is requested once
    more, whatever the results and the history already hold; when its
    extraction and its save succeed it is appended to the results and counted
    again.  The counter is at all times the number of saved records, one per
    saved occurrence. *)
Theorem every_occurrence_is_saved (W : World) (cfg : Config) :
  (forall fuel,
     found_count (snd (crawl_text_nature_async W cfg fuel))
     = Z.of_nat (length (saved_files (snd (crawl_text_nature_async W cfg fuel))))
     /\ length (article_metadata (snd (crawl_text_nature_async W cfg fuel)))
        = length (saved_files (snd (crawl_text_nature_async W cfg fuel))))
  /\
  (forall slug st art s url,
     accept cfg art = Some s ->
     at_limit cfg st = false ->
     urljoin W (article_href s) = Some url ->
     exists st',
       articles_loop W cfg slug st [art] = (Normal, st')
       /\ extract_count url (log st') = S (extract_count url (log st))
       /\ forall j,
            extract_fulltext_nature_as_json (article_doc W url) url (now W) = Some j ->
            writable W (PyStr.path_join (PyStr.path_join (out_folder cfg) slug)
                          (json_filename_of (title_of st art) (article_year s))) = true ->
            saved_files st'
            = (saved_files st
               ++ [PyStr.path_join (PyStr.path_join (out_folder cfg) slug)
                     (json_filename_of (title_of st art) (article_year s))])%list
            /\ article_metadata st'
               = (article_metadata st
                  ++ [(PyStr.path_join (PyStr.path_join (out_folder cfg) slug)
                         (json_filename_of (title_of st art) (article_year s)),
                       title_of st art, article_date s)])%list
            /\ found_count st' = found_count st + 1).
Proof.
  split.
  - intros fuel. destruct (counted_run W cfg fuel) as (Hc & Hm & _). by split.
  - intros slug st art s url Hacc Hlim Hurl.
    exists (process_stub W cfg slug art s url st).
    split; [|split].
    + cbn [articles_loop]. rewrite Hlim. unfold article_step. by rewrite Hacc, Hurl.
    + apply process_stub_requests.
    + intros j Hext Hw. unfold process_stub. rewrite Hext.
      unfold save_json_to_file. rewrite Hw.
      edestruct (notify_shape cfg) as [evs [-> _]].
      cbn [saved_files article_metadata found_count log emit emits record_saved].
      by repeat split.
Qed.

Lemma every_occurrence_is_saved_sample :
  exists st',
    articles_loop Sample.overlap (Sample.cfg 2023 2023 None) "j"
      (MkState ["out/j/Paper A_2023.json"] ["Paper A"]
         [("out/j/Paper A_2023.json", "Paper A", "2023-05-17")] 1
         [EvSleep; EvSave "out/j/Paper A_2023.json" true;
          EvExtract "https://www.nature.com/articles/a1"])
      [Sample.cardA]
    = (Normal, st')
    /\ extract_count "https://www.nature.com/articles/a1" (log st') = 2%nat
    /\ saved_files st' = ["out/j/Paper A_2023.json"; "out/j/Paper A_2023.json"]
    /\ found_count st' = 2.
Proof.
  destruct (proj2 (every_occurrence_is_saved Sample.overlap (Sample.cfg 2023 2023 None))
              "j"
              (MkState ["out/j/Paper A_2023.json"] ["Paper A"]
                 [("out/j/Paper A_2023.json", "Paper A", "2023-05-17")] 1
                 [EvSleep; EvSave "out/j/Paper A_2023.json" true;
                  EvExtract "https://www.nature.com/articles/a1"])
              Sample.cardA (Stub 2023 "2023-05-17" "/articles/a1")
              "https://www.nature.com/articles/a1")
    as (st' & Hloop & Hreq & Hsave); try (vm_compute; reflexivity).
  destruct (Hsave (assemble "https://www.nature.com/articles/a1" "t0" Sample.with_title))
    as (Hs & _ & Hc); try (vm_compute; reflexivity).
  exists st'. split; [exact Hloop|]. split; [exact Hreq|]. split; [exact Hs | exact Hc].
Defined.

(** * Further properties of the code *)

(** ** Strings and paths *)

Section StringFacts.

Implicit Types (s t : string) (c : ascii) (f : ascii -> bool).

Local Arguments String.append : simpl nomatch.

Lemma string_app_assoc s t u : (s +:+ t) +:+ u = s +:+ (t +:+ u).
Proof. induction s as [|c s IH]; simpl; [done | by rewrite IH]. Qed.

Lemma string_app_nil_r s : s +:+ EmptyString = s.
Proof. induction s as [|c s IH]; simpl; [done | by rewrite IH]. Qed.

Lemma string_length_app s t :
  String.length (s +:+ t) = (String.length s + String.length t)%nat.
Proof. induction s as [|c s IH]; simpl; [done | by rewrite IH]. Qed.

Lemma string_forall_app f s t :
  string_forall f (s +:+ t) = string_forall f s && string_forall f t.
Proof. induction s as [|c s IH]; simpl; [done | by rewrite IH, andb_assoc]. Qed.

Lemma string_forall_impl f g s :
  (forall c, f c = true -> g c = true) ->
  string_forall f s = true -> string_forall g s = true.
Proof.
  intros Hfg. induction s as [|c s IH]; simpl; [done|].
  intros [Hc Hs]%andb_true_iff. by rewrite (Hfg c Hc), IH.
Qed.

(** A string that is not empty has a last character. *)
Lemma string_last s : s <> EmptyString -> exists t c, s = t +:+ String c EmptyString.
Proof.
  induction s as [|c s IH]; [done|]. intros _.
  destruct s as [|d s]; [by exists EmptyString, c|].
  destruct IH as (t & e & Ht); [done|]. exists (String c t), e. simpl. by rewrite Ht.
Qed.

Lemma string_rev_app_snoc t c acc :
  String.rev_app (t +:+ String c EmptyString) acc = String c (String.rev_app t acc).
Proof. revert acc. induction t as [|d t IH]; intros acc; simpl; [done | by rewrite IH]. Qed.

Lemma string_rev_snoc t c :
  String.rev (t +:+ String c EmptyString) = String c (String.rev t).
Proof. apply string_rev_app_snoc. Qed.

Lemma ends_with_slash_snoc t c :
  PyStr.ends_with_slash (t +:+ String c EmptyString) = Ascii.eqb c "/"%char.
Proof. unfold PyStr.ends_with_slash. by rewrite string_rev_snoc. Qed.

Lemma ends_with_slash_true s :
  PyStr.ends_with_slash s = true -> exists t, s = t +:+ "/".
Proof.
  intros H. destruct (decide (s = EmptyString)) as [->|Hne]; [done|].
  destruct (string_last s Hne) as (t & c & ->). rewrite ends_with_slash_snoc in H.
  apply Ascii.eqb_eq in H as ->. by exists t.
Qed.

Lemma has_slash_app s t :
  PyPath.has_slash (s +:+ t) = PyPath.has_slash s || PyPath.has_slash t.
Proof. induction s as [|c s IH]; simpl; [done | by rewrite IH, orb_assoc]. Qed.

Lemma has_slash_forall s :
  PyPath.has_slash s = false <->
  string_forall (fun c => negb (Ascii.eqb c "/"%char)) s = true.
Proof.
  induction s as [|c s IH]; simpl; [done|].
  rewrite orb_false_iff, andb_true_iff, IH, negb_true_iff. done.
Qed.

Lemma basename_no_slash s : PyPath.has_slash s = false -> PyPath.basename s = s.
Proof.
  destruct s as [|c s]; simpl; [done|].
  intros [Hc Hs]%orb_false_iff. by rewrite Hs, Hc.
Qed.

(** What follows the last slash. *)
Lemma basename_app_slash s t :
  PyPath.has_slash t = false -> PyPath.basename (s +:+ "/" +:+ t) = t.
Proof.
  intros Ht. induction s as [|c s IH]; simpl.
  - by rewrite Ht.
  - rewrite has_slash_app. simpl. by rewrite orb_true_r.
Qed.

Lemma head_app_slash s t :
  PyPath.has_slash t = false -> PyPath.head (s +:+ "/" +:+ t) = s +:+ "/".
Proof.
  intros Ht. induction s as [|c s IH]; simpl in *.
  - by rewrite Ht.
  - rewrite has_slash_app. simpl. by rewrite orb_true_r, IH.
Qed.

Lemma rstrip_slash_snoc t c :
  Ascii.eqb c "/"%char = false ->
  PyPath.rstrip_slash (t +:+ String c "/") = t +:+ String c EmptyString.
Proof.
  intros Hc. induction t as [|d t IH]; simpl.
  - by rewrite Hc.
  - rewrite IH. by destruct t.
Qed.

Lemma all_slashes_app s t :
  PyPath.all_slashes (s +:+ t) = PyPath.all_slashes s && PyPath.all_slashes t.
Proof. induction s as [|c s IH]; simpl; [done | by rewrite IH, andb_assoc]. Qed.

(** The directory of [d/name] is [d] when [d] ends with a character other
    than a slash and [name] holds no slash. *)
Lemma dirname_app_slash t c name :
  Ascii.eqb c "/"%char = false -> PyPath.has_slash name = false ->
  PyPath.dirname ((t +:+ String c EmptyString) +:+ "/" +:+ name)
  = t +:+ String c EmptyString.
Proof.
  intros Hc Hn. unfold PyPath.dirname. rewrite (head_app_slash _ _ Hn).
  assert (Hne : nonempty ((t +:+ String c EmptyString) +:+ "/") = true)
    by (by destruct t).
  assert (Hall : PyPath.all_slashes ((t +:+ String c EmptyString) +:+ "/") = false).
  { rewrite !all_slashes_app. simpl. rewrite Hc. by rewrite andb_false_r. }
  rewrite Hne, Hall. cbn [andb negb]. rewrite string_app_assoc.
  by apply rstrip_slash_snoc.
Qed.

Lemma startswith_slash_false s :
  s <> EmptyString -> PyPath.has_slash s = false -> PyStr.startswith "/" s = false.
Proof.
  destruct s as [|c s]; [done|]. intros _ H. cbn [PyPath.has_slash] in H.
  apply orb_false_iff in H as [Hc _].
  change (PyStr.startswith "/" (String c s))
    with (if Ascii.eqb "/"%char c then true else false).
  by destruct (Ascii.eqb_spec "/"%char c) as [<-|].
Qed.

Lemma path_join_under dir name :
  name <> EmptyString -> PyPath.has_slash name = false ->
  PyStr.path_join dir name = name
  \/ exists d, PyStr.path_join dir name = d +:+ "/" +:+ name.
Proof.
  intros Hne Hn. unfold PyStr.path_join. rewrite (startswith_slash_false _ Hne Hn).
  destruct (String.eqb_spec dir EmptyString) as [->|Hd]; simpl; [by left|].
  destruct (PyStr.ends_with_slash dir) eqn:E.
  - apply ends_with_slash_true in E as [d ->]. right. exists d.
    by rewrite string_app_assoc.
  - right. by exists dir.
Qed.

(** Joining a name without slashes under a folder, then taking the name of
    the folder of something directly inside it, gives the name back. *)
Lemma basename_dirname_join dir name file :
  name <> EmptyString -> PyPath.has_slash name = false ->
  file <> EmptyString -> PyPath.has_slash file = false ->
  PyPath.basename (PyPath.dirname (PyStr.path_join (PyStr.path_join dir name) file))
  = name.
Proof.
  intros Hne Hn Hfe Hf.
  destruct (string_last name Hne) as (n' & c & Hlast).
  assert (Hc : Ascii.eqb c "/"%char = false).
  { rewrite Hlast, has_slash_app in Hn. apply orb_false_iff in Hn as [_ Hn].
    simpl in Hn. by apply orb_false_iff in Hn as [Hn _]. }
  assert (Hfolder : exists t, PyStr.path_join dir name = t +:+ String c EmptyString
                              /\ PyPath.basename (PyStr.path_join dir name) = name).
  { destruct (path_join_under dir name Hne Hn) as [-> | [d ->]].
    - exists n'. split; [done | by apply basename_no_slash].
    - exists (d +:+ "/" +:+ n'). split; [|by apply basename_app_slash].
      by rewrite Hlast, !string_app_assoc. }
  destruct Hfolder as (t & Hfolder & Hbase).
  assert (Hjoin : PyStr.path_join (PyStr.path_join dir name) file
                  = PyStr.path_join dir name +:+ "/" +:+ file).
  { unfold PyStr.path_join at 1. rewrite (startswith_slash_false _ Hfe Hf).
    rewrite Hfolder at 1 2. rewrite ends_with_slash_snoc, Hc.
    destruct (String.eqb_spec (t +:+ String c EmptyString) EmptyString) as [E|_];
      [by destruct t|]. simpl. by rewrite Hfolder. }
  rewrite Hjoin. rewrite Hfolder at 1. rewrite (dirname_app_slash t c file Hc Hf).
  by rewrite <- Hfolder.
Qed.

End StringFacts.

(** ** File names *)

Section FileNames.

Local Arguments String.append : simpl nomatch.

Lemma sanitize_safe s :
  string_forall (fun c => negb (unsafe_char c)) (sanitize s) = true.
Proof.
  induction s as [|c s IH]; simpl; [done|]. rewrite IH, andb_true_r.
  by destruct (unsafe_char c) eqn:E; [|rewrite E].
Qed.

Lemma sanitize_length s : String.length (sanitize s) = String.length s.
Proof. induction s as [|c s IH]; simpl; [done | by rewrite IH]. Qed.

Lemma unsafe_not_continuation c :
  unsafe_char c = true -> PyStr.is_continuation c = false.
Proof.
  unfold unsafe_char. cbn [existsb]. rewrite !orb_true_iff.
  intros H. repeat (destruct H as [H|H]; [apply Ascii.eqb_eq in H; by subst|]). done.
Qed.

Lemma len_app s t : PyStr.len (s +:+ t) = (PyStr.len s + PyStr.len t)%nat.
Proof.
  induction s as [|c s IH]; simpl; [done|].
  destruct (PyStr.is_continuation c); [done | by rewrite IH].
Qed.

Lemma len_le_length s : (PyStr.len s <= String.length s)%nat.
Proof.
  induction s as [|c s IH]; simpl; [done|]. destruct (PyStr.is_continuation c); lia.
Qed.

(** Replacing unsafe characters keeps the number of characters. *)
Lemma sanitize_len s : PyStr.len (sanitize s) = PyStr.len s.
Proof.
  induction s as [|c s IH]; simpl; [done|]. rewrite IH.
  destruct (unsafe_char c) eqn:E; [|done].
  by rewrite (unsafe_not_continuation c E).
Qed.

(** A slice [s[:n]] has at most [n] characters, and at most [n] bytes when
    [s] is ASCII. *)
Lemma take_chars_len n s : (PyStr.len (PyStr.take_chars n s) <= n)%nat.
Proof.
  revert n. induction s as [|c s IH]; intros n; simpl; [lia|].
  destruct (PyStr.is_continuation c) eqn:E; simpl; rewrite ?E; [apply IH|].
  destruct n as [|n]; simpl; rewrite ?E; [lia|]. specialize (IH n). lia.
Qed.

Lemma ascii_not_continuation c :
  PyStr.is_ascii c = true -> PyStr.is_continuation c = false.
Proof.
  unfold PyStr.is_ascii, PyStr.is_continuation. intros H%N.ltb_lt.
  destruct (N.leb_spec 128 (N_of_ascii c)); [lia | done].
Qed.

Lemma take_chars_length n s :
  string_forall PyStr.is_ascii s = true ->
  (String.length (PyStr.take_chars n s) <= n)%nat.
Proof.
  revert n. induction s as [|c s IH]; intros n; simpl; [lia|].
  intros [Hc Hs]%andb_true_iff. rewrite (ascii_not_continuation c Hc).
  destruct n as [|n]; simpl; [lia|]. specialize (IH n Hs). lia.
Qed.

Lemma pretty_N_char_safe (x : N) : unsafe_char (pretty_N_char x) = false.
Proof. unfold pretty_N_char. by repeat case_match. Qed.

Lemma pretty_N_go_safe (x : N) s :
  string_forall (fun c => negb (unsafe_char c)) s = true ->
  string_forall (fun c => negb (unsafe_char c)) (pretty_N_go x s) = true.
Proof.
  revert s. induction (N.lt_wf_0 x) as [x _ IH]; intros s Hs.
  destruct (decide (x = 0)%N) as [->|Hx]; [by rewrite pretty_N_go_0|].
  rewrite pretty_N_go_step by lia. apply IH; [apply N.div_lt; lia|].
  simpl. by rewrite pretty_N_char_safe, Hs.
Qed.

Lemma pretty_N_safe (x : N) :
  string_forall (fun c => negb (unsafe_char c)) (pretty x) = true.
Proof.
  unfold pretty, pretty_N. case_decide; [done|]. by apply pretty_N_go_safe.
Qed.

(** [str(y)] holds digits and possibly a minus sign. *)
Lemma pretty_Z_safe (y : Z) :
  string_forall (fun c => negb (unsafe_char c)) (pretty y) = true.
Proof.
  destruct y as [|p|p]; [done | apply (pretty_N_safe (Npos p)) |].
  change (pretty (Z.neg p)) with ("-" +:+ pretty (Npos p)).
  rewrite string_forall_app. by rewrite (pretty_N_safe (Npos p)).
Qed.

End FileNames.

Example basename_samples :
  PyPath.basename "out/j/Paper A_2023.json" = "Paper A_2023.json"
  /\ PyPath.basename "out/j/" = EmptyString
  /\ PyPath.basename "plain" = "plain".
Proof. repeat split. Qed.

Example dirname_samples :
  PyPath.dirname "out/j/Paper A_2023.json" = "out/j"
  /\ PyPath.dirname "/file" = "/"
  /\ PyPath.dirname "a//b" = "a"
  /\ PyPath.dirname "plain" = EmptyString
  /\ PyPath.dirname "///x" = "///".
Proof. repeat split. Qed.

(** X1. The file name of a saved article holds none of the characters
    < > : / | ? *, double quote, backslash, in particular no path separator,
    whatever the title; and it is at most 106 characters longer than the
    decimal form of the year, which for an ASCII title is a bound on its
    bytes as well. *)
Theorem json_filename_is_safe (title : string) (y : Z) :
  string_forall (fun c => negb (unsafe_char c)) (json_filename_of title y) = true
  /\ PyPath.has_slash (json_filename_of title y) = false
  /\ (PyStr.len (json_filename_of title y) <= 106 + String.length (pretty y))%nat
  /\ (string_forall PyStr.is_ascii title = true ->
      (String.length (json_filename_of title y) <= 106 + String.length (pretty y))%nat).
Proof.
  assert (Hsafe : string_forall (fun c => negb (unsafe_char c))
                    (json_filename_of title y) = true).
  { unfold json_filename_of. rewrite !string_forall_app.
    by rewrite sanitize_safe, pretty_Z_safe. }
  split; [done|]. split; [|split].
  - apply has_slash_forall. revert Hsafe. apply string_forall_impl.
    intros c Hc. destruct (Ascii.eqb_spec c "/"%char) as [->|]; [done | done].
  - unfold json_filename_of. rewrite !len_app, sanitize_len.
    pose proof (take_chars_len 100 title). pose proof (len_le_length (pretty y)).
    change (PyStr.len "_") with 1%nat. change (PyStr.len ".json") with 5%nat.
    lia.
  - intros Hascii. unfold json_filename_of. rewrite !string_length_app, sanitize_length.
    pose proof (take_chars_length 100 title Hascii).
    change (String.length "_") with 1%nat. change (String.length ".json") with 5%nat.
    lia.
Qed.

Lemma json_filename_is_safe_sample :
  (String.length (json_filename_of "What is a cell? A/B test: 1" 2023)
   <= 106 + String.length (pretty 2023))%nat.
Proof.
  apply (json_filename_is_safe "What is a cell? A/B test: 1" 2023). reflexivity.
Defined.

(** ** What a run touches *)

Lemma year_range_spec (a b y : Z) : In y (year_range a b) <-> a <= y <= b.
Proof.
  unfold year_range. rewrite in_map_iff. split.
  - intros (i & <- & Hi). apply in_seq in Hi. lia.
  - intros Hy. exists (Z.to_nat (b - y)). split; [lia|]. apply in_seq. lia.
Qed.

(** What the filters of the article loop let through. *)
Lemma accept_sound (cfg : Config) (art : card) (s : stub) :
  accept cfg art = Some s ->
  exists m, meta_section art = Some m /\ oa_label m = true
            /\ date_elem m = Some (article_date s)
            /\ PyStr.int (PyStr.take_chars 4 (article_date s)) = Some (article_year s)
            /\ year_from cfg <= article_year s <= year_to cfg
            /\ article_link art = Some (article_href s)
            /\ article_href s <> EmptyString.
Proof.
  unfold accept. destruct (meta_section art) as [m|]; [|done].
  destruct (oa_label m) eqn:Hoa; [|done]. cbn [negb].
  destruct (date_elem m) as [date|] eqn:Hd; [|done].
  destruct (PyStr.int (PyStr.take_chars 4 date)) as [y|] eqn:Hy; [|done].
  destruct (Z.leb_spec (year_from cfg) y), (Z.leb_spec y (year_to cfg));
    cbn [andb negb]; try done.
  destruct (article_link art) as [href|]; [|done].
  destruct (nonempty href) eqn:Hne; [|done].
  intros [= <-]. exists m. cbn [article_date article_year article_href].
  assert (href <> EmptyString) by (intros ->; discriminate Hne).
  by repeat split.
Qed.

Section Scope.

Variable W : World.
Variable cfg : Config.

Lemma run_in_scope_emit e st :
  in_scope W cfg e -> run_in_scope W cfg st -> run_in_scope W cfg (emit e st).
Proof. intros He [Hl Hm]. split; [by constructor | done]. Qed.

Lemma run_in_scope_emits evs st :
  Forall (in_scope W cfg) evs -> run_in_scope W cfg st -> run_in_scope W cfg (emits evs st).
Proof. intros He [Hl Hm]. split; [by apply Forall_app | done]. Qed.

Lemma article_step_scope slug y p arts art st :
  In slug (default [] (journal_slugs cfg)) ->
  year_from cfg <= y <= year_to cfg ->
  listing W slug y p = Some arts -> In art arts ->
  run_in_scope W cfg st -> run_in_scope W cfg (snd (article_step W cfg slug st art)).
Proof.
  intros Hslug Hy Hl Hart Hst. unfold article_step.
  destruct (accept cfg art) as [s|] eqn:Hacc; [|done].
  destruct (accept_sound cfg art s Hacc) as (m & _ & _ & _ & Hint & Hrange & _ & _).
  destruct (urljoin W (article_href s)) as [url|] eqn:Hurl; [|done]. cbn [snd].
  assert (Hext : in_scope W cfg (EvExtract url))
    by (by exists slug, y, p, arts, art, s).
  assert (Hsave : forall ok, in_scope W cfg
            (EvSave (PyStr.path_join (PyStr.path_join (out_folder cfg) slug)
                       (json_filename_of (title_of st art) (article_year s))) ok))
    by (intros ok; by exists slug, (title_of st art), (article_year s)).
  unfold process_stub.
  destruct (extract_fulltext_nature_as_json _ _ _) as [j|].
  2:{ apply run_in_scope_emit; [done|]. by apply run_in_scope_emit. }
  destruct (save_json_to_file W _ _).
  2:{ do 2 (apply run_in_scope_emit; [done|]).
      apply run_in_scope_emit; [apply Hsave|]. by apply run_in_scope_emit. }
  edestruct (notify_shape cfg) as [evs [-> Hev]].
  apply run_in_scope_emit; [done|]. apply run_in_scope_emits.
  { eapply Forall_impl; [exact Hev|]. intros e He. by destruct e. }
  destruct Hst as [Hlog Hmeta]. split.
  - cbn [log record_saved emit]. constructor; [apply Hsave|]. by constructor.
  - cbn [article_metadata record_saved emit]. apply Forall_app. split; [done|].
    constructor; [|done]. by exists slug, (article_year s).
Qed.

Lemma articles_loop_scope slug y p arts part st :
  In slug (default [] (journal_slugs cfg)) ->
  year_from cfg <= y <= year_to cfg ->
  listing W slug y p = Some arts -> (forall art, In art part -> In art arts) ->
  run_in_scope W cfg st ->
  run_in_scope W cfg (snd (articles_loop W cfg slug st part)).
Proof.
  intros Hslug Hy Hl. revert st.
  induction part as [|art part IH]; intros st Hsub Hst; simpl; [done|].
  destruct (at_limit cfg st); [done|].
  pose proof (article_step_scope slug y p arts art st Hslug Hy Hl
                (Hsub art (or_introl eq_refl)) Hst) as H1.
  destruct (article_step W cfg slug st art) as [[] st1]; simpl in H1; [|done|done].
  apply IH; [|done]. intros a Ha. apply Hsub. by right.
Qed.

Lemma pages_loop_scope fuel slug y st p :
  In slug (default [] (journal_slugs cfg)) ->
  year_from cfg <= y <= year_to cfg -> (1 <= p)%nat ->
  run_in_scope W cfg st ->
  run_in_scope W cfg (snd (pages_loop W cfg fuel slug y st p)).
Proof.
  intros Hslug Hy. revert st p.
  induction fuel as [|fuel IH]; intros st p Hp Hst; cbn [pages_loop]; [done|].
  destruct (at_limit cfg st); [done|].
  assert (Hst1 : run_in_scope W cfg (emit (EvListing slug y p) st))
    by (by apply run_in_scope_emit).
  destruct (listing W slug y p) as [[|art arts]|] eqn:Hl; [done | | done].
  pose proof (articles_loop_scope slug y p (art :: arts) (art :: arts) _ Hslug Hy Hl
                (fun _ H => H) Hst1) as H2.
  destruct (articles_loop W cfg slug _ (art :: arts)) as [[] st2]; simpl in H2;
    [|done|done].
  destruct (at_limit cfg st2); [done|]. apply IH; [lia | done].
Qed.

Lemma years_loop_scope fuel slug years st :
  In slug (default [] (journal_slugs cfg)) ->
  (forall y, In y years -> year_from cfg <= y <= year_to cfg) ->
  run_in_scope W cfg st ->
  run_in_scope W cfg (snd (years_loop W cfg fuel slug st years)).
Proof.
  intros Hslug. revert st.
  induction years as [|y years IH]; intros st Hys Hst; cbn [years_loop]; [done|].
  destruct (at_limit cfg st); [done|].
  pose proof (pages_loop_scope fuel slug y st 1 Hslug (Hys y (or_introl eq_refl))
                (le_n 1) Hst) as Hp.
  destruct (pages_loop W cfg fuel slug y st 1) as [[] st']; simpl in Hp; try done.
  apply IH; [|done]. intros y' Hy'. apply Hys. by right.
Qed.

Lemma crawl_journal_scope fuel st slug :
  In slug (default [] (journal_slugs cfg)) ->
  run_in_scope W cfg st ->
  run_in_scope W cfg (snd (crawl_journal W cfg fuel st slug)).
Proof.
  intros Hslug Hst. unfold crawl_journal, close_browser.
  destruct (makedirs_ok W _); cbn [negb]; [|done].
  destruct (launch W slug); [done | by apply (run_in_scope_emit (EvLaunch slug)) |].
  pose proof (years_loop_scope fuel slug (year_range (year_from cfg) (year_to cfg))
                (emit (EvLaunch slug) st) Hslug
                (fun y Hy => proj1 (year_range_spec _ _ y) Hy)
                (run_in_scope_emit (EvLaunch slug) st Hslug Hst)) as Hy.
  destruct (years_loop _ _ _ _ _ _) as [[] st'], (close_ok W slug);
    simpl in Hy |- *; try done.
  - by apply (run_in_scope_emit (EvClose slug)).
  - by apply (run_in_scope_emit (EvCloseFails slug)).
  - apply (run_in_scope_emit (EvClose slug)); [done|].
    by apply (run_in_scope_emit (EvErrJournal slug)).
  - apply (run_in_scope_emit (EvCloseFails slug)); [done|].
    by apply (run_in_scope_emit (EvErrJournal slug)).
Qed.

Lemma journals_loop_scope fuel slugs st :
  (forall slug, In slug slugs -> In slug (default [] (journal_slugs cfg))) ->
  run_in_scope W cfg st ->
  run_in_scope W cfg (snd (journals_loop W cfg fuel st slugs)).
Proof.
  revert st. induction slugs as [|slug slugs IH]; intros st Hsub Hst;
    cbn [journals_loop]; [done|].
  pose proof (crawl_journal_scope fuel st slug (Hsub slug (or_introl eq_refl)) Hst) as Hj.
  destruct (crawl_journal W cfg fuel st slug) as [[] st']; simpl in Hj; try done.
  apply IH; [|done]. intros s Hs. apply Hsub. by right.
Qed.

Lemma crawl_scope fuel :
  run_in_scope W cfg (snd (crawl_text_nature_async W cfg fuel)).
Proof.
  assert (H0 : run_in_scope W cfg init_state) by (by split).
  assert (Hfin : forall st, run_in_scope W cfg st -> run_in_scope W cfg (finish st)).
  { intros st Hst. unfold finish. destruct (saved_files st); [done|].
    by apply (run_in_scope_emit EvZip), (run_in_scope_emit EvCsv). }
  unfold crawl_text_nature_async.
  destruct (makedirs_ok W (out_folder cfg)); cbn [negb]; [|done].
  destruct (journal_slugs cfg) as [[|slug slugs]|] eqn:Hj; try by apply Hfin.
  assert (Hloop : forall st, run_in_scope W cfg st ->
            run_in_scope W cfg
              (snd (match with_playwright W cfg fuel st (slug :: slugs) with
                    | (Normal, st') => (Normal, finish st')
                    | other => other
                    end))).
  { intros st Hst. unfold with_playwright.
    destruct (playwright_ok W); cbn [negb]; [|done].
    pose proof (journals_loop_scope fuel (slug :: slugs) st) as Hl.
    rewrite Hj in Hl. specialize (Hl (fun _ H => H) Hst).
    destruct (journals_loop W cfg fuel st (slug :: slugs)) as [[] st'],
             (playwright_stops W); simpl in *; try done. by apply Hfin. }
  destruct (total_progress_callback cfg) as [cb|]; [|by apply Hloop].
  destruct (scan_call cb); [apply Hloop|]; by apply (run_in_scope_emit EvTotalProgress).
Qed.

End Scope.

Example scope_sample :
  trace (snd (crawl_text_nature_async Sample.overlap
                (MkConfig 2024 2023 "out" None (Some ["j"; "k"]) None None) 5))
  = [EvLaunch "j"; EvClose "j"; EvLaunch "k"; EvClose "k"].
Proof. vm_compute. reflexivity. Qed.

(** X2. A run loads listing pages only for the journals it was given, for
    years within [year_from, year_to], and for page numbers from 1 on. *)
Theorem listing_requests_in_scope (W : World) (cfg : Config) (fuel : nat)
    (slug : string) (y : Z) (p : nat) :
  In (EvListing slug y p) (trace (snd (crawl_text_nature_async W cfg fuel))) ->
  In slug (default [] (journal_slugs cfg))
  /\ year_from cfg <= y <= year_to cfg
  /\ (1 <= p)%nat.
Proof.
  intros Hin. unfold trace in Hin. apply in_rev in Hin.
  destruct (crawl_scope W cfg fuel) as [Hlog _].
  rewrite Forall_forall in Hlog. apply list_elem_of_In in Hin.
  exact (Hlog _ Hin).
Qed.

Lemma listing_requests_in_scope_sample :
  In "j" (default [] (journal_slugs (Sample.cfg 2023 2023 None)))
  /\ 2023 <= 2023 <= 2023 /\ (1 <= 2)%nat.
Proof.
  apply (listing_requests_in_scope Sample.overlap (Sample.cfg 2023 2023 None) 5 "j" 2023 2).
  vm_compute. auto 20.
Defined.

(** X3. Every article page a run requests belongs to a card of a listing
    page of one of its journals and years, and that card carries the
    open-access label, a date whose first four characters [int] reads as a
    year of [year_from, year_to], and a non-empty link, which [urljoin]
    resolves to the requested URL. *)
Theorem article_requests_are_accepted (W : World) (cfg : Config) (fuel : nat)
    (url : string) :
  In (EvExtract url) (trace (snd (crawl_text_nature_async W cfg fuel))) ->
  exists slug y p arts art m date year href,
    In slug (default [] (journal_slugs cfg))
    /\ year_from cfg <= y <= year_to cfg
    /\ listing W slug y p = Some arts /\ In art arts
    /\ meta_section art = Some m /\ oa_label m = true
    /\ date_elem m = Some date
    /\ PyStr.int (PyStr.take_chars 4 date) = Some year
    /\ year_from cfg <= year <= year_to cfg
    /\ article_link art = Some href /\ href <> EmptyString
    /\ urljoin W href = Some url.
Proof.
  intros Hin. unfold trace in Hin. apply in_rev in Hin.
  destruct (crawl_scope W cfg fuel) as [Hlog _].
  rewrite Forall_forall in Hlog. apply list_elem_of_In in Hin.
  destruct (Hlog _ Hin) as (slug & y & p & arts & art & s & Hs & Hy & Hl & Ha & Hacc & Hurl).
  destruct (accept_sound cfg art s Hacc) as (m & Hm & Hoa & Hd & Hint & Hr & Hlink & Hne).
  exists slug, y, p, arts, art, m, (article_date s), (article_year s), (article_href s).
  repeat split; try done; lia.
Qed.

Lemma article_requests_are_accepted_sample :
  exists slug y p arts art m date year href,
    In slug (default [] (journal_slugs (Sample.cfg 2022 2023 None)))
    /\ 2022 <= y <= 2023
    /\ listing Sample.second_fails slug y p = Some arts /\ In art arts
    /\ meta_section art = Some m /\ oa_label m = true
    /\ date_elem m = Some date
    /\ PyStr.int (PyStr.take_chars 4 date) = Some year
    /\ 2022 <= year <= 2023
    /\ article_link art = Some href /\ href <> EmptyString
    /\ urljoin Sample.second_fails href = Some "https://www.nature.com/articles/b2".
Proof.
  apply (article_requests_are_accepted Sample.second_fails (Sample.cfg 2022 2023 None) 5
           "https://www.nature.com/articles/b2").
  vm_compute. auto 20.
Defined.

(** ** The returned lists and the summary *)

Section Summary.

Variable W : World.
Variable cfg : Config.

Lemma aligned_run fuel : aligned (snd (crawl_text_nature_async W cfg fuel)).
Proof.
  apply (crawl_inv_plain W cfg aligned (fun _ _ _ => True)); try done.
  intros slug st art [Hs Ho] _.
  destruct (article_step_shape W cfg slug st art)
    as [-> | (url & evs & _ & [[_ ->] | [_ (p & t & d & ->)]])]; [done | done |].
  unfold aligned. cbn [saved_files article_metadata open_access_articles emits record_saved].
  rewrite !map_app, Hs, Ho. done.
Qed.

Lemma json_filename_plain title y :
  json_filename_of title y <> EmptyString
  /\ PyPath.has_slash (json_filename_of title y) = false.
Proof.
  split.
  - intros H. apply (f_equal String.length) in H. unfold json_filename_of in H.
    rewrite !string_length_app in H. change (String.length "_") with 1%nat in H.
    simpl in H. lia.
  - apply has_slash_forall. unfold json_filename_of. rewrite !string_forall_app.
    rewrite andb_true_iff. split.
    + eapply string_forall_impl; [|apply sanitize_safe].
      intros c Hc. by destruct (Ascii.eqb_spec c "/"%char) as [->|].
    + rewrite andb_true_iff. split; [done|]. rewrite andb_true_iff. split; [|done].
      eapply string_forall_impl; [|apply pretty_Z_safe].
      intros c Hc. by destruct (Ascii.eqb_spec c "/"%char) as [->|].
Qed.

End Summary.

(** X4. The two lists a run returns are the path column and the title column
    of its [article_metadata]: they have the same length, and the i-th path
    and the i-th title belong to the same saved article. *)
Theorem returned_lists_match_metadata (W : World) (cfg : Config) (fuel : nat) :
  length (saved_files (snd (crawl_text_nature_async W cfg fuel)))
  = length (open_access_articles (snd (crawl_text_nature_async W cfg fuel)))
  /\ forall i path title,
       saved_files (snd (crawl_text_nature_async W cfg fuel)) !! i = Some path ->
       open_access_articles (snd (crawl_text_nature_async W cfg fuel)) !! i = Some title ->
       exists date,
         article_metadata (snd (crawl_text_nature_async W cfg fuel)) !! i
         = Some (path, title, date).
Proof.
  destruct (aligned_run W cfg fuel) as [Hs Ho].
  set (st := snd (crawl_text_nature_async W cfg fuel)) in *.
  split.
  - rewrite <- Hs, <- Ho. by rewrite !length_map.
  - intros i path title Hp Ht. rewrite <- Hs in Hp. rewrite <- Ho in Ht.
    change (List.map ?f ?l) with (f <$> l) in Hp, Ht.
    rewrite list_lookup_fmap in Hp, Ht.
    destruct (article_metadata st !! i) as [[[p t] d]|]; [|done].
    simpl in Hp, Ht. injection Hp as ->. injection Ht as ->. by exists d.
Qed.

Lemma returned_lists_match_metadata_sample :
  exists date,
    article_metadata
      (snd (crawl_text_nature_async Sample.second_fails (Sample.cfg 2023 2023 None) 5))
      !! 0%nat
    = Some ("out/j/Paper A_2023.json", "Paper A", date).
Proof.
  apply (proj2 (returned_lists_match_metadata Sample.second_fails
                  (Sample.cfg 2023 2023 None) 5) 0%nat);
    vm_compute; reflexivity.
Defined.

Example summary_sample :
  csv_rows (fun _ => "1.00")
    (article_metadata
       (snd (crawl_text_nature_async Sample.second_fails (Sample.cfg 2022 2023 None) 1)))
  = [csv_header;
     ["1"; "j"; "Paper A"; "2023-05-17"; "out/j/Paper A_2023.json"; "1.00"];
     ["2"; "j"; "Paper C"; "2022-03-09"; "out/j/Paper C_2022.json"; "1.00"]].
Proof. vm_compute. reflexivity. Qed.

Example summary_slug_with_slash :
  csv_row (fun _ => "1.00") 1
    (PyStr.path_join (PyStr.path_join "out" "nature/physics")
       (json_filename_of "T" 2023), "T", "2023-01-01")
  = ["1"; "physics"; "T"; "2023-01-01"; "out/nature/physics/T_2023.json"; "1.00"].
Proof. vm_compute. reflexivity. Qed.

(** X5. The extraction summary has one header row and one row per saved
    article, numbered from 1 in the order of saving, each with the path and
    title the run returns at that position.  When no journal slug is empty or
    holds a slash, the Journal column of each row, which the code reads back
    from the folder of the file, is the slug of one of the journals given. *)
Theorem summary_rows_match_results (W : World) (cfg : Config) (fuel : nat)
    (size_text : string -> string) :
  (forall slug, In slug (default [] (journal_slugs cfg)) ->
     slug <> EmptyString /\ PyPath.has_slash slug = false) ->
  length (csv_rows size_text
            (article_metadata (snd (crawl_text_nature_async W cfg fuel))))
  = S (length (saved_files (snd (crawl_text_nature_async W cfg fuel))))
  /\ forall i row,
       csv_rows size_text (article_metadata (snd (crawl_text_nature_async W cfg fuel)))
         !! S i = Some row ->
       exists slug path title date,
         In slug (default [] (journal_slugs cfg))
         /\ saved_files (snd (crawl_text_nature_async W cfg fuel)) !! i = Some path
         /\ open_access_articles (snd (crawl_text_nature_async W cfg fuel)) !! i
            = Some title
         /\ row = [pretty (S i); slug; title; date; path; size_text path].
Proof.
  intros Hslugs.
  destruct (aligned_run W cfg fuel) as [Hs Ho].
  destruct (crawl_scope W cfg fuel) as [_ Hmeta].
  set (st := snd (crawl_text_nature_async W cfg fuel)) in *.
  split.
  - unfold csv_rows. cbn [length]. rewrite length_imap, <- Hs. by rewrite length_map.
  - intros i row Hrow. unfold csv_rows in Hrow.
    change ((csv_header :: ?l) !! S i) with (l !! i) in Hrow.
    rewrite list_lookup_imap in Hrow.
    destruct (article_metadata st !! i) as [[[path title] date]|] eqn:Hi; [|done].
    simpl in Hrow. injection Hrow as <-.
    rewrite Forall_forall in Hmeta.
    destruct (Hmeta _ (list_elem_of_lookup_2 _ _ _ Hi)) as (slug & y & Hin & _ & _ & Hpath).
    destruct (Hslugs slug Hin) as [Hne Hns].
    destruct (json_filename_plain title y) as [Hfe Hfs].
    exists slug, path, title, date. split; [done|].
    split. { rewrite <- Hs. change (List.map ?f ?l) with (f <$> l).
             by rewrite list_lookup_fmap, Hi. }
    split. { rewrite <- Ho. change (List.map ?f ?l) with (f <$> l).
             by rewrite list_lookup_fmap, Hi. }
    rewrite Hpath at 1. by rewrite (basename_dirname_join _ _ _ Hne Hns Hfe Hfs).
Qed.

Lemma summary_rows_match_results_sample :
  exists slug path title date,
    In slug (default [] (journal_slugs (Sample.cfg 2022 2023 None)))
    /\ saved_files
         (snd (crawl_text_nature_async Sample.second_fails (Sample.cfg 2022 2023 None) 1))
         !! 1%nat = Some path
    /\ open_access_articles
         (snd (crawl_text_nature_async Sample.second_fails (Sample.cfg 2022 2023 None) 1))
         !! 1%nat = Some title
    /\ ["2"; "j"; "Paper C"; "2022-03-09"; "out/j/Paper C_2022.json"; "1.00"]
       = [pretty 2%nat; slug; title; date; path; "1.00"].
Proof.
  apply (proj2 (summary_rows_match_results Sample.second_fails (Sample.cfg 2022 2023 None)
                  1 (fun _ => "1.00")
                  ltac:(intros slug [<-|[]]; split; [discriminate | reflexivity]))
           1%nat).
  vm_compute. reflexivity.
Defined.

(** ** Browsers *)

Section Browsers.

Variable W : World.
Variable cfg : Config.

Lemma open_browsers_other e evs :
  quiet e = false -> open_browsers (e :: evs) = open_browsers evs.
Proof. by destruct e. Qed.

Lemma one_browser_other e evs :
  quiet e = false -> 0 <= open_browsers evs <= 1 ->
  one_browser_at_a_time evs -> one_browser_at_a_time (e :: evs).
Proof.
  intros He Hb Hall. split; [|done]. by rewrite open_browsers_other.
Qed.

Lemma one_browser_others evs earlier :
  Forall (fun e => quiet e = false) evs ->
  0 <= open_browsers earlier <= 1 -> one_browser_at_a_time earlier ->
  open_browsers (evs ++ earlier) = open_browsers earlier
  /\ one_browser_at_a_time (evs ++ earlier).
Proof.
  intros Hev Hb Hall. induction Hev as [|e l He _ [IH1 IH2]]; [done|].
  change ((e :: l) ++ earlier)%list with (e :: (l ++ earlier))%list.
  rewrite open_browsers_other by done. split; [done|].
  apply one_browser_other; [done | lia | done].
Qed.

(** Between journals no browser is open; inside a journal exactly one is.
    A run that raises leaves a browser open when it raised while preparing the
    page of the browser it had just launched, or while closing one. *)
Lemma browsers_run fuel :
  match crawl_text_nature_async W cfg fuel with
  | (Normal, st) => open_browsers (log st) = 0 /\ one_browser_at_a_time (log st)
  | (OutOfFuel, st) => open_browsers (log st) = 1 /\ one_browser_at_a_time (log st)
  | (Raised, st) =>
      one_browser_at_a_time (log st)
      /\ (open_browsers (log st) = 0
          \/ (open_browsers (log st) = 1
              /\ exists slug earlier,
                   log st = EvLaunch slug :: earlier
                   \/ log st = EvCloseFails slug :: earlier))
  end.
Proof.
  apply (crawl_inv W cfg
    (fun st => open_browsers (log st) = 1 /\ one_browser_at_a_time (log st))
    (fun st => open_browsers (log st) = 0 /\ one_browser_at_a_time (log st))
    (fun st => one_browser_at_a_time (log st)
               /\ (open_browsers (log st) = 0
                   \/ (open_browsers (log st) = 1
                       /\ exists slug earlier,
                            log st = EvLaunch slug :: earlier
                            \/ log st = EvCloseFails slug :: earlier)))
    (fun _ _ _ => True)); try done.
  - intros slug st [Ho Hall]. cbn [log emit open_browsers one_browser_at_a_time].
    rewrite Ho. split; [done|]. split; [lia | done].
  - intros st [Ho Hall]. cbn [log emit open_browsers one_browser_at_a_time].
    rewrite Ho. repeat split; try done; lia.
  - intros slug st art [Ho Hall] _.
    destruct (article_step_log W cfg slug st art) as (evs & -> & Hev).
    destruct (one_browser_others evs (log st)) as [H1 H2]; [|lia|done|].
    + eapply Forall_impl; [exact Hev|]. by intros e [_ He].
    + split; [by rewrite H1 | done].
  - intros slug y p arts st [Ho Hall] _ _ _.
    cbn [log emit open_browsers one_browser_at_a_time]. rewrite Ho.
    split; [done|]. split; [lia | done].
  - intros slug st [Ho Hall]. cbn [log emit open_browsers one_browser_at_a_time].
    rewrite Ho. split; [done|]. split; [lia | done].
  - intros slug y p st [Ho Hall] _ _ _.
    cbn [log emit open_browsers one_browser_at_a_time]. rewrite Ho.
    repeat split; try done; lia.
  - intros slug st art [Ho Hall] _ _.
    cbn [log emit open_browsers one_browser_at_a_time]. rewrite Ho.
    repeat split; try done; lia.
  - intros st [Ho Hall]. split; [done | by left].
  - intros slug st [Ho Hall]. cbn [log emit open_browsers one_browser_at_a_time].
    rewrite Ho. split; [split; [lia | done]|]. right. split; [done|].
    exists slug, (log st). by left.
  - intros slug st [Ho Hall]. cbn [log emit open_browsers one_browser_at_a_time].
    rewrite Ho. split; [split; [lia | done]|]. right. split; [done|].
    exists slug, (log st). by right.
  - intros slug y p st [Ho Hall] _ _ _.
    cbn [log emit open_browsers one_browser_at_a_time]. rewrite Ho.
    split; [repeat split; try done; lia|]. right. split; [done|].
    eexists slug, _. by right.
  - intros slug st art [Ho Hall] _ _.
    cbn [log emit open_browsers one_browser_at_a_time]. rewrite Ho.
    split; [repeat split; try done; lia|]. right. split; [done|].
    eexists slug, _. by right.
Qed.

Lemma one_browser_suffix evs1 evs2 :
  one_browser_at_a_time (evs1 ++ evs2) -> 0 <= open_browsers evs2 <= 1.
Proof.
  induction evs1 as [|e evs1 IH]; simpl.
  - destruct evs2; simpl; [lia | by intros [H _]].
  - intros [_ H]. by apply IH.
Qed.

End Browsers.

(** A browser whose page cannot be prepared, or that cannot be closed, is
    left open by the run, which raises. *)
Example unclosed_browser_sample :
  crawl_text_nature_async Sample.no_page
    (MkConfig 2024 2023 "out" None (Some ["j"; "k"; "l"]) None None) 5
  = (Raised, emits [EvLaunch "k"; EvClose "j"; EvLaunch "j"] init_state)
  /\ open_browsers (log (snd (crawl_text_nature_async Sample.unclosable
                                (Sample.cfg 2022 2023 None) 5))) = 1.
Proof. split; vm_compute; reflexivity. Qed.

(** A journal folder that cannot be created ends the run before the
    browser of that journal is launched. *)
Example no_folder_sample :
  crawl_text_nature_async Sample.no_folder
    (MkConfig 2024 2023 "out" None (Some ["j"; "k"; "l"]) None None) 5
  = (Raised, emits [EvClose "j"; EvLaunch "j"] init_state).
Proof. vm_compute. reflexivity. Qed.

(** X6. A run never has two browsers open: after every action, the browsers
    launched and not yet closed number zero or one.  When the run returns,
    every browser it launched has been closed, also for journals whose crawl
    failed.  When the run raises, a browser is left open exactly when its last
    action was the launch of that browser (its page could not be prepared) or
    a closing that raised. *)
Theorem browsers_are_closed (W : World) (cfg : Config) (fuel : nat) :
  (forall pre post,
     trace (snd (crawl_text_nature_async W cfg fuel)) = (pre ++ post)%list ->
     0 <= open_browsers (rev pre) <= 1)
  /\ (fst (crawl_text_nature_async W cfg fuel) = Normal ->
      open_browsers (log (snd (crawl_text_nature_async W cfg fuel))) = 0)
  /\ (fst (crawl_text_nature_async W cfg fuel) = Raised ->
      open_browsers (log (snd (crawl_text_nature_async W cfg fuel))) <> 0 ->
      exists slug earlier,
        trace (snd (crawl_text_nature_async W cfg fuel)) = (earlier ++ [EvLaunch slug])%list
        \/ trace (snd (crawl_text_nature_async W cfg fuel))
           = (earlier ++ [EvCloseFails slug])%list).
Proof.
  pose proof (browsers_run W cfg fuel) as H.
  destruct (crawl_text_nature_async W cfg fuel) as [f st]. cbn [fst snd].
  split; [|split].
  - intros pre post Htr. unfold trace in Htr.
    apply (f_equal (@rev event)) in Htr. rewrite rev_involutive, rev_app_distr in Htr.
    apply (one_browser_suffix (rev post)). rewrite <- Htr. by destruct f, H.
  - intros ->. by destruct H.
  - intros -> Hopen. destruct H as [_ [H0 | [_ (slug & earlier & Hlog)]]]; [done|].
    exists slug, (rev earlier). unfold trace. by destruct Hlog as [-> | ->]; [left | right].
Qed.

Lemma browsers_are_closed_sample :
  0 <= open_browsers (rev [EvLaunch "j"; EvListing "j" 2023 1%nat]) <= 1
  /\ open_browsers (log (snd (crawl_text_nature_async Sample.broken_2023
                                (Sample.cfg 2022 2023 None) 5))) = 0
  /\ exists slug earlier,
       trace (snd (crawl_text_nature_async Sample.unclosable (Sample.cfg 2022 2023 None) 5))
       = (earlier ++ [EvLaunch slug])%list
       \/ trace (snd (crawl_text_nature_async Sample.unclosable
                        (Sample.cfg 2022 2023 None) 5))
          = (earlier ++ [EvCloseFails slug])%list.
Proof.
  destruct (browsers_are_closed Sample.broken_2023 (Sample.cfg 2022 2023 None) 5)
    as (Hone & Hclosed & _).
  destruct (browsers_are_closed Sample.unclosable (Sample.cfg 2022 2023 None) 5)
    as (_ & _ & Hopen).
  split; [|split].
  - apply (Hone [EvLaunch "j"; EvListing "j" 2023 1%nat]
                [EvErrJournal "j"; EvClose "j"]).
    vm_compute. reflexivity.
  - apply Hclosed. vm_compute. reflexivity.
  - apply Hopen; vm_compute; [reflexivity | discriminate].
Defined.

(** ** Inputs that leave nothing to crawl *)

(** X7. With [year_to] below [year_from] a run requests nothing: it only
    launches and closes a browser per journal, and returns empty lists. *)
Theorem inverted_year_range_fetches_nothing (W : World) (cfg : Config) (fuel : nat) :
  year_to cfg < year_from cfg ->
  Forall (fun e => is_fetch e = false)
         (trace (snd (crawl_text_nature_async W cfg fuel)))
  /\ saved_files (snd (crawl_text_nature_async W cfg fuel)) = []
  /\ open_access_articles (snd (crawl_text_nature_async W cfg fuel)) = [].
Proof.
  intros Hinv.
  destruct (crawl_scope W cfg fuel) as [Hlog Hmeta].
  destruct (aligned_run W cfg fuel) as [Hs Ho].
  set (st := snd (crawl_text_nature_async W cfg fuel)) in *.
  assert (Hnone : article_metadata st = []).
  { destruct (article_metadata st) as [|[[p t] d] l]; [done|].
    apply Forall_cons in Hmeta as [(slug & y & _ & Hy & _) _]. lia. }
  rewrite Hnone in Hs, Ho. simpl in Hs, Ho. split; [|by split].
  unfold trace. apply Forall_rev. eapply Forall_impl; [exact Hlog|].
  intros e He. destruct e; try done.
  - destruct He as (_ & Hy & _). lia.
  - destruct He as (slug & y & p & arts & art & s & _ & Hy & _). lia.
Qed.

Lemma inverted_year_range_fetches_nothing_sample :
  Forall (fun e => is_fetch e = false)
         (trace (snd (crawl_text_nature_async Sample.overlap (Sample.cfg 2024 2023 None) 5)))
  /\ saved_files (snd (crawl_text_nature_async Sample.overlap (Sample.cfg 2024 2023 None) 5))
     = []
  /\ open_access_articles
       (snd (crawl_text_nature_async Sample.overlap (Sample.cfg 2024 2023 None) 5)) = [].
Proof.
  apply (inverted_year_range_fetches_nothing Sample.overlap (Sample.cfg 2024 2023 None) 5).
  simpl. lia.
Defined.

(** X8. A negative limit stops a run before its first request: the limit
    check holds from the start, so nothing is loaded and nothing is saved. *)
Theorem negative_limit_fetches_nothing (W : World) (cfg : Config) (fuel : nat) (k : Z) :
  limit cfg = Some k -> k < 0 ->
  Forall (fun e => is_fetch e = false)
         (trace (snd (crawl_text_nature_async W cfg fuel)))
  /\ results (snd (crawl_text_nature_async W cfg fuel)) = ([], [], [], 0).
Proof.
  intros Hk Hneg.
  assert (Hlim : forall st, found_count st = 0 -> at_limit cfg st = true).
  { intros st H0. unfold at_limit, limit_reached. rewrite Hk, H0.
    destruct (Z.eqb_spec k 0); [lia|]. destruct (Z.leb_spec k 0); [done | lia]. }
  assert (H : results (snd (crawl_text_nature_async W cfg fuel)) = ([], [], [], 0)
              /\ Forall (fun e => is_fetch e = false)
                        (log (snd (crawl_text_nature_async W cfg fuel)))).
  { apply (crawl_inv_plain W cfg
      (fun st => results st = ([], [], [], 0)
                 /\ Forall (fun e => is_fetch e = false) (log st))
      (fun _ _ _ => True)); try done.
    - intros e st He [Hr Hl]. split; [done|]. constructor; [by destruct e | done].
    - intros slug st art [Hr Hl] Hno. rewrite Hlim in Hno; [done|].
      unfold results in Hr. by injection Hr.
    - intros slug y p st [Hr Hl] Hno. rewrite Hlim in Hno; [done|].
      unfold results in Hr. by injection Hr.
    - intros slug st [Hr Hl]. split; [done | by constructor]. }
  destruct H as [Hr Hl]. split; [|done]. unfold trace. by apply Forall_rev.
Qed.

Lemma negative_limit_fetches_nothing_sample :
  Forall (fun e => is_fetch e = false)
         (trace (snd (crawl_text_nature_async Sample.overlap
                        (Sample.cfg 2023 2023 (Some (-1))) 5)))
  /\ results (snd (crawl_text_nature_async Sample.overlap
                     (Sample.cfg 2023 2023 (Some (-1))) 5)) = ([], [], [], 0).
Proof.
  apply (negative_limit_fetches_nothing Sample.overlap (Sample.cfg 2023 2023 (Some (-1)))
           5 (-1)); [reflexivity | lia].
Defined.

(** ** The journal catalogue *)

Example slug_search_samples :
  Discover.slug_search "/aps/" = Some "aps"
  /\ Discover.slug_search "https://www.nature.com/nature/" = Some "nature"
  /\ Discover.slug_search "/nature-physics" = Some "nature-physics"
  /\ Discover.slug_search ("/cr" +:+ PyStr.nl) = Some "cr"
  /\ Discover.slug_search "/nature/articles?type=x" = None
  /\ Discover.slug_search "/Nature/" = None
  /\ Discover.slug_search "nature" = None
  /\ Discover.slug_search "/a//" = None.
Proof. repeat split. Qed.

Section Catalogue.

Local Arguments String.append : simpl nomatch.

Lemma at_end_spec s : Discover.at_end s = true -> s = EmptyString \/ s = PyStr.nl.
Proof.
  unfold Discover.at_end. intros [H|H]%orb_true_iff; apply String.eqb_eq in H; auto.
Qed.

Lemma span_slug_spec s :
  s = fst (Discover.span_slug s) +:+ snd (Discover.span_slug s)
  /\ string_forall Discover.slug_char (fst (Discover.span_slug s)) = true.
Proof.
  induction s as [|c s [IH1 IH2]]; simpl; [done|].
  destruct (Discover.slug_char c) eqn:Hc; [|done].
  destruct (Discover.span_slug s) as [w t]. simpl in *. rewrite Hc, IH2.
  by rewrite <- IH1.
Qed.

Lemma match_here_spec s w :
  Discover.match_here s = Some w ->
  w <> EmptyString /\ string_forall Discover.slug_char w = true
  /\ exists tail, s = w +:+ tail
                  /\ In tail [EmptyString; "/"; PyStr.nl; "/" +:+ PyStr.nl].
Proof.
  unfold Discover.match_here. destruct (span_slug_spec s) as [Hs Hw].
  destruct (Discover.span_slug s) as [w' t]. simpl in Hs, Hw.
  destruct (nonempty w') eqn:Hne; [|done]. cbn [negb].
  assert (w' <> EmptyString) by (intros ->; discriminate Hne).
  destruct t as [|c r].
  - intros [= <-]. repeat split; try done. exists EmptyString. split; [done | by left].
  - destruct (Ascii.eqb_spec c "/"%char) as [->|Hc].
    + destruct (Discover.at_end r) eqn:He; [|done]. intros [= <-].
      repeat split; try done. exists (String "/" r). split; [done|].
      apply at_end_spec in He as [-> | ->]; simpl; auto.
    + destruct (Discover.at_end (String c r)) eqn:He; [|done]. intros [= <-].
      repeat split; try done. exists (String c r). split; [done|].
      apply at_end_spec in He as [He | He]; [done|]. rewrite He. simpl. auto.
Qed.

(** The slug found in a link is its last path segment: it follows a slash,
    is made of lower-case letters, digits and hyphens, and is followed only
    by an optional slash and the end of the link. *)
Lemma slug_search_spec href w :
  Discover.slug_search href = Some w ->
  w <> EmptyString /\ string_forall Discover.slug_char w = true
  /\ exists pre tail, href = pre +:+ "/" +:+ w +:+ tail
                      /\ In tail [EmptyString; "/"; PyStr.nl; "/" +:+ PyStr.nl].
Proof.
  induction href as [|c r IH]; simpl; [done|].
  assert (Hrec : Discover.slug_search r = Some w ->
            w <> EmptyString /\ string_forall Discover.slug_char w = true
            /\ exists pre tail, String c r = pre +:+ "/" +:+ w +:+ tail
                  /\ In tail [EmptyString; "/"; PyStr.nl; "/" +:+ PyStr.nl]).
  { intros H. destruct (IH H) as (Hne & Hw & pre & tail & -> & Ht).
    repeat split; try done. by exists (String c pre), tail. }
  destruct (Ascii.eqb_spec c "/"%char) as [->|Hc]; [|done].
  destruct (Discover.match_here r) as [w'|] eqn:Hm; [|done].
  intros [= <-]. destruct (match_here_spec r w' Hm) as (Hne & Hw & tail & -> & Ht).
  repeat split; try done. by exists EmptyString, tail.
Qed.

Lemma decode_encode results :
  Discover.decode_cache (Discover.encode_cache results) = Some results.
Proof.
  unfold Discover.decode_cache, Discover.encode_cache.
  change (List.map ?f ?l) with (f <$> l). apply mapM_fmap_Some.
  intros [slug name]. unfold Discover.decode_entry.
  rewrite lookup_insert_ne by done. by rewrite !lookup_insert_eq.
Qed.

Lemma decode_cache_missing entries j :
  In j entries -> j !! "slug" = None \/ j !! "name" = None ->
  Discover.decode_cache entries = None.
Proof.
  intros Hin Hmiss. destruct (Discover.decode_cache entries) as [rs|] eqn:Hd; [|done].
  apply mapM_Some_1 in Hd. apply list_elem_of_In in Hin.
  apply list_elem_of_lookup_1 in Hin as [i Hi].
  destruct (Forall2_lookup_l _ _ _ _ _ Hd Hi) as (r & _ & Hr).
  unfold Discover.decode_entry in Hr.
  destruct Hmiss as [Hm | Hm]; rewrite Hm in Hr; [done|]. by destruct (j !! "slug").
Qed.

End Catalogue.

Example discover_sample :
  Discover.discover_journals_nature_async false Discover.NoFile
    (Some [[("/aps/", "Acta Pharmacologica Sinica"); ("/about", EmptyString)];
           [("https://www.nature.com/nature/", "Nature"); ("/Nature/x?y", "Broken")]])
    None
  = Discover.Outcome
      (Some [("aps", "Acta Pharmacologica Sinica"); ("nature", "Nature")])
      (Discover.Cached
         (Discover.encode_cache [("aps", "Acta Pharmacologica Sinica"); ("nature", "Nature")]))
      true.
Proof. reflexivity. Qed.

(** X9. Every journal a fresh discovery returns comes from a link of the site
    index whose text is not empty; its slug is the last path segment of that
    link: not empty, made of lower-case letters, digits and hyphens only,
    preceded by a slash and followed by nothing but an optional slash. *)
Theorem discovered_slugs_are_last_segments (force_refresh : bool)
    (cache : Discover.cache_state) (site_index : option (list (list (string * string))))
    (write_fails : option Discover.cache_state) (rs : list (string * string))
    (slug name : string) :
  Discover.fetched
    (Discover.discover_journals_nature_async force_refresh cache site_index write_fails)
  = true ->
  Discover.returned
    (Discover.discover_journals_nature_async force_refresh cache site_index write_fails)
  = Some rs ->
  In (slug, name) rs ->
  name <> EmptyString /\ slug <> EmptyString
  /\ string_forall Discover.slug_char slug = true
  /\ exists sections section href pre tail,
       site_index = Some sections /\ In section sections /\ In (href, name) section
       /\ href = pre +:+ "/" +:+ slug +:+ tail
       /\ In tail [EmptyString; "/"; PyStr.nl; "/" +:+ PyStr.nl].
Proof.
  unfold Discover.discover_journals_nature_async.
  destruct (if force_refresh then None else _) as [cached|]; [done|].
  destruct site_index as [sections|]; [|done]. cbn [Discover.fetched Discover.returned].
  intros _ [= <-] Hin. unfold Discover.parse_index in Hin.
  apply list_elem_of_In, list_elem_of_omap in Hin as ([href name'] & Hlink & Hentry).
  unfold Discover.link_entry in Hentry.
  destruct (Discover.slug_search href) as [w|] eqn:Hw; [|done].
  destruct (nonempty name') eqn:Hne; [|done]. injection Hentry as -> ->.
  destruct (slug_search_spec href slug Hw) as (Hs & Hchars & pre & tail & Hhref & Htail).
  split; [intros ->; discriminate Hne|]. split; [done|]. split; [done|].
  apply list_elem_of_In, in_concat in Hlink as (section & Hsec & Hl).
  by exists sections, section, href, pre, tail.
Qed.

Lemma discovered_slugs_are_last_segments_sample :
  "Nature" <> EmptyString /\ "nature" <> EmptyString
  /\ string_forall Discover.slug_char "nature" = true
  /\ exists sections section href pre tail,
       Some [[("https://www.nature.com/nature/", "Nature")]] = Some sections
       /\ In section sections /\ In (href, "Nature") section
       /\ href = pre +:+ "/" +:+ "nature" +:+ tail
       /\ In tail [EmptyString; "/"; PyStr.nl; "/" +:+ PyStr.nl].
Proof.
  apply (discovered_slugs_are_last_segments true Discover.Unreadable
           (Some [[("https://www.nature.com/nature/", "Nature")]]) None
           [("nature", "Nature")] "nature" "Nature");
    [reflexivity | reflexivity | by left].
Defined.

(** X10. After a call that loaded the site index and wrote the cache, or that
    was itself served from the cache, the next call without [force_refresh]
    returns the same list without contacting the site and leaves the cache as
    it is, whatever the site would answer by then. *)
Theorem catalogue_is_served_from_cache (force_refresh : bool)
    (cache : Discover.cache_state) (sections : list (list (string * string)))
    (site_later : option (list (list (string * string))))
    (write_later : option Discover.cache_state) :
  Discover.discover_journals_nature_async false
    (Discover.cache_after
       (Discover.discover_journals_nature_async force_refresh cache (Some sections) None))
    site_later write_later
  = Discover.Outcome
      (Discover.returned
         (Discover.discover_journals_nature_async force_refresh cache (Some sections) None))
      (Discover.cache_after
         (Discover.discover_journals_nature_async force_refresh cache (Some sections) None))
      false.
Proof.
  assert (Hfresh : Discover.discover_journals_nature_async false
            (Discover.Cached (Discover.encode_cache (Discover.parse_index sections)))
            site_later write_later
          = Discover.Outcome (Some (Discover.parse_index sections))
              (Discover.Cached (Discover.encode_cache (Discover.parse_index sections)))
              false).
  { unfold Discover.discover_journals_nature_async. by rewrite decode_encode. }
  destruct force_refresh; [exact Hfresh|].
  destruct cache as [| |entries]; [exact Hfresh | exact Hfresh |].
  destruct (Discover.decode_cache entries) as [cached|] eqn:Hd.
  - unfold Discover.discover_journals_nature_async. rewrite Hd.
    cbn [Discover.cache_after Discover.returned]. by rewrite Hd.
  - unfold Discover.discover_journals_nature_async at 2 3 4. rewrite Hd.
    exact Hfresh.
Qed.

(** X11. A cache file that is missing, unreadable, or holds one entry without
    a [slug] or a [name] is ignored as a whole, as is any cache under
    [force_refresh]: the site is contacted.  If that fails the call raises and
    the cache file is left as it was; otherwise the parsed list is returned,
    whether or not writing the new cache succeeds. *)
Theorem unusable_cache_falls_back (force_refresh : bool)
    (cache : Discover.cache_state) (site_index : option (list (list (string * string))))
    (write_fails : option Discover.cache_state) :
  (force_refresh = true \/ cache = Discover.NoFile \/ cache = Discover.Unreadable
   \/ exists entries j, cache = Discover.Cached entries /\ In j entries
                        /\ (j !! "slug" = None \/ j !! "name" = None)) ->
  Discover.discover_journals_nature_async force_refresh cache site_index write_fails
  = match site_index with
    | None => Discover.Outcome None cache true
    | Some sections =>
        Discover.Outcome (Some (Discover.parse_index sections))
          (match write_fails with
           | None => Discover.Cached (Discover.encode_cache (Discover.parse_index sections))
           | Some c => c
           end)
          true
    end.
Proof.
  intros Hbad. unfold Discover.discover_journals_nature_async.
  assert (Hnone : (if force_refresh then None
                   else match cache with
                        | Discover.Cached entries => Discover.decode_cache entries
                        | _ => None
                        end) = None).
  { destruct Hbad as [Hf | [Hc | [Hc | (entries & j & Hc & Hin & Hmiss)]]].
    - by rewrite Hf.
    - rewrite Hc. by destruct force_refresh.
    - rewrite Hc. by destruct force_refresh.
    - rewrite Hc. destruct force_refresh; [done|]. by eapply decode_cache_missing. }
  by rewrite Hnone.
Qed.

Lemma unusable_cache_falls_back_sample :
  Discover.discover_journals_nature_async false
    (Discover.Cached [ {[ "slug" := "aps" ]} ]) None None
  = Discover.Outcome None (Discover.Cached [ {[ "slug" := "aps" ]} ]) true.
Proof.
  apply (unusable_cache_falls_back false (Discover.Cached [ {[ "slug" := "aps" ]} ])
           None None).
  right. right. right. exists [ {[ "slug" := "aps" ]} ], {[ "slug" := "aps" ]}.
  split; [reflexivity|]. split; [by left|]. right. vm_compute. reflexivity.
Defined.

(** ** The cookie banner *)

Lemma try_selectors_spec (page : string -> Cookie.button) (selectors : list string) :
  match Cookie.try_selectors page selectors with
  | (true, probed) =>
      exists before selector after,
        selectors = (before ++ selector :: after)%list
        /\ page selector = Cookie.Clickable
        /\ Forall (fun s => page s <> Cookie.Clickable) before
        /\ probed = (before ++ [selector])%list
  | (false, probed) =>
      probed = selectors /\ Forall (fun s => page s <> Cookie.Clickable) selectors
  end.
Proof.
  induction selectors as [|sel rest IH]; simpl; [done|].
  destruct (page sel) eqn:Hp;
    try (destruct (Cookie.try_selectors page rest) as [[] probed];
         [ destruct IH as (before & s & after & -> & Hs & Hb & ->);
           exists (sel :: before), s, after; repeat split; try done;
           constructor; [by rewrite Hp | done]
         | destruct IH as [-> Hall]; split; [done|];
           constructor; [by rewrite Hp | done] ]).
  by exists [], sel, rest.
Qed.

(** X12. [handle_cookie_consent] returns [True] exactly when one of its six
    selectors finds a button whose click succeeds; it then has probed the
    selectors up to the first such button and none after it.  Otherwise it has
    probed all six and returns [False]. *)
Theorem cookie_consent_stops_at_first_click (page : string -> Cookie.button) :
  match Cookie.handle_cookie_consent page with
  | (true, probed) =>
      exists before selector after,
        Cookie.cookie_selectors = (before ++ selector :: after)%list
        /\ page selector = Cookie.Clickable
        /\ Forall (fun s => page s <> Cookie.Clickable) before
        /\ probed = (before ++ [selector])%list
  | (false, probed) =>
      probed = Cookie.cookie_selectors
      /\ Forall (fun s => page s <> Cookie.Clickable) Cookie.cookie_selectors
  end.
Proof. apply try_selectors_spec. Qed.

Example cookie_sample :
  Cookie.handle_cookie_consent
    (fun s => if String.eqb s ("button:has-text(" +:+ Cookie.quote +:+ "I Accept"
                                 +:+ Cookie.quote +:+ ")")
              then Cookie.Clickable
              else if PyStr.contains "Accept all" s then Cookie.ClickFails
              else Cookie.Hidden)
  = (true, firstn 3 Cookie.cookie_selectors).
Proof. vm_compute. reflexivity. Qed.

(** ** Which entry of an extracted record comes from where *)

Section Keys.

Implicit Types (d : gmap string jval) (sp : soup) (k : string).

Lemma set_keeps k k' v d : k' <> k -> <[k' := v]> d !! k = d !! k.
Proof. intros H. by rewrite lookup_insert_ne. Qed.

Lemma extract_title_keeps k sp d :
  k <> "title" -> extract_title sp d !! k = d !! k.
Proof. intros H. unfold extract_title. destruct (title_elem sp); [by apply set_keeps | done]. Qed.

Lemma extract_authors_keeps k sp d :
  k <> "authors" -> extract_authors sp d !! k = d !! k.
Proof.
  intros H. unfold extract_authors. destruct (authors_list sp) as [items|]; [|done].
  destruct (List.filter _ items); [done | by apply set_keeps].
Qed.

Lemma extract_date_keeps k sp d :
  k <> "publication_date" -> extract_date sp d !! k = d !! k.
Proof.
  intros H. unfold extract_date, set_if. destruct (date_meta sp) as [[dt|]|]; try done.
  destruct (nonempty dt); [by apply set_keeps | done].
Qed.

Lemma extract_doi_keeps k sp d : k <> "doi" -> extract_doi sp d !! k = d !! k.
Proof. intros H. unfold extract_doi. destruct (doi_meta sp); [by apply set_keeps | done]. Qed.

Lemma extract_abstract_keeps k sp d :
  k <> "Abstract" \/ abstract_section sp = None \/ abstract_section sp = Some None ->
  extract_abstract sp d !! k = d !! k.
Proof.
  intros H. unfold extract_abstract. destruct (abstract_section sp) as [[ps|]|]; try done.
  destruct H as [H | [H | H]]; try done.
  destruct (List.filter _ ps); [done | by apply set_keeps].
Qed.

(** A section touches only the entry named by its [data-title], and never
    the entry [Abstract]. *)
Lemma extract_section_keeps k s d :
  k = "Abstract" \/ data_title s <> k -> extract_section s d !! k = d !! k.
Proof.
  intros H. unfold extract_section.
  destruct (negb (nonempty (data_title s))); [done|]. cbn [orb].
  destruct (String.eqb_spec (data_title s) "Abstract") as [Ha|Ha]; [done|].
  destruct (section_div s) as [elems|]; [|done].
  destruct (omap section_line elems); [done|]. apply set_keeps.
  destruct H as [-> | H]; done.
Qed.

Lemma extract_sections_keeps k sp d :
  k = "Abstract" \/ (forall s, In s (main_sections sp) -> data_title s <> k) ->
  extract_sections sp d !! k = d !! k.
Proof.
  intros H. unfold extract_sections. revert d.
  induction (main_sections sp) as [|s ss IH]; intros d; simpl; [done|].
  rewrite IH.
  - apply extract_section_keeps. destruct H as [H | H]; [by left | right].
    apply H. by left.
  - destruct H as [H | H]; [by left | right]. intros s' Hs'. apply H. by right.
Qed.

Lemma extract_figures_keeps k sp d :
  k <> "Figures" -> extract_figures sp d !! k = d !! k.
Proof.
  intros H. unfold extract_figures.
  destruct (enumerate_omap _ _ _); [done | by apply set_keeps].
Qed.

Lemma extract_references_keeps k sp d :
  k <> "References" -> extract_references sp d !! k = d !! k.
Proof.
  intros H. unfold extract_references. destruct (references_section sp) as [items|]; [|done].
  destruct (enumerate_omap _ _ _); [done | by apply set_keeps].
Qed.

(** The numbered entries are those the function yields, each with the number
    of its position counted from [start]. *)
Lemma enumerate_omap_spec {A} (f : nat -> A -> option string) start (xs : list A) x :
  In x (enumerate_omap f start xs)
  <-> exists i a, xs !! i = Some a /\ f (start + i)%nat a = Some x.
Proof.
  revert start. induction xs as [|a xs IH]; intros start; simpl.
  - split; [done | by intros (i & b & Hb & _)].
  - split.
    + intros Hin.
      assert (Hcase : f start a = Some x \/ In x (enumerate_omap f (S start) xs)).
      { destruct (f start a) as [y|]; [|by right].
        destruct Hin as [-> | Hin]; [by left | by right]. }
      destruct Hcase as [Hx | Hin'].
      * exists 0%nat, a. split; [done|]. by rewrite Nat.add_0_r.
      * apply IH in Hin' as (i & b & Hb & Hf). exists (S i), b. split; [done|].
        by replace (start + S i)%nat with (S start + i)%nat by lia.
    + intros (i & b & Hb & Hf). destruct i as [|i].
      * injection Hb as ->. rewrite Nat.add_0_r in Hf. rewrite Hf. by left.
      * assert (In x (enumerate_omap f (S start) xs)).
        { apply IH. exists i, b. split; [done|].
          by replace (S start + i)%nat with (start + S i)%nat by lia. }
        destruct (f start a); [by right | done].
Qed.

End Keys.

Example url_overwritten_by_section :
  assemble "https://www.nature.com/articles/a1" "t0"
    (Soup (Some "T") None None None None
       [MainSection "url" (Some [(P_, "text")])] [] None) !! "url"
  = Some (JStr "text").
Proof. vm_compute. reflexivity. Qed.

(** X13. The entry [url] of an extracted record is the address that was
    fetched, and the entry [extracted_at] the time of extraction, unless the
    article has a section whose [data-title] is that very key: only such a
    section can overwrite them. *)
Theorem bookkeeping_survives (url now : string) (sp : soup) :
  ((forall s, In s (main_sections sp) -> data_title s <> "url") ->
   assemble url now sp !! "url" = Some (JStr url))
  /\ ((forall s, In s (main_sections sp) -> data_title s <> "extracted_at") ->
      assemble url now sp !! "extracted_at" = Some (JStr now)).
Proof.
  split; intros Hs; unfold assemble;
    rewrite extract_references_keeps, extract_figures_keeps,
      extract_sections_keeps, extract_abstract_keeps, extract_doi_keeps,
      extract_date_keeps, extract_authors_keeps, extract_title_keeps;
    try done; try (by left); try (by right).
Qed.

Lemma bookkeeping_survives_sample :
  assemble "u" "t0" Sample.rich !! "url" = Some (JStr "u")
  /\ assemble "u" "t0" Sample.rich !! "extracted_at" = Some (JStr "t0").
Proof.
  destruct (bookkeeping_survives "u" "t0" Sample.rich) as [Hu He].
  split; [apply Hu | apply He]; intros s [<-|[]]; discriminate.
Defined.

(** X14. The entry [Abstract] comes only from the abstract section
    ([aria-labelledby="Abs1"]): when the page has none, or it has no content
    block, the record has no [Abstract], even if a section is titled
    Abstract. *)
Theorem abstract_needs_its_section (url now : string) (sp : soup) :
  abstract_section sp = None \/ abstract_section sp = Some None ->
  assemble url now sp !! "Abstract" = None.
Proof.
  intros Habs. unfold assemble.
  rewrite extract_references_keeps, extract_figures_keeps,
    extract_sections_keeps, extract_abstract_keeps, extract_doi_keeps,
    extract_date_keeps, extract_authors_keeps, extract_title_keeps;
    try done; try (by left); by right.
Qed.

Lemma abstract_needs_its_section_sample :
  assemble "u" "t0"
    (Soup (Some "T") None None None None
       [MainSection "Abstract" (Some [(P_, "A summary.")])] [] None) !! "Abstract"
  = None.
Proof.
  apply (abstract_needs_its_section "u" "t0"
           (Soup (Some "T") None None None None
              [MainSection "Abstract" (Some [(P_, "A summary.")])] [] None)).
  left. reflexivity.
Defined.

(** X15. The references of a record are numbered by their position in the
    page's reference list, counted from 1: an item without text leaves a gap
    in the numbers instead of shifting the items after it. *)
Theorem reference_numbers_follow_positions (ref_items : list (option string))
    (entry : string) :
  In entry (enumerate_omap reference_entry 1 ref_items)
  <-> exists i ref_text,
        ref_items !! i = Some (Some ref_text) /\ ref_text <> EmptyString
        /\ entry = pretty (S i) +:+ ". " +:+ ref_text.
Proof.
  rewrite enumerate_omap_spec. split.
  - intros (i & [t|] & Hi & He); [|done]. unfold reference_entry in He.
    destruct (nonempty t) eqn:Hne; [|done]. injection He as <-.
    exists i, t. split; [done|]. split; [intros ->; discriminate Hne | done].
  - intros (i & t & Hi & Hne & ->). exists i, (Some t). split; [done|].
    unfold reference_entry. destruct t; [done|]. done.
Qed.

Example references_sample :
  enumerate_omap reference_entry 1 [Some "r1"; None; Some EmptyString; Some "r4"]
  = ["1. r1"; "4. r4"].
Proof. reflexivity. Qed.

(** ** The end of a run *)

Section Ending.

Variable W : World.
Variable cfg : Config.

Lemma journals_loop_grows (I : RunState -> Prop) fuel slugs st :
  (forall e st', I st' -> I (emit e st')) ->
  (forall p t d st', I st' -> I (record_saved p t d st')) ->
  I st -> I (snd (journals_loop W cfg fuel st slugs)).
Proof.
  intros Hemit Hsave Hst.
  assert (Hemits : forall evs st', I st' -> I (emits evs st')).
  { induction evs as [|e evs IH]; intros st' H'; [by rewrite emits_nil|].
    change (emits (e :: evs) st') with (emit e (emits evs st')). by apply Hemit, IH. }
  pose proof (journals_loop_inv W cfg I I I (fun _ _ _ => True)) as H.
  lapply H; [clear H; intros H | done].
  lapply H; [clear H; intros H | done].
  lapply H; [clear H; intros H | by intros; apply Hemit].
  lapply H; [clear H; intros H |].
  2:{ intros slug st' art H' _.
      destruct (article_step_shape W cfg slug st' art)
        as [-> | (url & evs & _ & [[_ ->] | [_ (p & t & d & ->)]])]; [done | |].
      - by apply Hemits.
      - by apply Hemits, Hsave. }
  lapply H; [clear H; intros H | by intros; apply Hemit].
  lapply H; [clear H; intros H | by intros; apply Hemit].
  lapply H; [clear H; intros H | by intros; do 3 apply Hemit].
  lapply H; [clear H; intros H | by intros; do 2 apply Hemit].
  lapply H; [clear H; intros H | done].
  lapply H; [clear H; intros H | by intros; apply Hemit].
  lapply H; [clear H; intros H | by intros; apply Hemit].
  lapply H; [clear H; intros H | by intros; do 3 apply Hemit].
  lapply H; [clear H; intros H | by intros; do 2 apply Hemit].
  specialize (H fuel slugs st Hst).
  by destruct (journals_loop W cfg fuel st slugs) as [[] st'].
Qed.

Lemma journals_loop_log (P : list event -> Prop) fuel slugs st :
  (forall e l, is_summary e = false -> P l -> P (e :: l)) ->
  P (log st) -> P (log (snd (journals_loop W cfg fuel st slugs))).
Proof.
  intros Hcons Hst.
  pose proof (journals_loop_inv W cfg (fun s => P (log s)) (fun s => P (log s))
                (fun s => P (log s)) (fun _ _ _ => True)) as H.
  lapply H; [clear H; intros H | done].
  lapply H; [clear H; intros H | done].
  lapply H; [clear H; intros H | by intros; apply Hcons].
  lapply H; [clear H; intros H |].
  2:{ intros slug st' art H' _.
      destruct (article_step_log W cfg slug st' art) as (evs & -> & Hev).
      induction Hev as [|e l [_ He] _ IH]; [done|].
      apply Hcons; [by destruct e | done]. }
  lapply H; [clear H; intros H | by intros; apply Hcons].
  lapply H; [clear H; intros H | by intros; apply Hcons].
  lapply H; [clear H; intros H | by intros; do 3 (apply Hcons; [done|])].
  lapply H; [clear H; intros H | by intros; do 2 (apply Hcons; [done|])].
  lapply H; [clear H; intros H | done].
  lapply H; [clear H; intros H | by intros; apply Hcons].
  lapply H; [clear H; intros H | by intros; apply Hcons].
  lapply H; [clear H; intros H | by intros; do 3 (apply Hcons; [done|])].
  lapply H; [clear H; intros H | by intros; do 2 (apply Hcons; [done|])].
  specialize (H fuel slugs st Hst).
  by destruct (journals_loop W cfg fuel st slugs) as [[] st'].
Qed.

End Ending.

(** X16. A run that returns writes the summary and the archive, as its last
    two actions and nowhere else, exactly when it saved at least one
    article; a run that saved nothing writes neither. *)
Theorem summary_written_iff_saved (W : World) (cfg : Config) (fuel : nat)
    (st : RunState) :
  crawl_text_nature_async W cfg fuel = (Normal, st) ->
  (saved_files st <> [] ->
   exists before, trace st = (before ++ [EvCsv; EvZip])%list
                  /\ Forall (fun e => is_summary e = false) before)
  /\ (saved_files st = [] -> Forall (fun e => is_summary e = false) (trace st)).
Proof.
  assert (Hfin : forall st0, Forall (fun e => is_summary e = false) (log st0) ->
            (saved_files (finish st0) <> [] ->
             exists before, trace (finish st0) = (before ++ [EvCsv; EvZip])%list
                            /\ Forall (fun e => is_summary e = false) before)
            /\ (saved_files (finish st0) = [] ->
                Forall (fun e => is_summary e = false) (trace (finish st0)))).
  { intros st0 H0. rewrite saved_files_finish. unfold finish, trace.
    destruct (saved_files st0) as [|f fs]; split; try done.
    - intros _. by apply Forall_rev.
    - intros _. exists (rev (log st0)). split; [|by apply Forall_rev].
      cbn [log emit rev]. by rewrite <- app_assoc. }
  unfold crawl_text_nature_async.
  destruct (makedirs_ok W (out_folder cfg)); cbn [negb]; [|done].
  destruct (journal_slugs cfg) as [[|slug slugs]|];
    try (intros [= <-]; by apply Hfin).
  assert (Hloop : forall st0, Forall (fun e => is_summary e = false) (log st0) ->
            Forall (fun e => is_summary e = false)
                   (log (snd (with_playwright W cfg fuel st0 (slug :: slugs))))).
  { intros st0 H0. unfold with_playwright.
    destruct (playwright_ok W); cbn [negb]; [|done].
    pose proof (journals_loop_log W cfg (Forall (fun e => is_summary e = false))
                  fuel (slug :: slugs) st0) as Hl.
    lapply Hl; [clear Hl; intros Hl | intros e l He Hl'; by constructor].
    specialize (Hl H0).
    by destruct (journals_loop W cfg fuel st0 (slug :: slugs)) as [[] st'],
                (playwright_stops W). }
  destruct (total_progress_callback cfg) as [cb|].
  - destruct (scan_call cb); [|done].
    pose proof (Hloop (emit EvTotalProgress init_state)) as Hl.
    destruct (with_playwright W cfg fuel _ (slug :: slugs)) as [[] st']; try done.
    intros [= <-]. apply Hfin, Hl. by repeat constructor.
  - pose proof (Hloop init_state) as Hl.
    destruct (with_playwright W cfg fuel _ (slug :: slugs)) as [[] st']; try done.
    intros [= <-]. apply Hfin, Hl. constructor.
Qed.

Lemma summary_written_iff_saved_sample :
  exists before,
    trace (snd (crawl_text_nature_async Sample.sparse (Sample.cfg 2023 2023 None) 5))
    = (before ++ [EvCsv; EvZip])%list
    /\ Forall (fun e => is_summary e = false) before.
Proof.
  apply (proj1 (summary_written_iff_saved Sample.sparse (Sample.cfg 2023 2023 None) 5
                  (snd (crawl_text_nature_async Sample.sparse (Sample.cfg 2023 2023 None) 5))
                  ltac:(vm_compute; reflexivity))).
  vm_compute. discriminate.
Defined.

(** X17. What was saved before the journals of a list are crawled is still
    there afterwards, at the front and in the same order, whatever happens
    while crawling them: failed page loads, failed extractions or saves, the
    limit, or the page bound running out.  The counter never goes down. *)
Theorem earlier_results_are_kept (W : World) (cfg : Config) (fuel : nat)
    (st : RunState) (slugs : list string) :
  saved_files st `prefix_of` saved_files (snd (journals_loop W cfg fuel st slugs))
  /\ open_access_articles st
     `prefix_of` open_access_articles (snd (journals_loop W cfg fuel st slugs))
  /\ article_metadata st
     `prefix_of` article_metadata (snd (journals_loop W cfg fuel st slugs))
  /\ found_count st <= found_count (snd (journals_loop W cfg fuel st slugs)).
Proof.
  apply (journals_loop_grows W cfg
    (fun s => saved_files st `prefix_of` saved_files s
              /\ open_access_articles st `prefix_of` open_access_articles s
              /\ article_metadata st `prefix_of` article_metadata s
              /\ found_count st <= found_count s)).
  - by intros e s Hs.
  - intros p t d s (Hs & Ho & Hm & Hc). cbn [saved_files open_access_articles
      article_metadata found_count record_saved].
    repeat split; [by apply prefix_app_r.. | lia].
  - repeat split; [done.. | lia].
Qed.

(** ** Failures outside the handlers *)

Example bad_link_sample :
  trace (snd (crawl_text_nature_async Sample.bad_link (Sample.cfg 2022 2023 None) 5))
  = [EvLaunch "j"; EvListing "j" 2023 1;
     EvExtract "https://www.nature.com/articles/a1";
     EvSave "out/j/Paper A_2023.json" true; EvSleep;
     EvErrJournal "j"; EvClose "j"; EvCsv; EvZip].
Proof. vm_compute. reflexivity. Qed.

(** X18. The link of an accepted card is resolved before the [try] of its
    article: when [urljoin] raises on it, nothing is requested for the card,
    the cards after it on the page are not processed, and the exception
    leaves the page loop for the journal's handler, as a listing page that
    fails to load does. *)
Theorem unresolved_link_ends_journal (W : World) (cfg : Config) (fuel : nat)
    (slug : string) (y : Z) (p : nat) (st st1 : RunState) (pre post : list card)
    (art : card) (s : stub) :
  accept cfg art = Some s ->
  urljoin W (article_href s) = None ->
  at_limit cfg st = false ->
  listing W slug y p = Some (pre ++ art :: post)%list ->
  articles_loop W cfg slug (emit (EvListing slug y p) st) pre = (Normal, st1) ->
  at_limit cfg st1 = false ->
  article_step W cfg slug st1 art = (Raised, st1)
  /\ articles_loop W cfg slug (emit (EvListing slug y p) st) (pre ++ art :: post)
     = (Raised, st1)
  /\ pages_loop W cfg (S fuel) slug y st p = (Raised, st1).
Proof.
  intros Hacc Hurl Hlim Hl Hpre Hlim1.
  assert (Hstep : article_step W cfg slug st1 art = (Raised, st1))
    by (unfold article_step; by rewrite Hacc, Hurl).
  assert (Hloop : articles_loop W cfg slug (emit (EvListing slug y p) st)
                    (pre ++ art :: post) = (Raised, st1)).
  { rewrite articles_loop_app, Hpre. cbn [articles_loop]. by rewrite Hlim1, Hstep. }
  repeat split; try done.
  cbn [pages_loop]. rewrite Hlim, Hl.
  destruct (pre ++ art :: post)%list as [|a l] eqn:E; [by destruct pre|].
  by rewrite Hloop.
Qed.

Lemma unresolved_link_ends_journal_sample :
  article_step Sample.bad_link (Sample.cfg 2022 2023 None) "j"
    (snd (articles_loop Sample.bad_link (Sample.cfg 2022 2023 None) "j"
            (emit (EvListing "j" 2023 1) (emit (EvLaunch "j") init_state))
            [Sample.cardA]))
    Sample.bad_link_card
  = (Raised,
     snd (articles_loop Sample.bad_link (Sample.cfg 2022 2023 None) "j"
            (emit (EvListing "j" 2023 1) (emit (EvLaunch "j") init_state))
            [Sample.cardA]))
  /\ articles_loop Sample.bad_link (Sample.cfg 2022 2023 None) "j"
       (emit (EvListing "j" 2023 1) (emit (EvLaunch "j") init_state))
       ([Sample.cardA] ++ Sample.bad_link_card :: [Sample.cardB])
     = (Raised,
        snd (articles_loop Sample.bad_link (Sample.cfg 2022 2023 None) "j"
               (emit (EvListing "j" 2023 1) (emit (EvLaunch "j") init_state))
               [Sample.cardA]))
  /\ pages_loop Sample.bad_link (Sample.cfg 2022 2023 None) 5 "j" 2023
       (emit (EvLaunch "j") init_state) 1
     = (Raised,
        snd (articles_loop Sample.bad_link (Sample.cfg 2022 2023 None) "j"
               (emit (EvListing "j" 2023 1) (emit (EvLaunch "j") init_state))
               [Sample.cardA])).
Proof.
  apply (unresolved_link_ends_journal Sample.bad_link (Sample.cfg 2022 2023 None) 4 "j"
           2023 1 (emit (EvLaunch "j") init_state)
           (snd (articles_loop Sample.bad_link (Sample.cfg 2022 2023 None) "j"
                   (emit (EvListing "j" 2023 1) (emit (EvLaunch "j") init_state))
                   [Sample.cardA]))
           [Sample.cardA] [Sample.cardB] Sample.bad_link_card
           (Stub 2023 "2023-04-02" "//["));
    vm_compute; reflexivity.
Defined.

Section Unfinished.

Variable W : World.
Variable cfg : Config.

(** Until the journals are done nothing is written about the summary. *)
Lemma with_playwright_log fuel slugs st :
  Forall (fun e => is_summary e = false) (log st) ->
  Forall (fun e => is_summary e = false)
         (log (snd (with_playwright W cfg fuel st slugs))).
Proof.
  intros H0. unfold with_playwright.
  destruct (playwright_ok W); cbn [negb]; [|done].
  pose proof (journals_loop_log W cfg (Forall (fun e => is_summary e = false))
                fuel slugs st) as Hl.
  lapply Hl; [clear Hl; intros Hl | intros e l He Hl'; by constructor].
  specialize (Hl H0).
  by destruct (journals_loop W cfg fuel st slugs) as [[] st'], (playwright_stops W).
Qed.

Lemma unfinished_run_log fuel :
  fst (crawl_text_nature_async W cfg fuel) <> Normal ->
  Forall (fun e => is_summary e = false)
         (log (snd (crawl_text_nature_async W cfg fuel))).
Proof.
  unfold crawl_text_nature_async.
  destruct (makedirs_ok W (out_folder cfg)); cbn [negb]; [|by constructor].
  destruct (journal_slugs cfg) as [[|slug slugs]|]; try done.
  assert (Hloop : forall st0, Forall (fun e => is_summary e = false) (log st0) ->
            fst (match with_playwright W cfg fuel st0 (slug :: slugs) with
                 | (Normal, st') => (Normal, finish st')
                 | other => other
                 end) <> Normal ->
            Forall (fun e => is_summary e = false)
                   (log (snd (match with_playwright W cfg fuel st0 (slug :: slugs) with
                              | (Normal, st') => (Normal, finish st')
                              | other => other
                              end)))).
  { intros st0 H0. pose proof (with_playwright_log fuel (slug :: slugs) st0 H0) as Hl.
    by destruct (with_playwright W cfg fuel st0 (slug :: slugs)) as [[] st']. }
  destruct (total_progress_callback cfg) as [cb|]; [|by apply Hloop].
  destruct (scan_call cb); [apply Hloop|]; by repeat constructor.
Qed.

End Unfinished.

(** X19. The folder and the browser of a journal are prepared before the
    [try] of that journal: when the folder cannot be created or the browser
    cannot be launched, the run raises at once, with no action for that
    journal and none of the later journals crawled; when the page of the
    launched browser cannot be prepared, it raises right after the launch.  A
    run that raises writes neither the summary nor the archive, whatever was
    saved before. *)
Theorem setup_failure_aborts_run (W : World) (cfg : Config) (fuel : nat) :
  (forall st slug rest,
     makedirs_ok W (PyStr.path_join (out_folder cfg) slug) = false
     \/ launch W slug = LaunchFails ->
     journals_loop W cfg fuel st (slug :: rest) = (Raised, st))
  /\ (forall st slug rest,
        makedirs_ok W (PyStr.path_join (out_folder cfg) slug) = true ->
        launch W slug = PageFails ->
        journals_loop W cfg fuel st (slug :: rest) = (Raised, emit (EvLaunch slug) st))
  /\ (fst (crawl_text_nature_async W cfg fuel) = Raised ->
      Forall (fun e => is_summary e = false)
             (trace (snd (crawl_text_nature_async W cfg fuel)))).
Proof.
  split; [|split].
  - intros st slug rest Hfail. cbn [journals_loop]. unfold crawl_journal.
    destruct (makedirs_ok W _); cbn [negb]; [|done].
    by destruct Hfail as [Hm | ->].
  - intros st slug rest Hm Hl. cbn [journals_loop]. unfold crawl_journal.
    by rewrite Hm, Hl.
  - intros Hf. unfold trace. apply Forall_rev, unfinished_run_log. by rewrite Hf.
Qed.

Lemma setup_failure_aborts_run_sample :
  journals_loop Sample.no_folder (Sample.cfg 2023 2023 None) 5 init_state ["k"; "j"]
  = (Raised, init_state)
  /\ journals_loop Sample.no_page (Sample.cfg 2023 2023 None) 5 init_state ["k"; "j"]
     = (Raised, emit (EvLaunch "k") init_state)
  /\ Forall (fun e => is_summary e = false)
            (trace (snd (crawl_text_nature_async Sample.no_folder
                           (MkConfig 2023 2023 "out" None (Some ["j"; "k"]) None None) 5))).
Proof.
  destruct (setup_failure_aborts_run Sample.no_folder (Sample.cfg 2023 2023 None) 5)
    as (Hfolder & _ & _).
  destruct (setup_failure_aborts_run Sample.no_page (Sample.cfg 2023 2023 None) 5)
    as (_ & Hpage & _).
  destruct (setup_failure_aborts_run Sample.no_folder
              (MkConfig 2023 2023 "out" None (Some ["j"; "k"]) None None) 5)
    as (_ & _ & Hsum).
  split; [|split].
  - apply Hfolder. left. reflexivity.
  - apply Hpage; reflexivity.
  - apply Hsum. vm_compute. reflexivity.
Defined.

(** In that last run two records were saved for journal [j] before the
    folder of [k] failed; the caller gets the exception, not the lists. *)
Example no_folder_results_sample :
  crawl_text_nature_async Sample.no_folder
    (MkConfig 2023 2023 "out" None (Some ["j"; "k"]) None None) 5
  = (Raised,
     MkState ["out/j/Paper A_2023.json"; "out/j/Paper A_2023.json"]
             ["Paper A"; "Paper A"]
             [("out/j/Paper A_2023.json", "Paper A", "2023-05-17");
              ("out/j/Paper A_2023.json", "Paper A", "2023-05-17")]
             2
             [EvClose "j"; EvListing "j" 2023 3; EvSleep;
              EvSave "out/j/Paper A_2023.json" true;
              EvExtract "https://www.nature.com/articles/a1";
              EvListing "j" 2023 2; EvSleep;
              EvSave "out/j/Paper A_2023.json" true;
              EvExtract "https://www.nature.com/articles/a1";
              EvListing "j" 2023 1; EvLaunch "j"]).
Proof. vm_compute. reflexivity. Qed.
